(** * fin_line: the streaming tick pipeline, embedded from the Go sources

    The development follows the packages of the repository:
    - [validation]   pkg/validation  (sanitizers, validators, schema check)
    - [models]       pkg/models      (RawTick, NormalizedTick, Anomaly)
    - [redisclient]  pkg/redisclient (retry, circuit breaker)
    - [normalize]    cmd/normalize   (cursor loop, normalizeOne)
    - [cachepub]     cmd/cachepub    (publishTick)
    - [anomaly]      cmd/anomaly     (rolling window, z-score detector)

    Conventions.  A Go [float64] is a primitive binary64 float; a Go [int],
    [int32] or [int64] is a [Z] (wrap-around is written out where the code
    can reach it); a Go [string] is the list of its Unicode code points
    (the text is assumed to be valid UTF-8, which is what [strings.Map],
    [strings.TrimSpace] and [regexp] iterate over); [map[string]T] is a
    [gmap]; a panic or a rejected input is [None] or the left injection. *)

From Stdlib Require Import ZArith Floats Lia.
From stdpp Require Import base option list gmap strings.

#[local] Set Warnings "-inexact-float".
#[local] Open Scope Z_scope.

(** ** Go strings and dynamically typed values *)

Abbreviation gostring := (list Z).

(** An ASCII literal as a Go string. *)
Definition go (s : string) : gostring :=
  (fun a => Z.of_N (Ascii.N_of_ascii a)) <$> String.list_ascii_of_string s.

(** The dynamic types an [interface{}] value takes in the decoded maps. *)
Inductive Value :=
| VString (s : gostring)
| VFloat64 (f : float)
| VInt64 (i : Z)
| VOther.

(** 64-bit two's complement wrap-around, as [atomic.AddInt64] does it. *)
Definition wrap64 (z : Z) : Z := (z + 2^63) mod 2^64 - 2^63.

(** ** package time (the part the pipeline uses)

    A [time.Time] is an instant (nanoseconds since the Unix epoch) and a
    location pointer; [isUTC] says that the pointer is nil, which is how the
    library stores UTC.  The zero value of the struct is the instant
    0001-01-01T00:00:00 with a nil location. *)
Module time.

Record Time := { unixNano : Z; isUTC : bool }.

Definition Millisecond : Z := 1000000.
Definition Hour : Z := 3600 * 1000000000.
Definition zeroNano : Z := -62135596800 * 1000000000.

Definition zero : Time := {| unixNano := zeroNano; isUTC := true |}.

(** [time.UnixMilli(ms)]: local location. *)
Definition UnixMilli (ms : Z) : Time :=
  {| unixNano := ms * Millisecond; isUTC := false |}.

(** [t.UnixMilli()] rounds towards the past. *)
Definition toUnixMilli (t : Time) : Z := unixNano t / Millisecond.

Definition UTC (t : Time) : Time := {| unixNano := unixNano t; isUTC := true |}.
Definition After (t u : Time) : bool := unixNano u <? unixNano t.
Definition Before (t u : Time) : bool := unixNano t <? unixNano u.
Definition Add (t : Time) (d : Z) : Time :=
  {| unixNano := unixNano t + d; isUTC := isUTC t |}.
Definition IsZero (t : Time) : bool := unixNano t =? zeroNano.

(** [reflect.Value.IsZero] on the struct: every field is zero. *)
Definition reflectIsZero (t : Time) : bool := (unixNano t =? zeroNano) && isUTC t.

End time.

(** ** package strconv: ParseInt(s, 10, 64) *)
Module strconv.

Definition digit (r : Z) : option Z :=
  if (48 <=? r) && (r <=? 57) then Some (r - 48) else None.

Fixpoint digits (acc : Z) (s : gostring) : option Z :=
  match s with
  | [] => Some acc
  | r :: s' => d ← digit r; digits (10 * acc + d) s'
  end.

(** Unsigned decimal: at least one digit, nothing else. *)
Definition parseUint (s : gostring) : option Z :=
  match s with
  | [] => None
  | _ => digits 0 s
  end.

(** An optional sign, then digits; a value outside int64 is a range error. *)
Definition ParseInt (s : gostring) : option Z :=
  match s with
  | [] => None
  | 43 :: s' => n ← parseUint s'; if n <? 2^63 then Some n else None
  | 45 :: s' => n ← parseUint s'; if n <=? 2^63 then Some (- n) else None
  | _ => n ← parseUint s; if n <? 2^63 then Some n else None
  end.

(** [strconv.FormatInt(n, 10)], which is also how the store client writes
    an int64 argument.  The digits are produced from the last one; 20
    rounds cover every 64-bit magnitude. *)
Fixpoint formatBits (rounds : nat) (u : Z) (acc : gostring) : gostring :=
  match rounds with
  | O => acc
  | S rounds' =>
      let acc' := (48 + u mod 10) :: acc in
      if u <? 10 then acc' else formatBits rounds' (u / 10) acc'
  end.

Definition FormatInt (n : Z) : gostring :=
  if n <? 0 then 45 :: formatBits 20 (- n) [] else formatBits 20 n [].

End strconv.

(** ** Library functions taken as given

    [ParseFloat s] is [strconv.ParseFloat(s, 64)] ([None] when it returns an
    error), [ParseRFC3339Nano s] is [time.Parse(time.RFC3339Nano, s)], and
    [Sprintf8 x] is [fmt.Sprintf("%.8f", x)]. *)
Class Library := {
  ParseFloat : gostring -> option float;
  ParseRFC3339Nano : gostring -> option time.Time;
  Sprintf8 : float -> gostring;
}.

(** Entries of the graphs of these functions, enough to run the worked
    examples; on any other argument the parsers of the table answer with an
    error and the formatter with a question mark. *)
Fixpoint tableLookup {A} (tbl : list (gostring * A)) (s : gostring) : option A :=
  match tbl with
  | [] => None
  | (k, v) :: tbl' => if bool_decide (k = s) then Some v else tableLookup tbl' s
  end.

Definition instant (unixSeconds : Z) : time.Time :=
  {| time.unixNano := unixSeconds * 1000000000; time.isUTC := true |}.

Definition exampleLibrary : Library := {|
  ParseFloat := tableLookup
    [ (go "123.45", 123.45%float); (go "30000.00", 30000%float);
      (go "0.001", 0.001%float); (go "0", 0%float); (go "-5", (-5)%float);
      (go "1000000", 1000000%float); (go "2000000", 2000000%float) ];
  ParseRFC3339Nano := tableLookup
    [ (go "2025-07-10T12:00:00Z", instant 1752148800);
      (go "2000-01-01T00:00:00Z", instant 946684800);
      (go "2099-01-01T00:00:00Z", instant 4070908800) ];
  Sprintf8 := fun x =>
    if (x =? 30000)%float then go "30000.00000000"
    else if (x =? 123.45)%float then go "123.45000000"
    else go "?";
|}.

(** The clock of the worked examples, 2025-07-10T12:20:00Z, and a message
    of raw:events with the given price and timestamp. *)
Definition exampleNow : time.Time := instant 1752150000.

Definition exampleMessage (price timestamp : Value) : gmap gostring Value :=
  {[ go "source" := VString (go "feedA"); go "symbol" := VString (go "BTCUSD");
     go "price" := price; go "timestamp" := timestamp ]}.

(** ** package validation *)
Module validation.

#[local] Open Scope float_scope.

(** [unicode.IsSpace]: the White_Space property. *)
Definition isSpace (r : Z) : bool :=
  ((9 <=? r) && (r <=? 13) || (r =? 32) || (r =? 133) || (r =? 160)
   || (r =? 5760) || (8192 <=? r) && (r <=? 8202) || (r =? 8232)
   || (r =? 8233) || (r =? 8239) || (r =? 8287) || (r =? 12288))%Z.

Fixpoint dropSpace (s : gostring) : gostring :=
  match s with
  | r :: s' => if isSpace r then dropSpace s' else s
  | [] => []
  end.

(** [strings.TrimSpace] *)
Definition TrimSpace (s : gostring) : gostring :=
  reverse (dropSpace (reverse (dropSpace s))).

(** The rune filter handed to [strings.Map]: control characters go,
    except tab, newline and carriage return. *)
Definition keepRune (r : Z) : bool :=
  negb ((r <? 32) && negb (r =? 9) && negb (r =? 10) && negb (r =? 13))%Z.

Definition SanitizeString (s : gostring) : gostring :=
  TrimSpace (filter (fun r => keepRune r = true) s).

(** A string is trimmed when neither end is white space. *)
Definition trimmed (s : gostring) : Prop :=
  dropSpace s = s /\ dropSpace (reverse s) = reverse s.

Definition SanitizePrice (price : float) : float :=
  if price <=? 0 then 0.01
  else if 1000000 <? price then 1000000
  else price.

(** [now] is the reading of [time.Now()] taken inside the call. *)
Definition SanitizeTimestamp (now : time.Time) (timestamp : Z) : Z :=
  let t := time.UnixMilli timestamp in
  if time.After t now then time.toUnixMilli now
  else if time.Before t (time.Add now (- (24 * time.Hour))) then time.toUnixMilli now
  else timestamp.

(** *** The regular expressions *)

Definition isUpper (r : Z) : bool := ((65 <=? r) && (r <=? 90))%Z.
Definition isLower (r : Z) : bool := ((97 <=? r) && (r <=? 122))%Z.
Definition isDigit (r : Z) : bool := ((48 <=? r) && (r <=? 57))%Z.

(** [^[A-Z0-9]{1,10}$] *)
Definition tickerPattern (s : gostring) : bool :=
  (1 <=? length s)%nat && (length s <=? 10)%nat
  && forallb (fun r => isUpper r || isDigit r) s.

Definition isWord (r : Z) : bool :=
  isLower r || isUpper r || isDigit r || (r =? 95)%Z || (r =? 45)%Z.

(** [^[a-zA-Z0-9_-]{1,50}$] *)
Definition sectorPattern (s : gostring) : bool :=
  (1 <=? length s)%nat && (length s <=? 50)%nat && forallb isWord s.

(** [^[a-zA-Z0-9_-]{1,100}$] *)
Definition sourcePattern (s : gostring) : bool :=
  (1 <=? length s)%nat && (length s <=? 100)%nat && forallb isWord s.

(** *** The custom validators registered in [init] *)

Definition validateTicker (ticker : gostring) : bool := tickerPattern ticker.
Definition validateSector (sector : gostring) : bool := sectorPattern sector.
Definition validateSource (source : gostring) : bool := sourcePattern source.

(** Price must be positive and less than 1 million. *)
Definition validatePrice (price : float) : bool :=
  (0 <? price) && (price <? 1000000).

Definition validateTimestamp (now : time.Time) (timestamp : Z) : bool :=
  let t := time.UnixMilli timestamp in
  time.After t (time.Add now (- (24 * time.Hour))) && negb (time.After t now).

Definition validateZScore (zscore : float) : bool :=
  (0 <=? zscore) && (zscore <? 100).

(** The validator library's [required]: the field is not the zero value of
    its type.  For a float64 the test is on the bits; releases of the
    runtime differ on -0, which [validatePrice] rejects in any case. *)
Definition requiredString (s : gostring) : bool := negb (bool_decide (s = [])).
Definition requiredFloat (f : float) : bool := negb ((f =? 0) && negb (get_sign f)).
Definition requiredInt (i : Z) : bool := negb (i =? 0)%Z.
Definition requiredTime (t : time.Time) : bool := negb (time.reflectIsZero t).

(** *** ValidateMap: the schema check on a decoded map *)

Inductive FieldType := TString | TFloat64 | TInt64.

Inductive Reason :=
| IsRequired | MustBeString | PriceOutOfRange | MustBeValidNumber
| MustBeNumber | TimestampNotRecent | MustBeValidInteger | MustBeInteger
| FailedTag (tag : gostring).

Record ValidationError := { Field : gostring; Message : Reason }.

Definition outOfDay (now : time.Time) (ms : Z) : bool :=
  let t := time.UnixMilli ms in
  time.After t now || time.Before t (time.Add now (- (24 * time.Hour))).

Definition isTimestampField (field : gostring) : bool :=
  bool_decide (field = go "timestamp") || bool_decide (field = go "ts_ms").

(** float64 -> int64 conversion of a value in range (truncation). *)
Definition int64_of_float (f : float) : Z :=
  match Prim2SF f with
  | S754_finite s m e =>
      let a := if (0 <=? e)%Z then Z.shiftl (Z.pos m) e else Z.shiftr (Z.pos m) (- e) in
      if s then (- a)%Z else a
  | _ => 0%Z
  end.

Definition validateFieldType `{Library} (now : time.Time) (field : gostring)
    (value : Value) (expectedType : FieldType) : option ValidationError :=
  match expectedType with
  | TString =>
      match value with
      | VString _ => None
      | _ => Some {| Field := field; Message := MustBeString |}
      end
  | TFloat64 =>
      match value with
      | VFloat64 v =>
          if bool_decide (field = go "price") && ((v <=? 0) || (1000000 <=? v))
          then Some {| Field := field; Message := PriceOutOfRange |}
          else None
      | VString v =>
          match ParseFloat v with
          | None => Some {| Field := field; Message := MustBeValidNumber |}
          | Some _ => None
          end
      | _ => Some {| Field := field; Message := MustBeNumber |}
      end
  | TInt64 =>
      match value with
      | VInt64 v =>
          if isTimestampField field && outOfDay now v
          then Some {| Field := field; Message := TimestampNotRecent |}
          else None
      | VString v =>
          match strconv.ParseInt v with
          | None => Some {| Field := field; Message := MustBeValidInteger |}
          | Some _ => None
          end
      | VFloat64 v =>
          if isTimestampField field && outOfDay now (int64_of_float v)
          then Some {| Field := field; Message := TimestampNotRecent |}
          else None
      | _ => Some {| Field := field; Message := MustBeInteger |}
      end
  end.

(** The schema is a Go map; its iteration order only permutes the errors. *)
Fixpoint ValidateMap `{Library} (now : time.Time) (data : gmap gostring Value)
    (schema : list (gostring * FieldType)) : list ValidationError :=
  match schema with
  | [] => []
  | (field, expectedType) :: rest =>
      match data !! field with
      | None => {| Field := field; Message := IsRequired |} :: ValidateMap now data rest
      | Some value =>
          match validateFieldType now field value expectedType with
          | Some err => err :: ValidateMap now data rest
          | None => ValidateMap now data rest
          end
      end
  end.

End validation.

(** ** package models *)
Module models.

Import validation.

Inductive error :=
| SchemaErrors (errs : list ValidationError)
| MissingOrInvalid (field : gostring)
| PriceParseError
| TimestampParseError
| ValidationFailed (errs : list ValidationError).

(** A Go function returning [(T, error)]. *)
Inductive result (A : Type) :=
| Ok (a : A)
| Err (e : error).
Arguments Ok {A} a.
Arguments Err {A} e.

(** *** RawTick: the untyped data coming from ingest *)
Module RawTick.

Record t := {
  Source : gostring;      (* validate:"required,source" *)
  Symbol : gostring;      (* validate:"required,ticker" *)
  Price : float;          (* validate:"required,price" *)
  Timestamp : time.Time;  (* validate:"required" *)
}.

(** [validation.ValidateStruct]: for each field, the first tag that
    fails is reported. *)
Definition ValidateStruct (rt : t) : list ValidationError :=
  (if negb (requiredString (Source rt))
   then [ {| Field := go "Source"; Message := IsRequired |} ]
   else if negb (validateSource (Source rt))
   then [ {| Field := go "Source"; Message := FailedTag (go "source") |} ]
   else [])
  ++
  (if negb (requiredString (Symbol rt))
   then [ {| Field := go "Symbol"; Message := IsRequired |} ]
   else if negb (validateTicker (Symbol rt))
   then [ {| Field := go "Symbol"; Message := FailedTag (go "ticker") |} ]
   else [])
  ++
  (if negb (requiredFloat (Price rt))
   then [ {| Field := go "Price"; Message := IsRequired |} ]
   else if negb (validatePrice (Price rt))
   then [ {| Field := go "Price"; Message := FailedTag (go "price") |} ]
   else [])
  ++
  (if negb (requiredTime (Timestamp rt))
   then [ {| Field := go "Timestamp"; Message := IsRequired |} ]
   else []).

Definition Validate (rt : t) : option error :=
  match ValidateStruct rt with
  | [] => None
  | errs => Some (ValidationFailed errs)
  end.

(** [Sanitize] reads the clock once for the comparison and once for the
    assignment. *)
Definition Sanitize (now1 now2 : time.Time) (rt : t) : t :=
  {| Source := SanitizeString (Source rt);
     Symbol := SanitizeString (Symbol rt);
     Price := SanitizePrice (Price rt);
     Timestamp :=
       if time.IsZero (Timestamp rt) then now1
       else if time.After (Timestamp rt) now1 then now2
       else Timestamp rt |}.

(** [ToMap] converts a RawTick to a map for stream storage; [format] is
    [Time.Format(time.RFC3339Nano)]. *)
Definition ToMap `{Library} (format : time.Time -> gostring) (rt : t)
    : gmap gostring Value :=
  {[ go "source" := VString (Source rt);
     go "symbol" := VString (Symbol rt);
     go "price" := VString (Sprintf8 (Price rt));
     go "timestamp" := VString (format (Timestamp rt)) ]}.

End RawTick.

Definition rawTickSchema : list (gostring * FieldType) :=
  [ (go "source", TString); (go "symbol", TString);
    (go "price", TFloat64); (go "timestamp", TString) ].

(** [RawTickFromMap] parses a stream message's values into a RawTick; [now]
    is the clock as read by the sanitizer. *)
Definition RawTickFromMap `{Library} (now : time.Time)
    (m : gmap gostring Value) : result RawTick.t :=
  match ValidateMap now m rawTickSchema with
  | (_ :: _) as errs => Err (SchemaErrors errs)
  | [] =>
  match m !! go "source" with
  | Some (VString s) =>
  let source := SanitizeString s in
  match m !! go "symbol" with
  | Some (VString s) =>
  let symbol := SanitizeString s in
  let price : result float :=
    match m !! go "price" with
    | Some (VFloat64 v) => Ok (SanitizePrice v)
    | Some (VString v) =>
        match ParseFloat v with
        | None => Err PriceParseError
        | Some p => Ok (SanitizePrice p)
        end
    | _ => Err (MissingOrInvalid (go "price"))
    end in
  match price with
  | Err e => Err e
  | Ok price =>
  let timestamp : result time.Time :=
    match m !! go "timestamp" with
    | Some (VString v) =>
        match ParseRFC3339Nano v with
        | Some ts => Ok ts
        | None =>
            match strconv.ParseInt v with
            | Some ms => Ok (time.UnixMilli (SanitizeTimestamp now ms))
            | None => Err TimestampParseError
            end
        end
    | Some (VFloat64 v) =>
        Ok (time.UnixMilli (SanitizeTimestamp now (int64_of_float v)))
    | _ => Err (MissingOrInvalid (go "timestamp"))
    end in
  match timestamp with
  | Err e => Err e
  | Ok timestamp =>
  let rt := {| RawTick.Source := source; RawTick.Symbol := symbol;
               RawTick.Price := price; RawTick.Timestamp := timestamp |} in
  match RawTick.Validate rt with
  | Some e => Err e
  | None => Ok rt
  end
  end
  end
  | _ => Err (MissingOrInvalid (go "symbol"))
  end
  | _ => Err (MissingOrInvalid (go "source"))
  end
  end.

(** *** NormalizedTick: the cleaned, canonical form *)
Module NormalizedTick.

Record t := {
  Ticker : gostring;
  Price : float;
  Timestamp : Z;      (* milliseconds since epoch (UTC), int64 *)
  Sector : gostring;
}.

Definition ToMap `{Library} (nt : t) : gmap gostring Value :=
  {[ go "ticker" := VString (Ticker nt);
     go "price" := VString (Sprintf8 (Price nt));
     go "ts_ms" := VInt64 (Timestamp nt);
     go "sector" := VString (Sector nt) ]}.

End NormalizedTick.

(** *** Anomaly: a detected outlier *)
Module Anomaly.

Record t := {
  Ticker : gostring;
  Price : float;
  ZScore : float;
  Timestamp : Z;
}.

End Anomaly.

(** *** NormalizedTick and Anomaly: validation, sanitizing, parsing

    The clock is read where the code reads it: [now1] by the schema check
    on an int64 timestamp, [now2] by the timestamp sanitizer, [now3] by the
    timestamp validator. *)

Definition NormalizedTick_ValidateStruct (now : time.Time) (nt : NormalizedTick.t)
    : list ValidationError :=
  (if negb (requiredString (NormalizedTick.Ticker nt))
   then [ {| Field := go "Ticker"; Message := IsRequired |} ]
   else if negb (validateTicker (NormalizedTick.Ticker nt))
   then [ {| Field := go "Ticker"; Message := FailedTag (go "ticker") |} ]
   else [])
  ++
  (if negb (requiredFloat (NormalizedTick.Price nt))
   then [ {| Field := go "Price"; Message := IsRequired |} ]
   else if negb (validatePrice (NormalizedTick.Price nt))
   then [ {| Field := go "Price"; Message := FailedTag (go "price") |} ]
   else [])
  ++
  (if negb (requiredInt (NormalizedTick.Timestamp nt))
   then [ {| Field := go "Timestamp"; Message := IsRequired |} ]
   else if negb (validateTimestamp now (NormalizedTick.Timestamp nt))
   then [ {| Field := go "Timestamp"; Message := FailedTag (go "timestamp") |} ]
   else [])
  ++
  (if negb (requiredString (NormalizedTick.Sector nt))
   then [ {| Field := go "Sector"; Message := IsRequired |} ]
   else if negb (validateSector (NormalizedTick.Sector nt))
   then [ {| Field := go "Sector"; Message := FailedTag (go "sector") |} ]
   else []).

Definition NormalizedTick_Validate (now : time.Time) (nt : NormalizedTick.t) : option error :=
  match NormalizedTick_ValidateStruct now nt with
  | [] => None
  | errs => Some (ValidationFailed errs)
  end.

Definition NormalizedTick_Sanitize (now : time.Time) (nt : NormalizedTick.t)
    : NormalizedTick.t :=
  {| NormalizedTick.Ticker := SanitizeString (NormalizedTick.Ticker nt);
     NormalizedTick.Price := SanitizePrice (NormalizedTick.Price nt);
     NormalizedTick.Timestamp := SanitizeTimestamp now (NormalizedTick.Timestamp nt);
     NormalizedTick.Sector := SanitizeString (NormalizedTick.Sector nt) |}.

Definition normalizedTickSchema : list (gostring * FieldType) :=
  [ (go "ticker", TString); (go "price", TFloat64);
    (go "ts_ms", TInt64); (go "sector", TString) ].

(** The price of a map, as the three [FromMap] functions read it. *)
Definition priceOf `{Library} (m : gmap gostring Value) : result float :=
  match m !! go "price" with
  | Some (VFloat64 v) => Ok (SanitizePrice v)
  | Some (VString v) =>
      match ParseFloat v with
      | None => Err PriceParseError
      | Some p => Ok (SanitizePrice p)
      end
  | _ => Err (MissingOrInvalid (go "price"))
  end.

(** The [ts_ms] of a map, as [NormalizedTickFromMap] and [AnomalyFromMap]
    read it. *)
Definition tsMsOf (now : time.Time) (m : gmap gostring Value) : result Z :=
  match m !! go "ts_ms" with
  | Some (VInt64 v) => Ok (SanitizeTimestamp now v)
  | Some (VString v) =>
      match strconv.ParseInt v with
      | Some ts => Ok (SanitizeTimestamp now ts)
      | None => Err TimestampParseError
      end
  | Some (VFloat64 v) => Ok (SanitizeTimestamp now (int64_of_float v))
  | _ => Err (MissingOrInvalid (go "ts_ms"))
  end.

(** [NormalizedTickFromMap] creates a NormalizedTick from a stream message. *)
Definition NormalizedTickFromMap `{Library} (now1 now2 now3 : time.Time)
    (m : gmap gostring Value) : result NormalizedTick.t :=
  match ValidateMap now1 m normalizedTickSchema with
  | (_ :: _) as errs => Err (SchemaErrors errs)
  | [] =>
  match m !! go "ticker" with
  | Some (VString s) =>
  let ticker := SanitizeString s in
  match priceOf m with
  | Err e => Err e
  | Ok price =>
  match tsMsOf now2 m with
  | Err e => Err e
  | Ok timestamp =>
  let sector :=
    match m !! go "sector" with
    | Some (VString s) => SanitizeString s
    | _ => go "unknown"   (* Default sector *)
    end in
  let nt := {| NormalizedTick.Ticker := ticker; NormalizedTick.Price := price;
               NormalizedTick.Timestamp := timestamp; NormalizedTick.Sector := sector |} in
  match NormalizedTick_Validate now3 nt with
  | Some e => Err e
  | None => Ok nt
  end
  end
  end
  | _ => Err (MissingOrInvalid (go "ticker"))
  end
  end.

Definition Anomaly_ValidateStruct (now : time.Time) (a : Anomaly.t)
    : list ValidationError :=
  (if negb (requiredString (Anomaly.Ticker a))
   then [ {| Field := go "Ticker"; Message := IsRequired |} ]
   else if negb (validateTicker (Anomaly.Ticker a))
   then [ {| Field := go "Ticker"; Message := FailedTag (go "ticker") |} ]
   else [])
  ++
  (if negb (requiredFloat (Anomaly.Price a))
   then [ {| Field := go "Price"; Message := IsRequired |} ]
   else if negb (validatePrice (Anomaly.Price a))
   then [ {| Field := go "Price"; Message := FailedTag (go "price") |} ]
   else [])
  ++
  (if negb (requiredFloat (Anomaly.ZScore a))
   then [ {| Field := go "ZScore"; Message := IsRequired |} ]
   else if negb (validateZScore (Anomaly.ZScore a))
   then [ {| Field := go "ZScore"; Message := FailedTag (go "zscore") |} ]
   else [])
  ++
  (if negb (requiredInt (Anomaly.Timestamp a))
   then [ {| Field := go "Timestamp"; Message := IsRequired |} ]
   else if negb (validateTimestamp now (Anomaly.Timestamp a))
   then [ {| Field := go "Timestamp"; Message := FailedTag (go "timestamp") |} ]
   else []).

Definition Anomaly_Validate (now : time.Time) (a : Anomaly.t) : option error :=
  match Anomaly_ValidateStruct now a with
  | [] => None
  | errs => Some (ValidationFailed errs)
  end.

(** The two tests on the z-score, one after the other. *)
Definition clampZScore (z : float) : float :=
  let z := if (z <? 0)%float then 0%float else z in
  if (100 <? z)%float then 100%float else z.

Definition Anomaly_Sanitize (now : time.Time) (a : Anomaly.t) : Anomaly.t :=
  {| Anomaly.Ticker := SanitizeString (Anomaly.Ticker a);
     Anomaly.Price := SanitizePrice (Anomaly.Price a);
     Anomaly.ZScore := clampZScore (Anomaly.ZScore a);
     Anomaly.Timestamp := SanitizeTimestamp now (Anomaly.Timestamp a) |}.

Definition anomalySchema : list (gostring * FieldType) :=
  [ (go "ticker", TString); (go "price", TFloat64);
    (go "z", TFloat64); (go "ts_ms", TInt64) ].

(** [AnomalyFromMap] has one error more than the tick parsers. *)
Inductive anomalyError :=
| TickError (e : error)
| ZScoreParseError.

Inductive anomalyResult :=
| AnomalyOk (a : Anomaly.t)
| AnomalyErr (e : anomalyError).

(** [AnomalyFromMap] creates an Anomaly from a stream message. *)
Definition AnomalyFromMap `{Library} (now1 now2 now3 : time.Time)
    (m : gmap gostring Value) : anomalyResult :=
  match ValidateMap now1 m anomalySchema with
  | (_ :: _) as errs => AnomalyErr (TickError (SchemaErrors errs))
  | [] =>
  match m !! go "ticker" with
  | Some (VString s) =>
  let ticker := SanitizeString s in
  match priceOf m with
  | Err e => AnomalyErr (TickError e)
  | Ok price =>
  let zscore : float + anomalyError :=
    match m !! go "z" with
    | Some (VFloat64 v) => inl (clampZScore v)
    | Some (VString v) =>
        match ParseFloat v with
        | Some z => inl (clampZScore z)
        | None => inr ZScoreParseError
        end
    | _ => inr (TickError (MissingOrInvalid (go "z")))
    end in
  match zscore with
  | inr e => AnomalyErr e
  | inl zscore =>
  match tsMsOf now2 m with
  | Err e => AnomalyErr (TickError e)
  | Ok timestamp =>
  let a := {| Anomaly.Ticker := ticker; Anomaly.Price := price;
              Anomaly.ZScore := zscore; Anomaly.Timestamp := timestamp |} in
  match Anomaly_Validate now3 a with
  | Some e => AnomalyErr (TickError e)
  | None => AnomalyOk a
  end
  end
  end
  end
  | _ => AnomalyErr (TickError (MissingOrInvalid (go "ticker")))
  end
  end.

End models.

(** ** package redisclient

    The store is outside the program.  What the client sees of it is, for
    each request it sends, whether the request fails, and the wall clock at
    that moment; [Env] fixes both by the request's sequence number.  A
    request is one call of the go-redis client (which may resend the command
    on its own within the call's deadline).  A request that succeeds is
    applied; one that fails is not. *)
Module redisclient.

Inductive error :=
| ErrCircuitBreakerOpen
| ErrTimeout
| ErrStore.   (* whatever go-redis returned for a failed request *)

(** The store and the clock, as the client meets them.  Request number
    [k] (from 0) comes back with an error when [fails k]: the store
    refused it, the connection broke, or the deadline of the attempt
    passed.  A request that comes back with an error may have been carried
    out by the store all the same (the deadline passed while the reply was
    under way, or the reply was lost): [applied k] says so.  [unixAt k] is
    [time.Now().Unix()] when the outcome of request [k] is reported to the
    breaker. *)
Record Env := {
  fails : nat -> bool;
  applied : nat -> bool;
  unixAt : nat -> Z;
}.

Abbreviation entry := (gmap gostring Value).

Record Redis := {
  requests : nat;                        (* requests sent so far *)
  streams : gmap gostring (list entry);  (* stream name to its entries, oldest first *)
  zsets : gmap gostring (gmap gostring float);  (* sorted set name to its members' scores *)
}.

Definition stream (name : gostring) (r : Redis) : list entry :=
  default [] (streams r !! name).

(** Circuit breaker state: 0 closed, 1 open, 2 half-open. *)
Record Client := {
  failureCount : Z;   (* int64 *)
  lastFailure : Z;    (* int64 *)
  state : Z;          (* int32 *)
}.

Definition closed : Z := 0.
Definition open : Z := 1.
Definition halfOpen : Z := 2.

Definition New : Client := {| failureCount := 0; lastFailure := 0; state := 0 |}.

(** [atomic.CompareAndSwapInt32(&c.state, old, new)] *)
Definition casState (old new : Z) (c : Client) : Client :=
  if state c =? old
  then {| failureCount := failureCount c; lastFailure := lastFailure c; state := new |}
  else c.

(** [checkCircuitBreaker err]; [now] is [time.Now().Unix()]. *)
Definition checkCircuitBreaker (now : Z) (err : option error) (c : Client) : Client :=
  match err with
  | Some _ =>
      let c1 := {| failureCount := wrap64 (failureCount c + 1);
                   lastFailure := now; state := state c |} in
      (* Open circuit breaker after 5 consecutive failures *)
      if 5 <=? failureCount c1 then casState 0 1 c1  (* closed -> open *)
      else c1
  | None =>
      (* Reset failure count on success *)
      let c1 := {| failureCount := 0; lastFailure := lastFailure c; state := state c |} in
      casState 1 2 c1  (* open -> half-open *)
  end.

(** [backoff.Retry(op, backoff.WithMaxRetries(b, maxRetries))] of
    cenkalti/backoff v4: [op] runs; when it fails the wrapper is asked for
    the next delay, which it grants [maxRetries] times and then answers
    Stop, at which the last error is returned.  The delays themselves
    (0.5 s growing by 1.5, far below the 15 minutes after which the
    exponential policy stops on its own) are not modelled. *)
Fixpoint Retry {S : Type} (op : S -> S * option error) (maxRetries : nat) (s : S)
    : S * option error :=
  match op s with
  | (s', None) => (s', None)
  | (s', Some err) =>
      match maxRetries with
      | O => (s', Some err)
      | S k => Retry op k s'
      end
  end.

(** Whether the store carries out request number [k]. *)
Definition carriedOut (env : Env) (k : nat) : bool :=
  negb (fails env k) || applied env k.

(** One XADD request. *)
Definition XAdd (env : Env) (name : gostring) (values : entry) (r : Redis)
    : Redis * option error :=
  let k := requests r in
  ({| requests := S k;
      streams := if carriedOut env k
                 then <[name := stream name r ++ [values]]> (streams r)
                 else streams r;
      zsets := zsets r |},
   if fails env k then Some ErrStore else None).

(** One ZADD request: the member is added to the sorted set with its
    score, or its score is replaced. *)
Definition ZAdd (env : Env) (key : gostring) (score : float) (member : gostring)
    (r : Redis) : Redis * option error :=
  let k := requests r in
  ({| requests := S k;
      streams := streams r;
      zsets := if carriedOut env k
               then <[key := <[member := score]> (default ∅ (zsets r !! key))]> (zsets r)
               else zsets r |},
   if fails env k then Some ErrStore else None).

(** The closure [op] of [AddToStream]: one attempt. *)
Definition addAttempt (env : Env) (name : gostring) (values : entry)
    (s : Client * Redis) : (Client * Redis) * option error :=
  let '(c, r) := s in
  let '(r', err) := XAdd env name values r in
  ((checkCircuitBreaker (unixAt env (requests r)) err c, r'), err).

(** [AddToStream] appends into a stream with retry/backoff. *)
Definition AddToStream (env : Env) (name : gostring) (values : entry)
    (s : Client * Redis) : (Client * Redis) * option error :=
  (* Check circuit breaker *)
  if state (fst s) =? 1 then (s, Some ErrCircuitBreakerOpen)
  else (* exponential backoff: max 3 retries *)
    Retry (addAttempt env name values) 3 s.



(** A value as it is read back from a stream: the store keeps strings, and
    the client writes an int64 in decimal and a float64 with
    [strconv.FormatFloat], which is taken as given. *)
Definition readBack (formatFloat : float -> gostring) (v : Value) : Value :=
  match v with
  | VString s => VString s
  | VInt64 i => VString (strconv.FormatInt i)
  | VFloat64 f => VString (formatFloat f)
  | VOther => VOther
  end.

(** A caller issuing [k] appends one after the other: the final client
    and store, and what each call returned. *)
Fixpoint AddToStreamN (env : Env) (name : gostring) (values : entry) (k : nat)
    (s : Client * Redis) : (Client * Redis) * list (option error) :=
  match k with
  | O => (s, [])
  | S k' =>
      let '(s1, e) := AddToStream env name values s in
      let '(s2, es) := AddToStreamN env name values k' s1 in
      (s2, e :: es)
  end.

Definition emptyRedis : Redis := {| requests := 0; streams := ∅; zsets := ∅ |}.

(** The client after failures reported at the given clock readings. *)
Definition afterFailures (nows : list Z) (c : Client) : Client :=
  foldl (fun c now => checkCircuitBreaker now (Some ErrStore) c) c nows.

(** The client after a sequence of reports to the breaker, each with its
    clock reading. *)
Definition afterReports (reports : list (Z * option error)) (c : Client) : Client :=
  foldl (fun c r => checkCircuitBreaker (fst r) (snd r) c) c reports.

End redisclient.

(** ** cmd/normalize *)
Module normalize.

Import models.

(** symbolMap could be loaded from config or DB; here's a stub. *)
Definition symbolMap : gmap gostring gostring := {[ go "BTCUSD" := go "BTCUSD" ]}.

(** sectorMap stub *)
Definition sectorMap : gmap gostring gostring := {[ go "BTCUSD" := go "crypto" ]}.

Definition maxWorkers : nat := 50.

Record XMessage := { ID : gostring; Values : gmap gostring Value }.

(** The normalizer's counters, its cursor, and the store client. *)
Record State := {
  lastID : gostring;
  NormalizeErrors : nat;
  NormalizeCounter : nat;
  rdb : redisclient.Client;
  redis : redisclient.Redis;
}.

Definition incErrors (st : State) : State :=
  {| lastID := lastID st; NormalizeErrors := S (NormalizeErrors st);
     NormalizeCounter := NormalizeCounter st; rdb := rdb st; redis := redis st |}.

Definition setCursor (id : gostring) (st : State) : State :=
  {| lastID := id; NormalizeErrors := NormalizeErrors st;
     NormalizeCounter := NormalizeCounter st; rdb := rdb st; redis := redis st |}.

(** The normalizer at start: cursor at "0-0", a fresh client. *)
Definition initialState : State :=
  {| lastID := go "0-0"; NormalizeErrors := 0; NormalizeCounter := 0;
     rdb := redisclient.New; redis := redisclient.emptyRedis |}.

Section Tables.

Context `{Library}.
(** The tables are read-only after load; the functions take them as
    arguments so that the statements hold for any contents. *)
Variable symbols sectors : gmap gostring gostring.
Variable env : redisclient.Env.

Definition normalizeOne (now : time.Time) (msg : XMessage) (st : State) : State :=
  (* 1) Convert raw map -> typed RawTick *)
  match RawTickFromMap now (Values msg) with
  | Err _ => incErrors st
  | Ok raw =>
  (* 2) Symbol mapping *)
  match symbols !! RawTick.Symbol raw with
  | None => incErrors st
  | Some ticker =>
  (* 3) Lookup sector (fallback to "unknown") *)
  let sector := default [] (sectors !! ticker) in
  let sector := if bool_decide (sector = []) then go "unknown" else sector in
  (* 4) Build NormalizedTick *)
  let norm := {| NormalizedTick.Ticker := ticker;
                 NormalizedTick.Price := RawTick.Price raw;
                 NormalizedTick.Timestamp := time.toUnixMilli (time.UTC (RawTick.Timestamp raw));
                 NormalizedTick.Sector := sector |} in
  (* 5) Write to normalized:events *)
  match redisclient.AddToStream env (go "normalized:events")
          (NormalizedTick.ToMap norm) (rdb st, redis st) with
  | ((c, r), Some _) =>
      {| lastID := lastID st; NormalizeErrors := S (NormalizeErrors st);
         NormalizeCounter := NormalizeCounter st; rdb := c; redis := r |}
  | ((c, r), None) =>
      {| lastID := lastID st; NormalizeErrors := NormalizeErrors st;
         NormalizeCounter := S (NormalizeCounter st); rdb := c; redis := r |}
  end
  end
  end.

(** The body of the loop over a batch in [startNormalization], for one
    message.  The handlers run as goroutines behind a semaphore of
    [maxWorkers] slots; [slotFree] says whether the non-blocking send on
    the semaphore goes through, and an admitted handler's effects are
    accounted to its message. *)
Definition handleMessage (now : time.Time) (slotFree : bool) (msg : XMessage)
    (st : State) : State :=
  let st := setCursor (ID msg) st in   (* advance our cursor *)
  if slotFree then normalizeOne now msg st
  else incErrors st.                   (* worker pool full: drop *)

(** The loop over one batch read from raw:events: each message with the
    clock its handler reads and the outcome of its admission. *)
Fixpoint processBatch (batch : list (time.Time * bool * XMessage)) (st : State) : State :=
  match batch with
  | [] => st
  | (now, slotFree, msg) :: rest => processBatch rest (handleMessage now slotFree msg st)
  end.

End Tables.

End normalize.

(** ** cmd/cachepub *)
Module cachepub.

Import models.

(** The hash [quotes:latest:<ticker>] holds the fields [price] and [ts_ms]. *)
Record LatestQuote := { price : float; ts_ms : Z }.

Record Store := {
  latest : gmap gostring LatestQuote;    (* keyed by the hash's name *)
  pubsub : list NormalizedTick.t;        (* payloads sent on quotes:pubsub, oldest first *)
}.

(** How [pipe.Exec] ended: without error, or with an error after the store
    applied some of the queued commands. *)
Inductive ExecOutcome :=
| ExecOk
| ExecFailed (hsetApplied publishApplied : bool).

Definition hashKey (ticker : gostring) : gostring := go "quotes:latest:" ++ ticker.

Definition HSet (tick : NormalizedTick.t) (st : Store) : Store :=
  {| latest := <[hashKey (NormalizedTick.Ticker tick) :=
                  {| price := NormalizedTick.Price tick;
                     ts_ms := NormalizedTick.Timestamp tick |}]> (latest st);
     pubsub := pubsub st |}.

Definition Publish (tick : NormalizedTick.t) (st : Store) : Store :=
  {| latest := latest st; pubsub := pubsub st ++ [tick] |}.

(** [publishTick] updates the latest-quote hash and publishes on quotes:pubsub. *)
Definition publishTick (outcome : ExecOutcome) (tick : NormalizedTick.t) (st : Store)
    : Store * option redisclient.error :=
  match outcome with
  | ExecOk => (Publish tick (HSet tick st), None)
  | ExecFailed h p =>
      let st := if h then HSet tick st else st in
      let st := if p then Publish tick st else st in
      (st, Some redisclient.ErrStore)
  end.

(** The stored [ts_ms] of a ticker, if any. *)
Definition stored_ts (ticker : gostring) (st : Store) : option Z :=
  ts_ms <$> latest st !! hashKey ticker.

(** A run of the publisher over the ticks it reads, each with the outcome
    of its pipeline. *)
Fixpoint publishAll (ticks : list (ExecOutcome * NormalizedTick.t)) (st : Store) : Store :=
  match ticks with
  | [] => st
  | (o, tick) :: rest => publishAll rest (fst (publishTick o tick st))
  end.

(** The parse of a stream message in [runCachePub]: a field that is
    missing, is not a string or does not parse leaves the zero value. *)
Definition parseTick `{Library} (values : gmap gostring Value) : NormalizedTick.t :=
  {| NormalizedTick.Ticker :=
       match values !! go "ticker" with Some (VString s) => s | _ => [] end;
     NormalizedTick.Price :=
       match values !! go "price" with
       | Some (VString s) => default 0%float (ParseFloat s)
       | _ => 0%float
       end;
     NormalizedTick.Timestamp :=
       match values !! go "ts_ms" with
       | Some (VString s) => default 0 (strconv.ParseInt s)
       | _ => 0
       end;
     NormalizedTick.Sector :=
       match values !! go "sector" with Some (VString s) => s | _ => [] end |}.

(** The publisher's cursor, its counters and the store. *)
Record State := {
  lastID : gostring;
  CachePubErrors : nat;
  CachePubCounter : nat;
  store : Store;
}.

(** The body of the loop over a batch in [runCachePub], for one message. *)
Definition handleMessage `{Library} (outcome : ExecOutcome) (msg : normalize.XMessage)
    (st : State) : State :=
  let tick := parseTick (normalize.Values msg) in
  match publishTick outcome tick (store st) with
  | (store', Some _) =>
      {| lastID := normalize.ID msg; CachePubErrors := S (CachePubErrors st);
         CachePubCounter := CachePubCounter st; store := store' |}
  | (store', None) =>
      {| lastID := normalize.ID msg; CachePubErrors := CachePubErrors st;
         CachePubCounter := S (CachePubCounter st); store := store' |}
  end.

Fixpoint processBatch `{Library} (batch : list (ExecOutcome * normalize.XMessage))
    (st : State) : State :=
  match batch with
  | [] => st
  | (outcome, msg) :: rest => processBatch rest (handleMessage outcome msg st)
  end.

Definition pipelineFailed (outcome : ExecOutcome) : bool :=
  match outcome with ExecOk => false | ExecFailed _ _ => true end.

(** The last tick of a ticker in a list of ticks. *)
Definition lastOf (ticker : gostring) (ticks : list NormalizedTick.t)
    : option NormalizedTick.t :=
  last (filter (fun tick => NormalizedTick.Ticker tick = ticker) ticks).

Definition quoteOf (tick : NormalizedTick.t) : LatestQuote :=
  {| price := NormalizedTick.Price tick; ts_ms := NormalizedTick.Timestamp tick |}.

End cachepub.

(** ** cmd/anomaly *)
Module anomaly.

Import models.

(** rollingWindow holds a fixed-size ring buffer for O(1) mean/stddev. *)
Record rollingWindow := {
  buf : list float;
  sum : float;
  sqsum : float;
  idx : nat;
  full : bool;
}.

(** What [make([]float64, n)] needs of the machine.  A length above
    [allocatable] is not served: the runtime panics ("len out of range")
    above 2^45 elements on a 64-bit machine, and the process ends when the
    memory for a smaller slice cannot be had. *)
Class Runtime := { allocatable : Z }.

(** [None] is a panic, or the end of the process: [make] on a negative
    size, or on a size the machine does not serve. *)
Definition newWindow `{Runtime} (size : Z) : option rollingWindow :=
  if (size <? 0) || (allocatable <? size) then None
  else Some {| buf := replicate (Z.to_nat size) 0%float; sum := 0%float;
               sqsum := 0%float; idx := 0%nat; full := false |}.

(** [add]: indexing [w.buf[w.idx]] out of range panics. *)
Definition add (w : rollingWindow) (x : float) : option rollingWindow :=
  match buf w !! idx w with
  | None => None
  | Some old =>
      let sum1 := if full w then (sum w - old)%float else sum w in
      let sqsum1 := if full w then (sqsum w - old * old)%float else sqsum w in
      let idx' := ((idx w + 1) mod length (buf w))%nat in
      Some {| buf := <[idx w := x]> (buf w);
              sum := (sum1 + x)%float;
              sqsum := (sqsum1 + x * x)%float;
              idx := idx';
              full := if (idx' =? 0)%nat then true else full w |}
  end.

(** The number of samples [stats] divides by. *)
Definition count (w : rollingWindow) : nat :=
  if full w then length (buf w) else idx w.

Definition float64_of_nat (k : nat) : float :=
  PrimFloat.of_uint63 (Uint63.of_Z (Z.of_nat k)).

Definition stats (w : rollingWindow) : float * float :=
  let n := float64_of_nat (count w) in
  if (n =? 0)%float then (0, 0)%float
  else
    let mean := (sum w / n)%float in
    let variance := ((sqsum w / n) - (mean * mean))%float in
    let variance := if (variance <? 0)%float then 0%float else variance in
    (mean, PrimFloat.sqrt variance).

(** A run of [add] over a sequence of updates. *)
Fixpoint addAll (w : rollingWindow) (xs : list float) : option rollingWindow :=
  match xs with
  | [] => Some w
  | x :: xs' => w' ← add w x; addAll w' xs'
  end.

(** The window of [W] slots after the updates [xs]. *)
Definition windowAfter `{Runtime} (W : Z) (xs : list float) : option rollingWindow :=
  w ← newWindow W; addAll w xs.

(** *** The sums, read as numbers

    Every finite float64 is a whole number of steps of 2^-1074.  [units x]
    is the number that [x] stands for, counted in these steps, and [None]
    for an infinity or a NaN; [scale] is the number one counted so. *)
Definition units (x : float) : option Z :=
  match Prim2SF x with
  | S754_zero _ => Some 0
  | S754_finite s m e =>
      let a := Z.pos m * 2 ^ (e + 1074) in
      Some (if s then - a else a)
  | _ => None
  end.

Definition scale : Z := 2 ^ 1074.

Definition value (x : float) : Z := default 0 (units x).

(** The float64 operation gave the exact result: it did not round, and
    neither operand nor result is an infinity or a NaN. *)
Definition exactAdd (a b : float) : bool :=
  match units a, units b, units (a + b)%float with
  | Some ua, Some ub, Some uc => uc =? ua + ub
  | _, _, _ => false
  end.

Definition exactSub (a b : float) : bool :=
  match units a, units b, units (a - b)%float with
  | Some ua, Some ub, Some uc => uc =? ua - ub
  | _, _, _ => false
  end.

Definition exactMul (a b : float) : bool :=
  match units a, units b, units (a * b)%float with
  | Some ua, Some ub, Some uc => uc * scale =? ua * ub
  | _, _, _ => false
  end.

(** None of the operations that [add w x] performs rounds. *)
Definition unrounded (w : rollingWindow) (x : float) : bool :=
  match buf w !! idx w with
  | None => false
  | Some old =>
      let sum1 := if full w then (sum w - old)%float else sum w in
      let sqsum1 := if full w then (sqsum w - old * old)%float else sqsum w in
      (if full w
       then exactSub (sum w) old && exactMul old old && exactSub (sqsum w) (old * old)
       else true)
      && exactAdd sum1 x && exactMul x x && exactAdd sqsum1 (x * x)
  end.

Fixpoint unroundedAll (w : rollingWindow) (xs : list float) : bool :=
  match xs with
  | [] => true
  | x :: xs' =>
      unrounded w x && match add w x with
                       | Some w' => unroundedAll w' xs'
                       | None => false
                       end
  end.

(** No operation rounds over the updates [xs] of a new window of [W]
    slots. *)
Definition unroundedRun `{Runtime} (W : Z) (xs : list float) : bool :=
  match newWindow W with
  | Some w => unroundedAll w xs
  | None => false
  end.

Definition zsum (l : list Z) : Z := foldr Z.add 0 l.

(** The last [k] elements of a list. *)
Definition lastn {A} (k : nat) (xs : list A) : list A := drop (length xs - k) xs.

(** *** The detector *)

Record Config := {
  AnomalyWindowSize : Z;
  AnomalyThreshold : float;
}.

(** The defaults of [config.Load]. *)
Definition defaultConfig : Config :=
  {| AnomalyWindowSize := 20; AnomalyThreshold := 3.0 |}.

Abbreviation windowMap := (gmap gostring rollingWindow).

(** The window of a ticker, created when the ticker is new. *)
Definition windowOf `{Runtime} (cfg : Config) (ws : windowMap) (ticker : gostring)
    : option rollingWindow :=
  match ws !! ticker with
  | Some w => Some w
  | None => newWindow (AnomalyWindowSize cfg)
  end.

(** The z-score of [x] against a window's statistics. *)
Definition zscore (x mean std : float) : float := PrimFloat.abs ((x - mean) / std)%float.

(** The body of the subscription loop of [runAnomalyDetector] for one
    decoded tick, up to the call of [emitAnomaly]: the new map of windows,
    and the event to emit, if any.  [None] is a panic. *)
Definition onTick `{Runtime} (cfg : Config) (ws : windowMap) (tick : NormalizedTick.t)
    : option (windowMap * option Anomaly.t) :=
  (* Ensure window exists *)
  w ← windowOf cfg ws (NormalizedTick.Ticker tick);
  (* Update window & compute z-score *)
  w ← add w (NormalizedTick.Price tick);
  let ws := <[NormalizedTick.Ticker tick := w]> ws in
  let '(mean, std) := stats w in
  if (std =? 0)%float then Some (ws, None)   (* no variation yet *)
  else
    let z := zscore (NormalizedTick.Price tick) mean std in
    if (AnomalyThreshold cfg <=? z)%float
    then Some (ws, Some {| Anomaly.Ticker := NormalizedTick.Ticker tick;
                           Anomaly.Price := NormalizedTick.Price tick;
                           Anomaly.ZScore := z;
                           Anomaly.Timestamp := NormalizedTick.Timestamp tick |})
    else Some (ws, None).

(** The detector's map of windows, its two counters and the store client.
    [emitted] keeps the events handed to [emitAnomaly], oldest first. *)
Record State := {
  windows : windowMap;
  emitted : list Anomaly.t;
  AnomalyErrors : nat;
  AnomalyCounter : nat;
  rdb : redisclient.Client;
  redis : redisclient.Redis;
}.

(** [float64(i)] of an int64. *)
Definition float64_of_int64 (i : Z) : float :=
  if i =? - 2 ^ 63 then PrimFloat.opp 9223372036854775808%float
  else if i <? 0 then PrimFloat.opp (PrimFloat.of_uint63 (Uint63.of_Z (- i)))
  else PrimFloat.of_uint63 (Uint63.of_Z i).

(** The stream entry of an anomaly. *)
Definition entryOf (a : Anomaly.t) : redisclient.entry :=
  {[ go "ticker" := VString (Anomaly.Ticker a);
     go "price" := VFloat64 (Anomaly.Price a);
     go "z" := VFloat64 (Anomaly.ZScore a);
     go "ts_ms" := VInt64 (Anomaly.Timestamp a) ]}.

(** [emitAnomaly]: the stream entry goes through the client's
    [AddToStream], the sorted set through the underlying connection.
    [toJSON] is the function of that name, taken as given. *)
Definition emitAnomaly (env : redisclient.Env) (toJSON : redisclient.entry -> gostring)
    (a : Anomaly.t) (st : State) : State :=
  (* 1) Stream entry *)
  let val := entryOf a in
  let '((c, r), err) :=
    redisclient.AddToStream env (go "anomalies:stream") val (rdb st, redis st) in
  let errors := match err with
                | Some _ => S (AnomalyErrors st)
                | None => AnomalyErrors st
                end in
  (* 2) Sorted set (for range queries) *)
  let score := float64_of_int64 (Anomaly.Timestamp a) in
  let '(r, err) :=
    redisclient.ZAdd env (go "anomalies:" ++ Anomaly.Ticker a) score (toJSON val) r in
  match err with
  | Some _ =>
      {| windows := windows st; emitted := emitted st ++ [a];
         AnomalyErrors := S errors; AnomalyCounter := AnomalyCounter st;
         rdb := c; redis := r |}
  | None =>
      {| windows := windows st; emitted := emitted st ++ [a];
         AnomalyErrors := errors; AnomalyCounter := S (AnomalyCounter st);
         rdb := c; redis := r |}
  end.

(** One payload of quotes:pubsub, as the loop handles it ([None]: the JSON
    did not decode).  A result of [None] is a panic. *)
Definition onMessage `{Runtime} (env : redisclient.Env)
    (toJSON : redisclient.entry -> gostring) (cfg : Config)
    (msg : option NormalizedTick.t) (st : State) : option State :=
  match msg with
  | None =>
      Some {| windows := windows st; emitted := emitted st;
              AnomalyErrors := S (AnomalyErrors st); AnomalyCounter := AnomalyCounter st;
              rdb := rdb st; redis := redis st |}
  | Some tick =>
      r ← onTick cfg (windows st) tick;
      let st := {| windows := fst r; emitted := emitted st;
                   AnomalyErrors := AnomalyErrors st;
                   AnomalyCounter := AnomalyCounter st;
                   rdb := rdb st; redis := redis st |} in
      match snd r with
      | Some event => Some (emitAnomaly env toJSON event st)
      | None => Some st
      end
  end.

(** The detector over the payloads it receives. *)
Fixpoint runAnomalyDetector `{Runtime} (env : redisclient.Env)
    (toJSON : redisclient.entry -> gostring) (cfg : Config)
    (msgs : list (option NormalizedTick.t)) (st : State) : option State :=
  match msgs with
  | [] => Some st
  | msg :: rest =>
      st' ← onMessage env toJSON cfg msg st; runAnomalyDetector env toJSON cfg rest st'
  end.

(** The detector at start: no window, a given client and store. *)
Definition start (c : redisclient.Client) (r : redisclient.Redis) : State :=
  {| windows := ∅; emitted := []; AnomalyErrors := 0; AnomalyCounter := 0;
     rdb := c; redis := r |}.

(** The prices received for a ticker, in order of arrival. *)
Fixpoint pricesOf (ticker : gostring) (msgs : list (option NormalizedTick.t)) : list float :=
  match msgs with
  | [] => []
  | Some tick :: rest =>
      if decide (NormalizedTick.Ticker tick = ticker)
      then NormalizedTick.Price tick :: pricesOf ticker rest
      else pricesOf ticker rest
  | None :: rest => pricesOf ticker rest
  end.

(** The payloads that decoded, and the number of those that did not. *)
Definition decoded (msgs : list (option NormalizedTick.t)) : list NormalizedTick.t :=
  omap id msgs.

Definition undecoded (msgs : list (option NormalizedTick.t)) : nat :=
  length (filter (fun m => m = None) msgs).

(** A pub/sub payload for ticker X. *)
Definition tickX (price : float) (ts : Z) : option NormalizedTick.t :=
  Some {| NormalizedTick.Ticker := go "X"; NormalizedTick.Price := price;
          NormalizedTick.Timestamp := ts; NormalizedTick.Sector := go "unknown" |}.

(** The worked examples run on a 64-bit machine with memory to spare,
    against a store that answers every request. *)
Definition exampleRuntime : Runtime := {| allocatable := 2 ^ 45 |}.

Definition exampleEnv : redisclient.Env :=
  {| redisclient.fails := fun _ => false; redisclient.applied := fun _ => false;
     redisclient.unixAt := fun _ => 1752150000 |}.

(** What a run of the detector from an empty map emitted, and its two
    counters. *)
Definition detect (cfg : Config) (msgs : list (option NormalizedTick.t))
    : option (list Anomaly.t * nat * nat) :=
  st ← runAnomalyDetector (H := exampleRuntime) exampleEnv (fun _ => []) cfg msgs
         (start redisclient.New redisclient.emptyRedis);
  Some (emitted st, AnomalyErrors st, AnomalyCounter st).

(** A window as the detector keeps it: created by [newWindow size], then
    only updated by [add]. *)
Definition window_ok (size : Z) (w : rollingWindow) : Prop :=
  Z.of_nat (length (buf w)) = size /\ (idx w < length (buf w))%nat.

Definition windows_ok (cfg : Config) (ws : windowMap) : Prop :=
  forall ticker w, ws !! ticker = Some w -> window_ok (AnomalyWindowSize cfg) w.

(** The window after the updates [xs], on a buffer of [W] slots: update
    number [i] (from 0) sits in slot [i mod W] as long as it is one of the
    last [W]. *)
Definition tracks (W : nat) (xs : list float) (w : rollingWindow) : Prop :=
  length (buf w) = W
  /\ idx w = (length xs mod W)%nat
  /\ full w = bool_decide (W <= length xs)%nat
  /\ forall i : nat, (length xs - W <= i < length xs)%nat -> buf w !! (i mod W)%nat = xs !! i.

(** Read as numbers, the running sums are those of the last [min k W]
    updates: every update is finite, [sum] stands for the sum of the last
    [min k W] of them and [sqsum] for the sum of their squares. *)
Definition sums (W : nat) (xs : list float) (w : rollingWindow) : Prop :=
  let recent := lastn (min (length xs) W) xs in
  Forall (fun x => is_Some (units x)) xs
  /\ units (sum w) = Some (zsum (value <$> recent))
  /\ exists q, units (sqsum w) = Some q
       /\ q * scale = zsum ((fun x => value x * value x) <$> recent).

End anomaly.

(** * Properties *)

(** ** The rolling window *)
Section RollingWindow.

Import anomaly.
#[local] Open Scope nat_scope.

Context {machine : Runtime}.

Lemma addAll_snoc (w : rollingWindow) xs x :
  addAll w (xs ++ [x]) = w' ← addAll w xs; add w' x.
Proof.
  revert w. induction xs as [|y xs IH]; intros w; simpl.
  - destruct (add w x); reflexivity.
  - destruct (add w y) as [w1|]; simpl; [apply IH | reflexivity].
Qed.

Lemma slot_inj W i k :
  0 < W -> i <= k -> k - i < W -> i mod W = k mod W -> i = k.
Proof.
  intros HW Hik Hd Hm.
  pose proof (Nat.div_mod_eq i W) as Hi.
  pose proof (Nat.div_mod_eq k W) as Hk.
  rewrite Hm in Hi.
  generalize dependent (k mod W). generalize dependent (i / W).
  generalize dependent (k / W). intros qk qi r _ Hi Hk.
  assert (qi = qk); [|subst; lia].
  destruct (Nat.lt_trichotomy qi qk) as [Hlt|[Heq|Hgt]]; [|assumption|]; nia.
Qed.

Lemma newWindow_served (size : Z) :
  (0 <= size <= allocatable)%Z ->
  newWindow size = Some {| buf := replicate (Z.to_nat size) 0%float; sum := 0%float;
                           sqsum := 0%float; idx := 0; full := false |}.
Proof.
  intros Hs. unfold newWindow.
  destruct (Z.ltb_spec size 0); [lia|].
  destruct (Z.ltb_spec allocatable size); [lia|]. reflexivity.
Qed.

Lemma newWindow_tracks (W : nat) :
  0 < W -> (Z.of_nat W <= allocatable)%Z ->
  exists w : rollingWindow, newWindow (Z.of_nat W) = Some w /\ tracks W [] w.
Proof.
  intros HW Hmax. rewrite newWindow_served by lia.
  eexists; split; [reflexivity|].
  unfold tracks; simpl. rewrite Nat2Z.id, length_replicate.
  repeat split.
  - symmetry. apply Nat.Div0.mod_0_l.
  - symmetry. apply bool_decide_eq_false. lia.
  - intros i Hi. lia.
Qed.

Lemma add_tracks W xs (w : rollingWindow) x :
  0 < W -> tracks W xs w ->
  exists w', add w x = Some w' /\ tracks W (xs ++ [x]) w'.
Proof.
  intros HW (Hlen & Hidx & Hfull & Hbuf).
  assert (Hlt : idx w < length (buf w)).
  { rewrite Hidx, Hlen. apply Nat.mod_upper_bound. lia. }
  destruct (lookup_lt_is_Some_2 (buf w) (idx w) Hlt) as [old Hold].
  unfold add. rewrite Hold. eexists; split; [reflexivity|].
  unfold tracks; simpl. rewrite length_insert, length_app, Hlen. simpl.
  assert (Hnext : (idx w + 1) mod W = (length xs + 1) mod W).
  { rewrite Hidx. apply Nat.Div0.add_mod_idemp_l. }
  repeat split.
  - exact Hnext.
  - rewrite Hnext. destruct (Nat.eqb_spec ((length xs + 1) mod W) 0) as [H0|H0].
    + symmetry. apply bool_decide_eq_true.
      destruct (Nat.le_gt_cases W (length xs + 1)) as [?|Hsmall]; [assumption|].
      rewrite Nat.mod_small in H0 by assumption. lia.
    + rewrite Hfull. apply bool_decide_ext.
      split; [lia|]. intros Hle.
      destruct (Nat.eq_dec W (length xs + 1)) as [->|]; [|lia].
      rewrite Nat.Div0.mod_same in H0. congruence.
  - intros i Hi.
    destruct (Nat.eq_dec i (length xs)) as [->|Hne].
    + rewrite <- Hidx, list_lookup_insert_eq by assumption.
      rewrite lookup_app_r by lia. rewrite Nat.sub_diag. reflexivity.
    + assert (Hi' : length xs - W <= i < length xs) by (clear -Hi Hne; lia).
      assert (Hd : length xs - i < W) by (clear -Hi HW; lia).
      rewrite list_lookup_insert_ne.
      * rewrite lookup_app_l by apply Hi'. apply Hbuf, Hi'.
      * rewrite Hidx. intros Heq. apply Hne.
        apply (slot_inj W); [assumption | apply Nat.lt_le_incl, Hi' | assumption | congruence].
Qed.

Lemma windowAfter_tracks (W : nat) xs :
  0 < W -> (Z.of_nat W <= allocatable)%Z ->
  exists w : rollingWindow, windowAfter (Z.of_nat W) xs = Some w /\ tracks W xs w.
Proof.
  intros HW Hmax. unfold windowAfter.
  destruct (newWindow_tracks W HW Hmax) as (w0 & Hw0 & Ht0). rewrite Hw0. simpl.
  induction xs as [|x xs IH] using rev_ind.
  - exists w0. split; [reflexivity | assumption].
  - destruct IH as (w & Hw & Ht).
    destruct (add_tracks W xs w x HW Ht) as (w' & Hadd & Ht').
    exists w'. split; [|assumption].
    rewrite addAll_snoc, Hw. exact Hadd.
Qed.

Lemma windowAfter_snoc (size : Z) (xs : list float) x :
  windowAfter size (xs ++ [x]) = w ← windowAfter size xs; add w x.
Proof.
  unfold windowAfter. destruct (newWindow size) as [w0|]; [|reflexivity].
  simpl. apply addAll_snoc.
Qed.

Lemma tracks_count W xs (w : rollingWindow) :
  0 < W -> tracks W xs w -> count w = min (length xs) W.
Proof.
  intros HW (Hlen & Hidx & Hfull & _). unfold count. rewrite Hfull.
  case_bool_decide.
  - rewrite Hlen. lia.
  - rewrite Hidx, Nat.mod_small by lia. lia.
Qed.

(** The slot that the next update overwrites holds the oldest update of a
    full window. *)
Lemma tracks_oldest W xs (w : rollingWindow) :
  0 < W -> tracks W xs w -> W <= length xs ->
  buf w !! idx w = xs !! (length xs - W) /\ is_Some (xs !! (length xs - W)).
Proof.
  intros HW (Hlen & Hidx & Hfull & Hbuf) Hle. split.
  - rewrite <- Hbuf by lia. rewrite Hidx. f_equal.
    replace (length xs) with ((length xs - W) + 1 * W) at 1 by lia.
    apply Nat.Div0.mod_add.
  - apply lookup_lt_is_Some_2. lia.
Qed.

(** One update, in float64: the evicted value leaves the sums and the
    new one enters. *)
Lemma add_recurrence W xs (w w' : rollingWindow) x :
  0 < W -> tracks W xs w -> add w x = Some w' ->
  (W <= length xs ->
     exists old, xs !! (length xs - W) = Some old
       /\ sum w' = (sum w - old + x)%float
       /\ sqsum w' = (sqsum w - old * old + x * x)%float)
  /\ (length xs < W ->
      sum w' = (sum w + x)%float /\ sqsum w' = (sqsum w + x * x)%float).
Proof.
  intros HW Ht Hadd. pose proof Ht as (Hlen & Hidx & Hfull & Hbuf).
  unfold add in Hadd.
  destruct (buf w !! idx w) as [old|] eqn:Hold; [|discriminate].
  injection Hadd as <-. cbn [sum sqsum]. rewrite Hfull. split.
  - intros Hle. rewrite bool_decide_eq_true_2 by exact Hle.
    destruct (tracks_oldest W xs w HW Ht Hle) as [Heq _].
    exists old. split; [congruence|]. split; reflexivity.
  - intros Hlt. rewrite bool_decide_eq_false_2 by lia. split; reflexivity.
Qed.

(** *** The sums as numbers *)

#[local] Open Scope Z_scope.

Lemma exactAdd_spec a b :
  exactAdd a b = true ->
  exists ua ub, units a = Some ua /\ units b = Some ub
    /\ units (a + b)%float = Some (ua + ub).
Proof.
  unfold exactAdd.
  destruct (units a) as [ua|]; [|discriminate].
  destruct (units b) as [ub|]; [|discriminate].
  destruct (units (a + b)%float) as [uc|]; [|discriminate].
  intros Heq. apply Z.eqb_eq in Heq. subst uc. eauto.
Qed.

Lemma exactSub_spec a b :
  exactSub a b = true ->
  exists ua ub, units a = Some ua /\ units b = Some ub
    /\ units (a - b)%float = Some (ua - ub).
Proof.
  unfold exactSub.
  destruct (units a) as [ua|]; [|discriminate].
  destruct (units b) as [ub|]; [|discriminate].
  destruct (units (a - b)%float) as [uc|]; [|discriminate].
  intros Heq. apply Z.eqb_eq in Heq. subst uc. eauto.
Qed.

Lemma exactMul_spec a b :
  exactMul a b = true ->
  exists ua ub uc, units a = Some ua /\ units b = Some ub
    /\ units (a * b)%float = Some uc /\ uc * scale = ua * ub.
Proof.
  unfold exactMul.
  destruct (units a) as [ua|]; [|discriminate].
  destruct (units b) as [ub|]; [|discriminate].
  destruct (units (a * b)%float) as [uc|]; [|discriminate].
  intros Heq. apply Z.eqb_eq in Heq. eauto 10.
Qed.

Lemma zsum_app l1 l2 : zsum (l1 ++ l2) = zsum l1 + zsum l2.
Proof. unfold zsum. induction l1 as [|a l1 IH]; simpl; [reflexivity | lia]. Qed.

Lemma unroundedAll_snoc (w : rollingWindow) xs x :
  unroundedAll w (xs ++ [x]) = true ->
  unroundedAll w xs = true
  /\ exists w', addAll w xs = Some w' /\ unrounded w' x = true.
Proof.
  revert w. induction xs as [|y xs IH]; intros w; cbn [app unroundedAll addAll].
  - intros Hu. apply andb_prop in Hu as [Hu _]. split; [reflexivity|]. eauto.
  - intros Hu. apply andb_prop in Hu as [Hy Hrest].
    destruct (add w y) as [w1|]; [|discriminate]. cbn [mbind option_bind].
    destruct (IH w1 Hrest) as (Hxs & w' & Hw' & Hx).
    rewrite Hy, Hxs. split; [reflexivity|]. eauto.
Qed.

Lemma add_sums W xs (w w' : rollingWindow) x :
  (0 < W)%nat -> tracks W xs w -> sums W xs w -> unrounded w x = true ->
  add w x = Some w' -> sums W (xs ++ [x]) w'.
Proof.
  intros HW Ht (Hfin & Hsum & q & Hq & Hsq) Hu Hadd.
  pose proof Ht as (Hlen & Hidx & Hfull & Hbuf).
  unfold add in Hadd. unfold unrounded in Hu.
  destruct (buf w !! idx w) as [old|] eqn:Hold; [|discriminate].
  injection Hadd as <-. cbv zeta in Hu.
  apply andb_prop in Hu as [Hu Hsqx]. apply andb_prop in Hu as [Hu Hmulx].
  apply andb_prop in Hu as [Hevict Hsumx].
  destruct (exactMul_spec _ _ Hmulx) as (ux & ux' & uxx & Hux & Hux' & Huxx & Hxx).
  assert (ux' = ux) by congruence. subst ux'.
  assert (Hvx : value x = ux) by (unfold value; rewrite Hux; reflexivity).
  unfold sums, lastn in *. cbv zeta in *. cbn [sum sqsum].
  rewrite length_app. cbn [length].
  split; [apply Forall_app; split; [exact Hfin | repeat constructor; eauto]|].
  rewrite Hfull in *. case_bool_decide as Hle.
  - (* the window is full: the oldest value leaves *)
    destruct (tracks_oldest W xs w HW Ht Hle) as [Hx _].
    rewrite Hold in Hx. symmetry in Hx.
    replace (length xs - min (length xs) W)%nat with (length xs - W)%nat in * by lia.
    replace (length xs + 1 - min (length xs + 1) W)%nat with (S (length xs - W)) by lia.
    rewrite drop_app_le by lia.
    rewrite (drop_S _ _ _ Hx) in Hsum, Hsq.
    rewrite !fmap_cons in Hsum, Hsq. rewrite !fmap_app, !zsum_app.
    unfold zsum at 1 in Hsum. unfold zsum at 1 in Hsq. cbn [foldr] in Hsum, Hsq.
    fold (zsum (value <$> drop (S (length xs - W)) xs)) in Hsum.
    fold (zsum ((fun x => value x * value x) <$> drop (S (length xs - W)) xs)) in Hsq.
    apply andb_prop in Hevict as [Hevict Hsqo]. apply andb_prop in Hevict as [Hsumo Hmulo].
    destruct (exactSub_spec _ _ Hsumo) as (us & uo & Hus & Huo & Hs1).
    destruct (exactMul_spec _ _ Hmulo) as (uo1 & uo2 & uoo & Huo1 & Huo2 & Huoo & Hoo).
    assert (uo1 = uo) by congruence. assert (uo2 = uo) by congruence. subst uo1 uo2.
    destruct (exactSub_spec _ _ Hsqo) as (uq & uoo' & Huq & Huoo' & Hq1).
    assert (uoo' = uoo) by congruence. subst uoo'.
    assert (uq = q) by congruence. subst uq.
    destruct (exactAdd_spec _ _ Hsumx) as (us1 & ux' & Hus1 & Hux'' & Hs2).
    assert (ux' = ux) by congruence. subst ux'.
    destruct (exactAdd_spec _ _ Hsqx) as (uq1 & uxx' & Huq1 & Huxx' & Hq2).
    assert (uxx' = uxx) by congruence. subst uxx'.
    assert (Hvo : value old = uo) by (unfold value; rewrite Huo; reflexivity).
    rewrite Hvo in Hsum, Hsq.
    split.
    + rewrite Hs2. f_equal. cbn [fmap list_fmap zsum foldr]. rewrite Hvx.
      assert (us1 = us - uo) by congruence.
      assert (us = uo + zsum (value <$> drop (S (length xs - W)) xs)) by congruence.
      lia.
    + eexists. split; [exact Hq2|].
      cbn [fmap list_fmap zsum foldr]. rewrite Hvx.
      assert (Huq1' : uq1 = q - uoo) by congruence.
      rewrite Huq1'. clear - Hsq Hoo Hxx.
      rewrite Z.mul_add_distr_r, Z.mul_sub_distr_r, Hsq, Hoo, Hxx. lia.
  - replace (length xs - min (length xs) W)%nat with 0%nat in * by lia.
    replace (length xs + 1 - min (length xs + 1) W)%nat with 0%nat by lia.
    rewrite !drop_0 in *. rewrite !fmap_app, !zsum_app.
    destruct (exactAdd_spec _ _ Hsumx) as (us1 & ux' & Hus1 & Hux'' & Hs2).
    assert (ux' = ux) by congruence. subst ux'.
    destruct (exactAdd_spec _ _ Hsqx) as (uq1 & uxx' & Huq1 & Huxx' & Hq2).
    assert (uxx' = uxx) by congruence. subst uxx'.
    split.
    + rewrite Hs2. f_equal. cbn [fmap list_fmap zsum foldr]. rewrite Hvx.
      assert (us1 = zsum (value <$> xs)) by congruence. lia.
    + eexists. split; [exact Hq2|].
      cbn [fmap list_fmap zsum foldr]. rewrite Hvx.
      assert (Huq1' : uq1 = q) by congruence.
      rewrite Huq1'. clear - Hsq Hxx.
      rewrite Z.mul_add_distr_r, Hsq, Hxx. lia.
Qed.

Lemma windowAfter_sums (W : nat) xs (w : rollingWindow) :
  (0 < W)%nat -> Z.of_nat W <= allocatable ->
  unroundedRun (Z.of_nat W) xs = true ->
  windowAfter (Z.of_nat W) xs = Some w -> sums W xs w.
Proof.
  intros HW Hmax. unfold unroundedRun, windowAfter.
  rewrite newWindow_served by lia. cbn [mbind option_bind].
  set (w0 := {| buf := replicate (Z.to_nat (Z.of_nat W)) 0%float; sum := 0%float;
                sqsum := 0%float; idx := 0%nat; full := false |}).
  assert (Ht0 : forall ys wy, addAll w0 ys = Some wy -> tracks W ys wy).
  { intros ys wy Hwy.
    destruct (windowAfter_tracks W ys HW Hmax) as (w1 & Hw1 & Ht1).
    unfold windowAfter in Hw1. rewrite newWindow_served in Hw1 by lia.
    cbn [mbind option_bind] in Hw1. fold w0 in Hw1. congruence. }
  revert w. induction xs as [|x xs IH] using rev_ind; intros w Hu Hw.
  - cbn in Hw. injection Hw as <-. unfold sums, lastn. cbn.
    split; [constructor|]. split; [reflexivity|]. exists 0. split; reflexivity.
  - apply unroundedAll_snoc in Hu as (Hu & w1 & Hw1 & Hx).
    rewrite addAll_snoc, Hw1 in Hw. cbn [mbind option_bind] in Hw.
    apply (add_sums W xs w1 w x HW (Ht0 xs w1 Hw1) (IH w1 Hu Hw1) Hx Hw).
Qed.

End RollingWindow.

Section RollingWindowClaims.

Import anomaly.
#[local] Open Scope nat_scope.

(** C2, as the code has it.  On a window of capacity [W > 0] (that the
    machine allocates), after the updates [xs] (k of them) applied by
    [add]: the count [stats] divides by is min(k, W), [full] holds exactly
    from the W-th update on, and the ring buffer holds each of the last
    min(k, W) values, update i in slot i mod W.  The next update adds its
    value to [sum] and its square to [sqsum], in float64, after
    subtracting the value and the square of update k - W + 1 when the
    window is full.  When none of these float64 operations rounds, [sum]
    is the sum of the last min(k, W) values and [sqsum] the sum of their
    squares, as numbers. *)
Theorem rolling_window_after_updates `{Runtime} (W : nat) (xs : list float) :
  0 < W -> (Z.of_nat W <= allocatable)%Z ->
  exists w : rollingWindow,
    windowAfter (Z.of_nat W) xs = Some w
    /\ count w = min (length xs) W
    /\ full w = bool_decide (W <= length xs)
    /\ (forall i, length xs - W <= i < length xs -> buf w !! (i mod W) = xs !! i)
    /\ (forall x, exists w',
          windowAfter (Z.of_nat W) (xs ++ [x]) = Some w'
          /\ (W <= length xs ->
              exists old, xs !! (length xs - W) = Some old
                /\ sum w' = (sum w - old + x)%float
                /\ sqsum w' = (sqsum w - old * old + x * x)%float)
          /\ (length xs < W ->
              sum w' = (sum w + x)%float /\ sqsum w' = (sqsum w + x * x)%float))
    /\ (unroundedRun (Z.of_nat W) xs = true ->
        let recent := lastn (min (length xs) W) xs in
        Forall (fun x => is_Some (units x)) xs
        /\ units (sum w) = Some (zsum (value <$> recent))
        /\ exists q, units (sqsum w) = Some q
             /\ (q * scale = zsum ((fun x => value x * value x) <$> recent))%Z).
Proof.
  intros HW Hmax.
  destruct (windowAfter_tracks W xs HW Hmax) as (w & Hw & Ht).
  exists w. split; [exact Hw|].
  split; [apply (tracks_count W xs w HW Ht)|].
  pose proof Ht as (Hlen & Hidx & Hfull & Hbuf).
  split; [exact Hfull|]. split; [exact Hbuf|]. split.
  - intros x. destruct (add_tracks W xs w x HW Ht) as (w' & Hadd & _).
    exists w'. split; [rewrite windowAfter_snoc, Hw; exact Hadd|].
    exact (add_recurrence W xs w w' x HW Ht Hadd).
  - intros Hu. exact (windowAfter_sums W xs w HW Hmax Hu Hw).
Qed.

Lemma rolling_window_after_updates_witness :
  let xs := [100; 101; 102; 103; 104; 105; 106; 107; 108; 109; 110;
             111; 112; 113; 114; 115; 116; 117; 118; 119; 120]%float in
  exists w : rollingWindow,
    windowAfter (H := exampleRuntime) 20 xs = Some w
    /\ count w = 20 /\ full w = true
    /\ buf w !! 0 = Some 120%float
    /\ units (sum w) = Some (2210 * scale)%Z
    /\ exists q, units (sqsum w) = Some q /\ (q * scale = 244870 * scale * scale)%Z.
Proof.
  intros xs.
  destruct (rolling_window_after_updates (H := exampleRuntime) 20 xs)
    as (w & Hw & Hc & Hf & Hb & _ & Hs); [lia | cbn; lia |].
  destruct (Hs ltac:(vm_compute; reflexivity)) as (_ & Hsum & q & Hq & Hsq).
  exists w. split; [exact Hw|]. split; [exact Hc|].
  split; [rewrite Hf; reflexivity|].
  split; [exact (Hb 20 ltac:(cbn; lia))|].
  split; [rewrite Hsum; vm_compute; reflexivity|].
  exists q. split; [exact Hq|]. rewrite Hsq. vm_compute. reflexivity.
Defined.

(** C2 as stated fails on float64: with capacity 2 and the prices 0.1,
    0.2, 0.5 the running sum after the third update is
    0.7000000000000001.  The float64 sum of the last two values,
    0.2 + 0.5, is 0.7, and the sum of the two as numbers is no float64 at
    all. *)
Lemma rolling_window_float64_drift :
  exists w : rollingWindow,
    windowAfter (H := exampleRuntime) 2 [0.1; 0.2; 0.5]%float = Some w
    /\ sum w = 0.7000000000000001%float
    /\ (0.2 + 0.5 = 0.7)%float
    /\ (sum w =? 0.2 + 0.5)%float = false
    /\ units (sum w) <> Some (value 0.2 + value 0.5)%Z
    /\ unroundedRun (H := exampleRuntime) 2 [0.1; 0.2; 0.5]%float = false.
Proof.
  eexists. split; [vm_compute; reflexivity|].
  split; [vm_compute; reflexivity|]. split; [vm_compute; reflexivity|].
  split; [vm_compute; reflexivity|].
  split; [|vm_compute; reflexivity].
  intros Heq. vm_compute in Heq. discriminate Heq.
Qed.

(** The boundary of a window of 20: 19 updates leave it not full with
    n = 19; the 20th fills it; the 21st takes the value of update 1 out of
    [sum] and its square out of [sqsum]. *)
Lemma window_of_20 `{Runtime} (xs : list float) :
  (20 <= allocatable)%Z ->
  exists w : rollingWindow,
    windowAfter 20 xs = Some w
    /\ (length xs = 19 -> full w = false /\ count w = 19)
    /\ (length xs = 20 -> full w = true /\ count w = 20
        /\ forall x, exists w' x1 rest,
             xs = x1 :: rest
             /\ windowAfter 20 (xs ++ [x]) = Some w'
             /\ sum w' = (sum w - x1 + x)%float
             /\ sqsum w' = (sqsum w - x1 * x1 + x * x)%float).
Proof.
  intros Hmax. assert (HW : 0 < 20) by lia.
  destruct (windowAfter_tracks 20 xs HW Hmax) as (w & Hw & Ht).
  change (Z.of_nat 20) with 20%Z in Hw.
  pose proof (tracks_count 20 xs w HW Ht) as Hc.
  pose proof Ht as (_ & _ & Hfull & _).
  exists w. split; [exact Hw|]. split.
  - intros Hk. rewrite Hfull, Hc, Hk. split; reflexivity.
  - intros Hk. rewrite Hfull, Hc, Hk. split; [reflexivity|]. split; [reflexivity|].
    intros x. destruct (add_tracks 20 xs w x HW Ht) as (w' & Hadd & _).
    destruct (add_recurrence 20 xs w w' x HW Ht Hadd) as [Hev _].
    destruct Hev as (old & Hold & Hs & Hq); [lia|].
    rewrite Hk in Hold. destruct xs as [|x1 rest]; [discriminate|].
    cbn in Hold. injection Hold as ->.
    exists w', old, rest. split; [reflexivity|].
    split; [rewrite windowAfter_snoc, Hw; exact Hadd|]. split; assumption.
Qed.

End RollingWindowClaims.

(** ** The anomaly detector *)
Section Detector.

Import models anomaly.

Context {machine : Runtime}.

Lemma add_window_ok (size : Z) (w : rollingWindow) x :
  window_ok size w -> exists w', add w x = Some w' /\ window_ok size w'.
Proof.
  intros [Hlen Hidx]. unfold add.
  destruct (lookup_lt_is_Some_2 (buf w) (idx w) Hidx) as [old ->].
  eexists; split; [reflexivity|].
  unfold window_ok; simpl. rewrite length_insert. split; [assumption|].
  apply Nat.mod_upper_bound. lia.
Qed.

Lemma windowOf_ok cfg ws ticker :
  0 < AnomalyWindowSize cfg <= allocatable -> windows_ok cfg ws ->
  exists w, windowOf cfg ws ticker = Some w /\ window_ok (AnomalyWindowSize cfg) w.
Proof.
  intros Hpos Hok. unfold windowOf.
  destruct (ws !! ticker) as [w|] eqn:Hw.
  - exists w. split; [reflexivity | exact (Hok _ _ Hw)].
  - rewrite newWindow_served by lia.
    eexists; split; [reflexivity|].
    unfold window_ok; simpl. rewrite length_replicate. lia.
Qed.

Lemma windows_ok_insert cfg ws ticker w :
  windows_ok cfg ws -> window_ok (AnomalyWindowSize cfg) w ->
  windows_ok cfg (<[ticker := w]> ws).
Proof.
  intros Hok Hw t w' Hl.
  destruct (decide (ticker = t)) as [->|Hne].
  - rewrite lookup_insert_eq in Hl. injection Hl as <-. exact Hw.
  - rewrite lookup_insert_ne in Hl by exact Hne. exact (Hok _ _ Hl).
Qed.

(** With a window size that is positive and served by the machine the
    loop body does not panic, and keeps every window in shape. *)
Lemma onTick_total cfg ws tick :
  0 < AnomalyWindowSize cfg <= allocatable -> windows_ok cfg ws ->
  exists ws' out, onTick cfg ws tick = Some (ws', out) /\ windows_ok cfg ws'.
Proof.
  intros Hpos Hok. unfold onTick.
  destruct (windowOf_ok cfg ws (NormalizedTick.Ticker tick) Hpos Hok) as (w0 & -> & Hw0).
  simpl.
  destruct (add_window_ok _ w0 (NormalizedTick.Price tick) Hw0) as (w & -> & Hw).
  simpl. destruct (stats w) as [mean std].
  pose proof (windows_ok_insert cfg ws (NormalizedTick.Ticker tick) w Hok Hw).
  destruct (std =? 0)%float; [eauto|].
  destruct (AnomalyThreshold cfg <=? _)%float; eauto.
Qed.

Variable env : redisclient.Env.
Variable toJSON : redisclient.entry -> gostring.


End Detector.

Section DetectorClaims.

Import models anomaly.


(** The scenarios of the specification.  Window 20, threshold 3: after 19
    ticks at 100 a tick at 1000 is emitted with z = 4.3589 and counted.
    Window 5: the run 100 (five times), 200, 300, 1000 emits nothing.  An
    undecodable payload only counts an error.  A window size of 0 makes
    the first update panic. *)
Lemma detector_scenarios :
  detect defaultConfig (replicate 19 (tickX 100 1752148800000) ++ [tickX 1000 1752148801000])
  = Some ([ {| Anomaly.Ticker := go "X"; Anomaly.Price := 1000%float;
               Anomaly.ZScore := 4.358898943540674%float;
               Anomaly.Timestamp := 1752148801000 |} ], 0%nat, 1%nat)
  /\ detect {| AnomalyWindowSize := 5; AnomalyThreshold := 3 |}
       ((fun x => tickX x 1752148800000) <$> [100; 100; 100; 100; 100; 200; 300; 1000]%float)
     = Some ([], 0%nat, 0%nat)
  /\ detect defaultConfig [None; tickX 100 1752148800000] = Some ([], 1%nat, 0%nat)
  /\ detect {| AnomalyWindowSize := 0; AnomalyThreshold := 3 |} [tickX 100 1752148800000]
     = None.
Proof.
  split; [vm_compute; reflexivity|]. split; [vm_compute; reflexivity|].
  split; vm_compute; reflexivity.
Qed.

End DetectorClaims.

Section RedisClient.

Import redisclient.
#[local] Open Scope nat_scope.

Variable env : Env.
Variable name : gostring.
Variable values : entry.

Lemma addAttempt_requests c r :
  requests (snd (fst (addAttempt env name values (c, r)))) = S (requests r)
  /\ snd (addAttempt env name values (c, r))
     = (if fails env (requests r) then Some ErrStore else None).
Proof.
  unfold addAttempt, XAdd. destruct (fails env (requests r)); simpl; split; reflexivity.
Qed.

Lemma Retry_unfold {S : Type} (op : S -> S * option error) k s :
  Retry op k s =
  match op s with
  | (s', None) => (s', None)
  | (s', Some err) =>
      match k with
      | O => (s', Some err)
      | Datatypes.S k' => Retry op k' s'
      end
  end.
Proof. destruct k; reflexivity. Qed.

(** What a retried append did: it stopped at attempt number [j] (from 0),
    every attempt before failed, and a failure at [j] means the retries
    were used up. *)
Lemma Retry_addAttempt k c r :
  exists j, j <= k
    /\ requests (snd (fst (Retry (addAttempt env name values) k (c, r)))) = requests r + j + 1
    /\ (forall i, i < j -> fails env (requests r + i) = true)
    /\ snd (Retry (addAttempt env name values) k (c, r))
       = (if fails env (requests r + j) then Some ErrStore else None)
    /\ (fails env (requests r + j) = true -> j = k).
Proof.
  revert c r. induction k as [|k IH]; intros c r;
    rewrite Retry_unfold;
    destruct (addAttempt_requests c r) as [Hr He];
    destruct (addAttempt env name values (c, r)) as [[c1 r1] e1];
    simpl in Hr, He; subst e1;
    destruct (fails env (requests r)) eqn:Hf.
  - exists 0. rewrite !Nat.add_0_r, Hf. simpl. repeat split; try lia; reflexivity.
  - exists 0. rewrite !Nat.add_0_r, Hf. simpl. repeat split; try lia; reflexivity.
  - destruct (IH c1 r1) as (j & Hj & Hreq & Hbefore & Hres & Hlast).
    rewrite Hr in *. exists (S j).
    replace (requests r + S j) with (S (requests r) + j) by lia.
    repeat split.
    + lia.
    + rewrite Hreq. lia.
    + intros [|i] Hi; [rewrite Nat.add_0_r; exact Hf|].
      replace (requests r + S i) with (S (requests r) + i) by lia.
      apply Hbefore. lia.
    + exact Hres.
    + intros Hx. rewrite (Hlast Hx). reflexivity.
  - exists 0. rewrite !Nat.add_0_r, Hf. simpl.
    repeat split; first [lia | reflexivity | discriminate].
Qed.

(** C6, as the code has it.  One append sends at most 4 requests to the
    store: the first attempt and up to 3 retries.  With the breaker open
    it sends none.  Otherwise it retries after each failed attempt, stops
    at the first attempt that succeeds, and when the fourth attempt fails
    as well the store's error is returned to the caller. *)
Theorem AddToStream_attempts c r :
  let res := AddToStream env name values (c, r) in
  let sent := requests (snd (fst res)) - requests r in
  sent <= 4
  /\ (state c = open -> snd res = Some ErrCircuitBreakerOpen /\ sent = 0)
  /\ (state c <> open ->
      exists j, j <= 3 /\ sent = j + 1
        /\ (forall i, i < j -> fails env (requests r + i) = true)
        /\ (fails env (requests r + j) = false -> snd res = None)
        /\ (fails env (requests r + j) = true -> j = 3 /\ snd res = Some ErrStore)).
Proof.
  cbv zeta. unfold AddToStream, open. change (fst (c, r)) with c.
  destruct (Z.eqb_spec (state c) 1) as [Hopen|Hnot].
  - simpl. split; [lia|]. split; [intros _; split; [reflexivity | lia]|].
    intros Hc. contradiction.
  - destruct (Retry_addAttempt 3 c r) as (j & Hj & Hreq & Hbefore & Hres & Hlast).
    cbv iota. rewrite Hreq.
    split; [lia|]. split; [intros Hc; contradiction|].
    intros _. exists j. split; [exact Hj|]. split; [lia|].
    split; [exact Hbefore|]. rewrite Hres.
    split; intros Hf; rewrite Hf; [reflexivity|].
    split; [exact (Hlast Hf) | reflexivity].
Qed.

End RedisClient.

Section RedisClientClaims.

Import redisclient.

(** C6 as stated (at most 3 attempts) fails: against a store that keeps
    failing, one append on a fresh client sends 4 requests before the
    error comes back. *)
Lemma AddToStream_fourth_attempt :
  let env := {| fails := fun _ => true; applied := fun _ => false;
                unixAt := fun _ => 0 |} in
  let res := AddToStream env (go "raw:events") ∅ (New, emptyRedis) in
  requests (snd (fst res)) = 4%nat /\ snd res = Some ErrStore.
Proof. vm_compute. split; reflexivity. Qed.

(** C5, as the code has it.  A success reported while the breaker is open
    moves it to half-open.  In half-open a success resets the failure
    counter to 0 and the breaker stays half-open.  A failure in half-open
    adds one to the counter and records the time; as long as the counter
    stays below 5 the breaker stays half-open. *)
Theorem breaker_transitions (now : Z) (c : Client) :
  (state c = open -> state (checkCircuitBreaker now None c) = halfOpen)
  /\ (state c = halfOpen ->
      checkCircuitBreaker now None c
      = {| failureCount := 0; lastFailure := lastFailure c; state := halfOpen |})
  /\ (state c = halfOpen -> forall err,
      let c' := checkCircuitBreaker now (Some err) c in
      failureCount c' = wrap64 (failureCount c + 1)
      /\ lastFailure c' = now
      /\ (failureCount c' < 5 -> state c' = halfOpen)).
Proof.
  unfold open, halfOpen, checkCircuitBreaker, casState. simpl.
  split; [|split].
  - intros ->. reflexivity.
  - intros ->. reflexivity.
  - intros Hs err. simpl.
    destruct (Z.leb_spec 5 (wrap64 (failureCount c + 1))) as [Hge|Hlt]; simpl.
    + rewrite Hs. simpl. repeat split.
    + repeat split; intros; assumption.
Qed.

(** C5 as stated fails: a failure in half-open does not return the
    breaker to open. *)
Lemma half_open_failure_stays_half_open :
  let c := {| failureCount := 0; lastFailure := 0; state := halfOpen |} in
  let c' := checkCircuitBreaker 1752148800 (Some ErrStore) c in
  state c' = halfOpen /\ state c' <> open /\ failureCount c' = 1.
Proof. vm_compute. repeat split. discriminate. Qed.

(** The run behind C4.  A fresh client; the store fails every request
    except the sixth.  The first append uses up its four attempts.  The
    second append fails once, which opens the breaker, and succeeds on its
    retry, which half-opens it.  Five appends then fail one after the
    other, four attempts each; the breaker is still half-open, and the
    sixth append goes to the store four more times. *)
Lemma breaker_stuck_half_open :
  let env := {| fails := fun k => negb (k =? 5)%nat; applied := fun _ => false;
                unixAt := fun k => 1752148800 + Z.of_nat k |} in
  let stream := go "raw:events" in
  let '(s2, res2) := AddToStreamN env stream ∅ 2 (New, emptyRedis) in
  let '(s7, res7) := AddToStreamN env stream ∅ 5 s2 in
  let '(s8, res8) := AddToStream env stream ∅ s7 in
  res2 = [Some ErrStore; None]
  /\ state (fst s2) = halfOpen
  /\ res7 = replicate 5 (Some ErrStore)
  /\ state (fst s7) = halfOpen
  /\ failureCount (fst s7) = 20
  /\ res8 = Some ErrStore
  /\ requests (snd s8) = (requests (snd s7) + 4)%nat.
Proof. vm_compute. repeat split. Qed.

Lemma wrap64_small z : - 2^63 <= z < 2^63 -> wrap64 z = z.
Proof.
  intros Hz. unfold wrap64. rewrite Z.mod_small by lia. lia.
Qed.

Lemma checkCircuitBreaker_failure now e c :
  state c = closed \/ state c = open -> 0 <= failureCount c < 2^62 ->
  let c' := checkCircuitBreaker now (Some e) c in
  failureCount c' = failureCount c + 1
  /\ (state c' = closed \/ state c' = open)
  /\ (state c = open \/ 5 <= failureCount c + 1 -> state c' = open)
  /\ (state c = closed -> failureCount c + 1 < 5 -> state c' = closed).
Proof.
  unfold closed, open. intros Hs Hc. cbv zeta. unfold checkCircuitBreaker, casState.
  cbn [failureCount state]. rewrite wrap64_small by lia.
  destruct (Z.leb_spec 5 (failureCount c + 1)) as [Hge|Hlt];
    [destruct (Z.eqb_spec (state c) 0) as [H0|H0]|]; cbn [failureCount state];
    repeat split; lia.
Qed.

Lemma afterFailures_closed nows c :
  state c = closed \/ state c = open -> 0 <= failureCount c < 2^62 - Z.of_nat (length nows) ->
  let c' := afterFailures nows c in
  failureCount c' = failureCount c + Z.of_nat (length nows)
  /\ (state c' = closed \/ state c' = open)
  /\ (state c = open \/ (nows <> [] /\ 5 <= failureCount c + Z.of_nat (length nows))
      -> state c' = open).
Proof.
  revert c. induction nows as [|now nows IH]; intros c Hs Hc; cbv zeta.
  - simpl. split; [lia|]. split; [exact Hs|]. intros [Ho|[Hn _]]; [exact Ho | congruence].
  - change (afterFailures (now :: nows) c)
      with (afterFailures nows (checkCircuitBreaker now (Some ErrStore) c)).
    rewrite length_cons, Nat2Z.inj_succ in *.
    pose proof (checkCircuitBreaker_failure now ErrStore c Hs) as Hstep.
    cbv zeta in Hstep. destruct Hstep as (Hc1 & Hs1 & Hopen1 & _); [lia|].
    pose proof (IH (checkCircuitBreaker now (Some ErrStore) c) Hs1) as Hrest.
    cbv zeta in Hrest. destruct Hrest as (Hc2 & Hs2 & Hopen2); [lia|].
    split; [lia|]. split; [exact Hs2|].
    intros Hcase. apply Hopen2.
    destruct nows as [|now' nows].
    + left. apply Hopen1. simpl in Hcase.
      destruct Hcase as [?|[_ ?]]; [left; assumption | right; lia].
    + destruct Hcase as [Ho|[_ Hge]]; [left; apply Hopen1; left; exact Ho|].
      right. split; [discriminate|]. lia.
Qed.

Lemma Retry_failed env name values k :
  forall c r s e,
  Retry (addAttempt env name values) k (c, r) = (s, Some e) ->
  fst s = afterFailures (unixAt env <$> seq (requests r) (S k)) c.
Proof.
  induction k as [|k IH]; intros c r s e; rewrite Retry_unfold;
    unfold addAttempt at 1, XAdd; destruct (fails env (requests r));
    cbn beta iota zeta; intros Heq.
  - apply (f_equal fst) in Heq. cbn [fst] in Heq. rewrite <- Heq. reflexivity.
  - discriminate Heq.
  - rewrite (IH _ _ _ _ Heq). reflexivity.
  - discriminate Heq.
Qed.

(** A failed append on a breaker that is not open made four failed
    attempts, each reported to the breaker. *)
Lemma AddToStream_failed env name values c r s e :
  state c <> open -> AddToStream env name values (c, r) = (s, Some e) ->
  fst s = afterFailures (unixAt env <$> seq (requests r) 4) c.
Proof.
  unfold open, AddToStream. change (fst (c, r)) with c.
  intros Hs. destruct (Z.eqb_spec (state c) 1) as [|_]; [contradiction|].
  apply Retry_failed.
Qed.

(** One failed append, from closed or open. *)
Lemma failed_append_step env name values c r s e :
  state c = closed \/ state c = open -> 0 <= failureCount c < 2^62 - 4 ->
  AddToStream env name values (c, r) = (s, Some e) ->
  (state (fst s) = closed \/ state (fst s) = open)
  /\ failureCount c <= failureCount (fst s) <= failureCount c + 4
  /\ (state c = open \/ 1 <= failureCount c -> state (fst s) = open)
  /\ (state (fst s) = open \/ 4 <= failureCount (fst s)).
Proof.
  intros Hs Hc Happ.
  destruct (Z.eq_dec (state c) open) as [Ho|Hno].
  - unfold AddToStream in Happ. change (fst (c, r)) with c in Happ.
    rewrite Ho in Happ. simpl in Happ. injection Happ as <- _. simpl.
    split; [right; exact Ho|]. split; [lia|]. split; [intros _; exact Ho|].
    left; exact Ho.
  - rewrite (AddToStream_failed env name values c r s e Hno Happ).
    pose proof (afterFailures_closed (unixAt env <$> seq (requests r) 4) c Hs) as Hrun.
    cbv zeta in Hrun. simpl length in Hrun.
    destruct Hrun as (Hc' & Hs' & Hopen'); [lia|].
    split; [exact Hs'|]. split; [lia|]. split; [|right; lia].
    intros [Ho|Hge]; [contradiction|]. apply Hopen'. right.
    split; [discriminate | lia].
Qed.

Lemma failed_appends_run env name values k :
  forall c r s res,
  state c = closed \/ state c = open ->
  0 <= failureCount c < 2^62 - 4 * Z.of_nat k ->
  AddToStreamN env name values k (c, r) = (s, res) ->
  Forall (fun e => e <> None) res ->
  (state (fst s) = closed \/ state (fst s) = open)
  /\ failureCount c <= failureCount (fst s) <= failureCount c + 4 * Z.of_nat k
  /\ ((state c = open \/ 1 <= failureCount c) -> (1 <= k)%nat -> state (fst s) = open)
  /\ ((2 <= k)%nat -> state (fst s) = open).
Proof.
  induction k as [|k IH]; intros c r s res Hs Hc Hrun Hres.
  - simpl in Hrun. injection Hrun as <- <-. simpl.
    split; [exact Hs|]. split; [lia|]. split; intros; lia.
  - cbn [AddToStreamN] in Hrun.
    destruct (AddToStream env name values (c, r)) as [[c1 r1] e1] eqn:H1.
    destruct (AddToStreamN env name values k (c1, r1)) as [s2 es] eqn:H2.
    injection Hrun as <- <-.
    apply Forall_cons in Hres as [He1 Hes].
    destruct e1 as [e1|]; [|congruence].
    rewrite Nat2Z.inj_succ in *.
    destruct (failed_append_step env name values c r (c1, r1) e1 Hs) as (Hs1 & Hc1 & Ho1 & Hp1);
      [lia | exact H1 |]. simpl fst in *.
    destruct (IH c1 r1 s2 es Hs1) as (Hs2 & Hc2 & Ho2 & Ht2); [lia | exact H2 | exact Hes |].
    split; [exact Hs2|]. split; [lia|].
    assert (Hk : k = 0%nat -> s2 = (c1, r1)).
    { intros ->. simpl in H2. congruence. }
    split.
    + intros Hc0 _. destruct k as [|k].
      * rewrite (Hk eq_refl). simpl. apply Ho1, Hc0.
      * apply Ho2; [left; apply Ho1, Hc0 | lia].
    + intros Hk2. apply Ho2; [|lia].
      destruct Hp1 as [?|?]; [left; assumption | right; lia].
Qed.

(** From a closed (or open) breaker the behaviour C4 describes holds:
    after 5 appends in a row that all fail the breaker is open, and the
    sixth append is answered with the circuit-open error and sends nothing
    to the store. *)
Lemma breaker_open_after_five_failed_appends env name values c r s res :
  state c = closed \/ state c = open -> 0 <= failureCount c < 2^61 ->
  AddToStreamN env name values 5 (c, r) = (s, res) ->
  Forall (fun e => e <> None) res ->
  state (fst s) = open
  /\ AddToStream env name values s = (s, Some ErrCircuitBreakerOpen).
Proof.
  intros Hs Hc Hrun Hres.
  destruct (failed_appends_run env name values 5 c r s res Hs) as (_ & _ & _ & Ho);
    [lia | exact Hrun | exact Hres |].
  assert (Hopen : state (fst s) = open) by (apply Ho; lia).
  split; [exact Hopen|]. unfold AddToStream. rewrite Hopen. reflexivity.
Qed.

End RedisClientClaims.


(** ** Order facts on binary64, from the specification of the primitives *)
Section FloatOrder.

Lemma SFcompare_antisym x y :
  SFcompare y x = option_map CompOpp (SFcompare x y).
Proof.
  destruct x as [sx|sx| |sx mx ex], y as [sy|sy| |sy my ey]; simpl;
    try (destruct sx); try (destruct sy); try reflexivity;
    rewrite (Z.compare_antisym ex ey); destruct (ex ?= ey)%Z; simpl; try reflexivity;
    pose proof (Pos.compare_cont_antisym mx my Eq) as Ha; simpl in Ha;
    rewrite <- Ha; destruct (Pos.compare_cont Eq mx my); reflexivity.
Qed.

Lemma float_leb_ltb a b : (a <=? b)%float = true -> (b <? a)%float = false.
Proof.
  rewrite leb_spec, ltb_spec. unfold SFleb, SFltb.
  rewrite (SFcompare_antisym (Prim2SF a) (Prim2SF b)).
  destruct (SFcompare (Prim2SF a) (Prim2SF b)) as [[| |]|]; simpl; congruence.
Qed.

Lemma float_ltb_leb a b : (a <? b)%float = true -> (b <=? a)%float = false.
Proof.
  rewrite leb_spec, ltb_spec. unfold SFleb, SFltb.
  rewrite (SFcompare_antisym (Prim2SF a) (Prim2SF b)).
  destruct (SFcompare (Prim2SF a) (Prim2SF b)) as [[| |]|]; simpl; congruence.
Qed.

Lemma float_ltb_leb_incl a b : (a <? b)%float = true -> (a <=? b)%float = true.
Proof.
  rewrite leb_spec, ltb_spec. unfold SFleb, SFltb.
  destruct (SFcompare (Prim2SF a) (Prim2SF b)) as [[| |]|]; simpl; congruence.
Qed.

(** Nothing is both at most 0 and at least a million. *)
Lemma float_nonpositive_below_million p :
  (p <=? 0)%float = true -> (1000000 <=? p)%float = false.
Proof.
  rewrite !leb_spec.
  set (z := Prim2SF 0). vm_compute in z. subst z.
  set (c := Prim2SF 1000000). vm_compute in c. subst c.
  destruct (Prim2SF p) as [s|s| |s m e]; try (destruct s); simpl;
    first [reflexivity | discriminate].
Qed.

End FloatOrder.

(** ** Parsing a raw tick *)
Section RawTickParsing.

Import validation models.

Context `{Library}.

(** What an accepted message looked like, field by field. *)
Lemma RawTickFromMap_inv now m rt :
  RawTickFromMap now m = Ok rt ->
  (exists s, m !! go "source" = Some (VString s) /\ RawTick.Source rt = SanitizeString s)
  /\ (exists s, m !! go "symbol" = Some (VString s) /\ RawTick.Symbol rt = SanitizeString s)
  /\ ((exists v, m !! go "price" = Some (VFloat64 v)
         /\ ((v <=? 0) || (1000000 <=? v))%float = false
         /\ RawTick.Price rt = SanitizePrice v)
      \/ (exists v p, m !! go "price" = Some (VString v) /\ ParseFloat v = Some p
         /\ RawTick.Price rt = SanitizePrice p))
  /\ (exists v, m !! go "timestamp" = Some (VString v)
      /\ (ParseRFC3339Nano v = Some (RawTick.Timestamp rt)
          \/ (ParseRFC3339Nano v = None /\ exists ms, strconv.ParseInt v = Some ms
              /\ RawTick.Timestamp rt = time.UnixMilli (SanitizeTimestamp now ms))))
  /\ RawTick.ValidateStruct rt = [].
Proof.
  unfold RawTickFromMap, rawTickSchema. cbn [ValidateMap].
  destruct (m !! go "source") as [[src| | |]|] eqn:Hsrc; cbn [validateFieldType]; try discriminate.
  destruct (m !! go "symbol") as [[sym| | |]|] eqn:Hsym; cbn [validateFieldType]; try discriminate.
  destruct (m !! go "price") as [[pv|pf| |]|] eqn:Hprice; try discriminate.
  - (* the price is a string *)
    destruct (ParseFloat pv) as [p|] eqn:Hp; [|discriminate].
    destruct (m !! go "timestamp") as [[tv| | |]|] eqn:Hts; try discriminate.
    destruct (ParseRFC3339Nano tv) as [ts|] eqn:Hrfc;
      [|destruct (strconv.ParseInt tv) as [ms|] eqn:Hms; [|discriminate]];
      unfold RawTick.Validate;
      (destruct (RawTick.ValidateStruct _) as [|err errs] eqn:Hval; [|discriminate]);
      intros Hrt; injection Hrt as <-; cbn [RawTick.Source RawTick.Symbol RawTick.Price RawTick.Timestamp];
      (split; [eauto|]); (split; [eauto|]); (split; [right; eauto|]);
      (split; [|exact Hval]); exists tv; (split; [reflexivity|]); eauto.
  - (* the price is a float64 *)
    rewrite bool_decide_eq_true_2 by reflexivity. rewrite andb_true_l.
    destruct ((pf <=? 0)%float || (1000000 <=? pf)%float) eqn:Hrange; [discriminate|].
    destruct (m !! go "timestamp") as [[tv| | |]|] eqn:Hts; try discriminate.
    destruct (ParseRFC3339Nano tv) as [ts|] eqn:Hrfc;
      [|destruct (strconv.ParseInt tv) as [ms|] eqn:Hms; [|discriminate]];
      unfold RawTick.Validate;
      (destruct (RawTick.ValidateStruct _) as [|err errs] eqn:Hval; [|discriminate]);
      intros Hrt; injection Hrt as <-; cbn [RawTick.Source RawTick.Symbol RawTick.Price RawTick.Timestamp];
      (split; [eauto|]); (split; [eauto|]); (split; [left; eauto|]);
      (split; [|exact Hval]); exists tv; (split; [reflexivity|]); eauto.
Qed.

(** A RawTick that passes [Validate] passed every tag. *)
Lemma ValidateStruct_nil rt :
  RawTick.ValidateStruct rt = [] ->
  requiredString (RawTick.Source rt) = true /\ validateSource (RawTick.Source rt) = true
  /\ requiredString (RawTick.Symbol rt) = true /\ validateTicker (RawTick.Symbol rt) = true
  /\ requiredFloat (RawTick.Price rt) = true /\ validatePrice (RawTick.Price rt) = true
  /\ requiredTime (RawTick.Timestamp rt) = true.
Proof.
  unfold RawTick.ValidateStruct.
  destruct (requiredString (RawTick.Source rt)); [|discriminate].
  destruct (validateSource (RawTick.Source rt)); [|discriminate].
  destruct (requiredString (RawTick.Symbol rt)); [|discriminate].
  destruct (validateTicker (RawTick.Symbol rt)); [|discriminate].
  destruct (requiredFloat (RawTick.Price rt)); [|discriminate].
  destruct (validatePrice (RawTick.Price rt)); [|discriminate].
  destruct (requiredTime (RawTick.Timestamp rt)); [|discriminate].
  intros _. repeat split.
Qed.

(** A field of the wrong type makes the schema check fail. *)
Lemma ValidateMap_error now m schema field ty v err :
  (field, ty) ∈ schema -> m !! field = Some v ->
  validateFieldType now field v ty = Some err ->
  ValidateMap now m schema <> [].
Proof.
  intros Hin Hm Hv. induction schema as [|[f t] schema IH]; [inversion Hin|].
  cbn [ValidateMap]. apply elem_of_cons in Hin as [Heq|Hin].
  - injection Heq as <- <-. rewrite Hm, Hv. discriminate.
  - destruct (m !! f) as [v'|]; [|discriminate].
    destruct (validateFieldType now f v' t); [discriminate|]. apply IH, Hin.
Qed.

(** C7, as the code has it.  An accepted RawTick has a price strictly
    between 0 and 1,000,000.  The price in the message is a float64 or a
    string that parses to one; let p be that number.  A p of 1,000,000 or
    more is never accepted.  A float64 p that is zero or negative is never
    accepted; a string p that is zero or negative is clamped to 0.01; any
    other p (also one below 0.01) is stored as it is. *)
Theorem RawTickFromMap_price now m rt :
  RawTickFromMap now m = Ok rt ->
  (0 <? RawTick.Price rt)%float = true
  /\ (RawTick.Price rt <? 1000000)%float = true
  /\ exists p : float,
      ((m !! go "price" = Some (VFloat64 p) /\ (p <=? 0)%float = false)
       \/ (exists v, m !! go "price" = Some (VString v) /\ ParseFloat v = Some p))
      /\ (1000000 <=? p)%float = false
      /\ RawTick.Price rt = (if (p <=? 0)%float then 0.01%float else p).
Proof.
  intros Hok.
  destruct (RawTickFromMap_inv now m rt Hok) as (_ & _ & Hprice & _ & Hval).
  destruct (ValidateStruct_nil rt Hval) as (_ & _ & _ & _ & _ & Hvp & _).
  unfold validatePrice in Hvp. apply andb_prop in Hvp as [Hpos Hlt].
  split; [exact Hpos|]. split; [exact Hlt|].
  destruct Hprice as [(v & Hm & Hrange & Hp)|(v & p & Hm & Hparse & Hp)].
  - exists v. apply orb_false_elim in Hrange as [Hle Hge].
    split; [left; split; assumption|]. split; [exact Hge|].
    rewrite Hp, Hle. unfold SanitizePrice. rewrite Hle.
    destruct (1000000 <? v)%float eqn:Hbig; [|reflexivity].
    apply float_ltb_leb_incl in Hbig. congruence.
  - exists p. split; [right; exists v; split; assumption|].
    unfold SanitizePrice in Hp.
    destruct (p <=? 0)%float eqn:Hle.
    + split; [apply float_nonpositive_below_million, Hle | exact Hp].
    + destruct (1000000 <? p)%float eqn:Hbig.
      * rewrite Hp in Hlt. vm_compute in Hlt. discriminate.
      * split; [|exact Hp]. rewrite Hp in Hlt. apply float_ltb_leb, Hlt.
Qed.

Lemma SanitizeTimestamp_outOfDay now ms :
  SanitizeTimestamp now ms = if outOfDay now ms then time.toUnixMilli now else ms.
Proof.
  unfold SanitizeTimestamp, outOfDay.
  destruct (time.After (time.UnixMilli ms) now); [reflexivity|].
  destruct (time.Before (time.UnixMilli ms) (time.Add now (- (24 * time.Hour)))); reflexivity.
Qed.

(** The sanitized value is within the day that ends at [now]. *)
Lemma SanitizeTimestamp_range now ms :
  let t := time.UnixMilli (SanitizeTimestamp now ms) in
  time.After t now = false
  /\ time.Before t (time.Add now (- (24 * time.Hour))) = false.
Proof.
  cbv zeta. rewrite SanitizeTimestamp_outOfDay.
  destruct (outOfDay now ms) eqn:Hout.
  - unfold time.After, time.Before, time.Add, time.UnixMilli, time.toUnixMilli,
      time.Hour, time.Millisecond. cbn [time.unixNano].
    pose proof (Z.mul_div_le (time.unixNano now) 1000000 eq_refl) as Hle.
    pose proof (Z.mod_pos_bound (time.unixNano now) 1000000 eq_refl) as Hmod.
    pose proof (Z.div_mod (time.unixNano now) 1000000 ltac:(discriminate)) as Hdm.
    split; apply Z.ltb_ge; lia.
  - unfold outOfDay in Hout. apply orb_false_elim in Hout. exact Hout.
Qed.

(** C8, as the code has it.  An accepted RawTick took its timestamp from a
    string.  When the string is RFC3339 the parsed time is stored as it is,
    whatever its distance to the current time.  When it is a decimal number
    of milliseconds, a value in the future or more than 24 hours in the past
    is replaced by the current time (to the millisecond), so the stored time
    is neither after the current time nor more than 24 hours before it. *)
Theorem RawTickFromMap_timestamp_range now m rt :
  RawTickFromMap now m = Ok rt ->
  exists s, m !! go "timestamp" = Some (VString s)
    /\ (ParseRFC3339Nano s = Some (RawTick.Timestamp rt)
        \/ exists ms, ParseRFC3339Nano s = None /\ strconv.ParseInt s = Some ms
           /\ RawTick.Timestamp rt
              = time.UnixMilli (if outOfDay now ms then time.toUnixMilli now else ms)
           /\ time.After (RawTick.Timestamp rt) now = false
           /\ time.Before (RawTick.Timestamp rt) (time.Add now (- (24 * time.Hour))) = false).
Proof.
  intros Hok.
  destruct (RawTickFromMap_inv now m rt Hok) as (_ & _ & _ & (s & Hm & Hts) & _).
  exists s. split; [exact Hm|].
  destruct Hts as [Hrfc|(Hrfc & ms & Hms & Hts)]; [left; exact Hrfc|].
  right. exists ms. split; [exact Hrfc|]. split; [exact Hms|].
  rewrite Hts. split; [rewrite SanitizeTimestamp_outOfDay; reflexivity|].
  apply SanitizeTimestamp_range.
Qed.

(** C10, as the code has it.  The schema check wants the timestamp to be a
    string: a float64 (or any other non-string) timestamp is rejected with
    the schema's errors.  An accepted timestamp is an RFC3339 string, taken
    as parsed, or a decimal string of milliseconds since the epoch, passed
    through the timestamp sanitizer. *)
Theorem RawTickFromMap_timestamp_shapes now m :
  (forall v, m !! go "timestamp" = Some v -> (forall s, v <> VString s) ->
     exists errs, RawTickFromMap now m = Err (SchemaErrors errs) /\ errs <> [])
  /\ (forall rt, RawTickFromMap now m = Ok rt ->
      exists s, m !! go "timestamp" = Some (VString s)
        /\ (ParseRFC3339Nano s = Some (RawTick.Timestamp rt)
            \/ (ParseRFC3339Nano s = None /\ exists ms, strconv.ParseInt s = Some ms
                /\ RawTick.Timestamp rt = time.UnixMilli (SanitizeTimestamp now ms)))).
Proof.
  split.
  - intros v Hm Hv.
    assert (Hne : ValidateMap now m rawTickSchema <> []).
    { apply (ValidateMap_error now m rawTickSchema (go "timestamp") TString v
               {| Field := go "timestamp"; Message := MustBeString |}).
      - unfold rawTickSchema. do 3 apply list_elem_of_further. apply list_elem_of_here.
      - exact Hm.
      - destruct v; try reflexivity. exfalso. exact (Hv s eq_refl). }
    unfold RawTickFromMap.
    destruct (ValidateMap now m rawTickSchema) as [|err errs]; [congruence|].
    exists (err :: errs). split; [reflexivity | discriminate].
  - intros rt Hok.
    destruct (RawTickFromMap_inv now m rt Hok) as (_ & _ & _ & Hts & _). exact Hts.
Qed.

End RawTickParsing.

Section RawTickClaims.

Import validation models.

Lemma RawTickFromMap_price_witness :
  let m := exampleMessage (VString (go "-5")) (VString (go "2025-07-10T12:00:00Z")) in
  let rt := {| RawTick.Source := go "feedA"; RawTick.Symbol := go "BTCUSD";
               RawTick.Price := 0.01%float; RawTick.Timestamp := instant 1752148800 |} in
  RawTickFromMap (H := exampleLibrary) exampleNow m = Ok rt
  /\ (0 <? RawTick.Price rt)%float = true
  /\ (RawTick.Price rt <? 1000000)%float = true
  /\ exists p : float,
      ((m !! go "price" = Some (VFloat64 p) /\ (p <=? 0)%float = false)
       \/ (exists v, m !! go "price" = Some (VString v)
                     /\ ParseFloat (Library := exampleLibrary) v = Some p))
      /\ (1000000 <=? p)%float = false
      /\ RawTick.Price rt = (if (p <=? 0)%float then 0.01%float else p).
Proof.
  intros m rt.
  assert (Hok : RawTickFromMap (H := exampleLibrary) exampleNow m = Ok rt)
    by (vm_compute; reflexivity).
  split; [exact Hok|].
  exact (RawTickFromMap_price (H := exampleLibrary) exampleNow m rt Hok).
Defined.

(** C7 as stated fails: the price 0.001 is accepted and stored as it is,
    below the 0.01 of the stated range. *)
Lemma RawTickFromMap_price_below_cent :
  exists rt,
    RawTickFromMap (H := exampleLibrary) exampleNow
      (exampleMessage (VString (go "0.001")) (VString (go "2025-07-10T12:00:00Z"))) = Ok rt
    /\ RawTick.Price rt = 0.001%float
    /\ (RawTick.Price rt <? 0.01)%float = true.
Proof. eexists. repeat split; vm_compute; reflexivity. Qed.

Lemma RawTickFromMap_timestamp_range_witness :
  let m := exampleMessage (VString (go "123.45")) (VString (go "946684800000")) in
  let rt := {| RawTick.Source := go "feedA"; RawTick.Symbol := go "BTCUSD";
               RawTick.Price := 123.45%float;
               RawTick.Timestamp := time.UnixMilli 1752150000000 |} in
  RawTickFromMap (H := exampleLibrary) exampleNow m = Ok rt
  /\ exists s, m !! go "timestamp" = Some (VString s)
    /\ (ParseRFC3339Nano (Library := exampleLibrary) s = Some (RawTick.Timestamp rt)
        \/ exists ms, ParseRFC3339Nano (Library := exampleLibrary) s = None
           /\ strconv.ParseInt s = Some ms
           /\ RawTick.Timestamp rt
              = time.UnixMilli (if outOfDay exampleNow ms
                                then time.toUnixMilli exampleNow else ms)
           /\ time.After (RawTick.Timestamp rt) exampleNow = false
           /\ time.Before (RawTick.Timestamp rt)
                 (time.Add exampleNow (- (24 * time.Hour))) = false).
Proof.
  intros m rt.
  assert (Hok : RawTickFromMap (H := exampleLibrary) exampleNow m = Ok rt)
    by (vm_compute; reflexivity).
  split; [exact Hok|].
  exact (RawTickFromMap_timestamp_range (H := exampleLibrary) exampleNow m rt Hok).
Defined.

(** C8 as stated fails: RFC3339 timestamps from the year 2000 and from the
    year 2099 are accepted as they are, the first more than 24 hours before
    the current time and the second after it. *)
Lemma RawTickFromMap_keeps_rfc3339_out_of_range :
  (exists rt,
     RawTickFromMap (H := exampleLibrary) exampleNow
       (exampleMessage (VString (go "123.45")) (VString (go "2000-01-01T00:00:00Z"))) = Ok rt
     /\ RawTick.Timestamp rt = instant 946684800
     /\ time.Before (RawTick.Timestamp rt) (time.Add exampleNow (- (24 * time.Hour))) = true)
  /\ (exists rt,
     RawTickFromMap (H := exampleLibrary) exampleNow
       (exampleMessage (VString (go "123.45")) (VString (go "2099-01-01T00:00:00Z"))) = Ok rt
     /\ RawTick.Timestamp rt = instant 4070908800
     /\ time.After (RawTick.Timestamp rt) exampleNow = true).
Proof. split; eexists; repeat split; vm_compute; reflexivity. Qed.

(** C10 as stated fails: a float64 timestamp is not accepted. *)
Lemma RawTickFromMap_rejects_float64_timestamp :
  RawTickFromMap (H := exampleLibrary) exampleNow
    (exampleMessage (VString (go "123.45")) (VFloat64 1752148800000))
  = Err (SchemaErrors [ {| Field := go "timestamp"; Message := MustBeString |} ]).
Proof. vm_compute. reflexivity. Qed.

(** The two accepted shapes, on examples: RFC3339 as parsed, milliseconds
    in range as given. *)
Lemma RawTickFromMap_accepts_strings :
  RawTickFromMap (H := exampleLibrary) exampleNow
    (exampleMessage (VString (go "30000.00")) (VString (go "2025-07-10T12:00:00Z")))
  = Ok {| RawTick.Source := go "feedA"; RawTick.Symbol := go "BTCUSD";
          RawTick.Price := 30000%float; RawTick.Timestamp := instant 1752148800 |}
  /\ RawTickFromMap (H := exampleLibrary) exampleNow
    (exampleMessage (VString (go "30000.00")) (VString (go "1752148800000")))
  = Ok {| RawTick.Source := go "feedA"; RawTick.Symbol := go "BTCUSD";
          RawTick.Price := 30000%float;
          RawTick.Timestamp := time.UnixMilli 1752148800000 |}.
Proof. split; vm_compute; reflexivity. Qed.

End RawTickClaims.


(** ** The normalizer *)
Section Normalizer.

Import validation models normalize.

Context `{Library}.
Variable symbols sectors : gmap gostring gostring.
Variable env : redisclient.Env.

(** A message whose symbol is not in the table only counts an error. *)
Lemma normalizeOne_unknown_symbol now msg st s :
  Values msg !! go "symbol" = Some (VString s) ->
  symbols !! SanitizeString s = None ->
  normalizeOne symbols sectors env now msg st = incErrors st.
Proof.
  intros Hsym Hnone. unfold normalizeOne.
  destruct (RawTickFromMap now (Values msg)) as [raw|e] eqn:Hparse; [|reflexivity].
  destruct (RawTickFromMap_inv now (Values msg) raw Hparse) as (_ & (s' & Hs' & Hraw) & _).
  rewrite Hsym in Hs'. injection Hs' as <-.
  rewrite Hraw, Hnone. reflexivity.
Qed.

(** C9.  For a raw:events message whose symbol (as the parser reads it:
    control characters removed, surrounding white space trimmed) is absent
    from the symbol table: the store is not touched, so normalized:events
    gets no entry; normalize_errors goes up by exactly one; the count of
    normalized events stays; and the cursor is the message's identifier.
    This holds whether the message was admitted to a worker or dropped
    because the pool was full. *)
Theorem unknown_symbol_skipped now slotFree msg st s :
  Values msg !! go "symbol" = Some (VString s) ->
  symbols !! SanitizeString s = None ->
  let st' := handleMessage symbols sectors env now slotFree msg st in
  redis st' = redis st
  /\ redisclient.stream (go "normalized:events") (redis st')
     = redisclient.stream (go "normalized:events") (redis st)
  /\ NormalizeErrors st' = S (NormalizeErrors st)
  /\ NormalizeCounter st' = NormalizeCounter st
  /\ lastID st' = ID msg.
Proof.
  intros Hsym Hnone. cbv zeta. unfold handleMessage.
  destruct slotFree.
  - rewrite (normalizeOne_unknown_symbol now msg _ s Hsym Hnone).
    repeat split.
  - repeat split.
Qed.

End Normalizer.

Section NormalizerClaims.

Import validation models normalize.

Lemma unknown_symbol_skipped_witness :
  let msg := {| ID := go "1752148800000-0";
                Values := {[ go "source" := VString (go "feedA");
                             go "symbol" := VString (go "ZZZ");
                             go "price" := VString (go "30000.00");
                             go "timestamp" := VString (go "2025-07-10T12:00:00Z") ]} |} in
  let env := {| redisclient.fails := fun _ => false; redisclient.applied := fun _ => false;
                redisclient.unixAt := fun _ => 1752150000 |} in
  let st' := handleMessage (H := exampleLibrary) symbolMap sectorMap env exampleNow true msg
               initialState in
  redis st' = redis initialState
  /\ redisclient.stream (go "normalized:events") (redis st')
     = redisclient.stream (go "normalized:events") (redis initialState)
  /\ NormalizeErrors st' = 1%nat
  /\ NormalizeCounter st' = 0%nat
  /\ lastID st' = go "1752148800000-0".
Proof.
  intros msg env.
  apply (unknown_symbol_skipped (H := exampleLibrary) symbolMap sectorMap env exampleNow
           true msg initialState (go "ZZZ")); vm_compute; reflexivity.
Defined.

(** The happy path of the specification: the BTCUSD tick of
    2025-07-10T12:00:00Z becomes one entry of normalized:events. *)
Lemma known_symbol_normalized :
  let msg := {| ID := go "1752148800000-0";
                Values := exampleMessage (VString (go "30000.00"))
                            (VString (go "2025-07-10T12:00:00Z")) |} in
  let env := {| redisclient.fails := fun _ => false; redisclient.applied := fun _ => false;
                redisclient.unixAt := fun _ => 1752150000 |} in
  let st' := handleMessage (H := exampleLibrary) symbolMap sectorMap env exampleNow true msg
               initialState in
  redisclient.stream (go "normalized:events") (redis st')
  = [ {[ go "ticker" := VString (go "BTCUSD");
         go "price" := VString (go "30000.00000000");
         go "ts_ms" := VInt64 1752148800000;
         go "sector" := VString (go "crypto") ]} ]
  /\ NormalizeErrors st' = 0%nat /\ NormalizeCounter st' = 1%nat
  /\ lastID st' = go "1752148800000-0".
Proof. vm_compute. repeat split. Qed.

(** The symbol is looked up as parsed: a symbol field padded with blanks
    is found in the table under its trimmed form. *)
Lemma padded_symbol_normalized :
  let msg := {| ID := go "1752148800000-1";
                Values := {[ go "source" := VString (go "feedA");
                             go "symbol" := VString (go " BTCUSD ");
                             go "price" := VString (go "30000.00");
                             go "timestamp" := VString (go "2025-07-10T12:00:00Z") ]} |} in
  let env := {| redisclient.fails := fun _ => false; redisclient.applied := fun _ => false;
                redisclient.unixAt := fun _ => 1752150000 |} in
  let st' := handleMessage (H := exampleLibrary) symbolMap sectorMap env exampleNow true msg
               initialState in
  symbolMap !! go " BTCUSD " = None
  /\ NormalizeErrors st' = 0%nat /\ NormalizeCounter st' = 1%nat.
Proof. vm_compute. repeat split. Qed.

End NormalizerClaims.

(** ** The latest-state publisher *)
Section CachePub.

Import models cachepub.

Lemma hashKey_inj t1 t2 : hashKey t1 = hashKey t2 -> t1 = t2.
Proof. unfold hashKey. apply app_inv_head. Qed.

(** C1, as the code has it.  The publisher is last-writer-wins: when the
    pipeline of [publishTick] succeeds, the record of the tick's ticker holds
    the tick's price and ts_ms whatever was stored before, the records of
    the other tickers are untouched, and the tick is published.  So the
    stored ts_ms is at or above the one stored before exactly when the
    tick is not older than what was stored. *)
Theorem publishTick_last_writer_wins tick st :
  let st' := fst (publishTick ExecOk tick st) in
  snd (publishTick ExecOk tick st) = None
  /\ latest st' !! hashKey (NormalizedTick.Ticker tick)
     = Some {| price := NormalizedTick.Price tick; ts_ms := NormalizedTick.Timestamp tick |}
  /\ stored_ts (NormalizedTick.Ticker tick) st' = Some (NormalizedTick.Timestamp tick)
  /\ (forall t, t <> NormalizedTick.Ticker tick -> latest st' !! hashKey t = latest st !! hashKey t)
  /\ pubsub st' = pubsub st ++ [tick]
  /\ (forall old, stored_ts (NormalizedTick.Ticker tick) st = Some old ->
      forall new, stored_ts (NormalizedTick.Ticker tick) st' = Some new ->
      (old <= new <-> old <= NormalizedTick.Timestamp tick)).
Proof.
  cbv zeta. unfold publishTick, Publish, HSet, stored_ts. cbn [fst snd latest pubsub].
  rewrite lookup_insert_eq. cbn [fmap option_fmap option_map ts_ms].
  split; [reflexivity|]. split; [reflexivity|]. split; [reflexivity|].
  split; [|split; [reflexivity|]].
  - intros t Ht. apply lookup_insert_ne. intros Heq. apply Ht. symmetry.
    apply hashKey_inj, Heq.
  - intros old _ new Hnew. injection Hnew as <-. reflexivity.
Qed.

(** C1 as stated fails: with ts_ms 200 stored for a ticker, a tick of the
    same ticker with ts_ms 100 is written over it. *)
Lemma publishTick_overwrites_newer :
  let st := {| latest := {[ hashKey (go "BTCUSD") := {| price := 30000%float; ts_ms := 200 |} ]};
               pubsub := [] |} in
  let tick := {| NormalizedTick.Ticker := go "BTCUSD"; NormalizedTick.Price := 29000%float;
                 NormalizedTick.Timestamp := 100; NormalizedTick.Sector := go "crypto" |} in
  stored_ts (go "BTCUSD") st = Some 200
  /\ stored_ts (go "BTCUSD") (fst (publishTick ExecOk tick st)) = Some 100
  /\ stored_ts (go "BTCUSD") (publishAll [(ExecOk, tick)] st) = Some 100.
Proof. vm_compute. repeat split. Qed.

End CachePub.


(** * Further properties of the code *)

(** ** More order facts on binary64 *)
Section FloatTotalOrder.

Lemma SFcompare_None x y :
  SFcompare x y = None -> x = S754_nan \/ y = S754_nan.
Proof.
  destruct x as [sx|sx| |sx mx ex], y as [sy|sy| |sy my ey]; simpl;
    intros Hc; try discriminate; auto.
Qed.

Lemma SFcompare_refl x : x <> S754_nan -> SFcompare x x = Some Eq.
Proof.
  destruct x as [s|s| |s m e]; simpl; intros Hx;
    try (destruct s); try reflexivity; try congruence;
    rewrite Z.compare_refl, Pos.compare_cont_refl; reflexivity.
Qed.

(** [x == x] holds exactly when x is a number. *)
Lemma float_number x : (x =? x)%float = true <-> Prim2SF x <> S754_nan.
Proof.
  rewrite FloatAxioms.eqb_spec. unfold SFeqb. split.
  - intros Heq Hnan. rewrite Hnan in Heq. discriminate.
  - intros Hx. rewrite (SFcompare_refl _ Hx). reflexivity.
Qed.

Lemma float_not_number x : (x =? x)%float = false -> Prim2SF x = S754_nan.
Proof.
  intros Hx. destruct (Prim2SF x) eqn:Hs; try reflexivity;
    exfalso; assert (Hn : (x =? x)%float = true)
      by (apply float_number; rewrite Hs; discriminate); congruence.
Qed.

Lemma float_nan_leb_l x y : (x =? x)%float = false -> (x <=? y)%float = false.
Proof. intros Hx. rewrite leb_spec, (float_not_number x Hx). reflexivity. Qed.

Lemma float_nan_ltb_l x y : (x =? x)%float = false -> (x <? y)%float = false.
Proof. intros Hx. rewrite ltb_spec, (float_not_number x Hx). reflexivity. Qed.

Lemma float_nan_ltb_r x y : (y =? y)%float = false -> (x <? y)%float = false.
Proof.
  intros Hy. rewrite ltb_spec, (float_not_number y Hy).
  unfold SFltb. destruct (Prim2SF x); reflexivity.
Qed.

Lemma float_nan_leb_r x y : (y =? y)%float = false -> (x <=? y)%float = false.
Proof.
  intros Hy. rewrite leb_spec, (float_not_number y Hy).
  unfold SFleb. destruct (Prim2SF x); reflexivity.
Qed.

(** On numbers the order is total. *)
Lemma float_not_leb a b :
  (a =? a)%float = true -> (b =? b)%float = true ->
  (a <=? b)%float = false -> (b <? a)%float = true.
Proof.
  intros Ha Hb. apply float_number in Ha. apply float_number in Hb.
  rewrite leb_spec, ltb_spec. unfold SFleb, SFltb.
  rewrite (SFcompare_antisym (Prim2SF a) (Prim2SF b)).
  destruct (SFcompare (Prim2SF a) (Prim2SF b)) as [[| |]|] eqn:Hc; simpl;
    try congruence.
  destruct (SFcompare_None _ _ Hc); contradiction.
Qed.

Lemma float_not_ltb a b :
  (a =? a)%float = true -> (b =? b)%float = true ->
  (a <? b)%float = false -> (b <=? a)%float = true.
Proof.
  intros Ha Hb. apply float_number in Ha. apply float_number in Hb.
  rewrite leb_spec, ltb_spec. unfold SFleb, SFltb.
  rewrite (SFcompare_antisym (Prim2SF a) (Prim2SF b)).
  destruct (SFcompare (Prim2SF a) (Prim2SF b)) as [[| |]|] eqn:Hc; simpl;
    try congruence.
  destruct (SFcompare_None _ _ Hc); contradiction.
Qed.

Lemma float_ltb_asym a b : (a <? b)%float = true -> (b <? a)%float = false.
Proof.
  rewrite !ltb_spec. unfold SFltb.
  rewrite (SFcompare_antisym (Prim2SF a) (Prim2SF b)).
  destruct (SFcompare (Prim2SF a) (Prim2SF b)) as [[| |]|]; simpl; congruence.
Qed.

Lemma float_ltb_number_l a b : (a <? b)%float = true -> (a =? a)%float = true.
Proof.
  intros Hlt. destruct (a =? a)%float eqn:Ha; [reflexivity|].
  rewrite (float_nan_ltb_l a b Ha) in Hlt. discriminate.
Qed.

End FloatTotalOrder.

(** ** Sanitizers and validators *)
Section Sanitizers.

Import validation.

Lemma SanitizePrice_nan p : (p =? p)%float = false -> SanitizePrice p = p.
Proof.
  intros Hp. unfold SanitizePrice.
  rewrite (float_nan_leb_l p 0 Hp), (float_nan_ltb_r 1000000 p Hp). reflexivity.
Qed.

(** X1.  The sanitized price of a number is positive and at most 1,000,000; a
    value that is not a number passes through unchanged. *)
Theorem SanitizePrice_range p :
  ((p =? p)%float = true ->
     (0 <? SanitizePrice p)%float = true /\ (SanitizePrice p <=? 1000000)%float = true)
  /\ ((p =? p)%float = false -> SanitizePrice p = p).
Proof.
  split; [|apply SanitizePrice_nan].
  intros Hp. unfold SanitizePrice.
  destruct (p <=? 0)%float eqn:Hle; [split; vm_compute; reflexivity|].
  destruct (1000000 <? p)%float eqn:Hbig; [split; vm_compute; reflexivity|].
  split.
  - apply float_not_leb; [exact Hp | reflexivity | exact Hle].
  - apply float_not_ltb; [reflexivity | exact Hp | exact Hbig].
Qed.

Theorem SanitizePrice_idempotent p : SanitizePrice (SanitizePrice p) = SanitizePrice p.
Proof.
  unfold SanitizePrice.
  destruct (p <=? 0)%float eqn:Hle; [vm_compute; reflexivity|].
  destruct (1000000 <? p)%float eqn:Hbig; [vm_compute; reflexivity|].
  rewrite Hle, Hbig. reflexivity.
Qed.

(** X2.  Sanitizing does not make every price valid: the sanitized price passes
    [validatePrice] exactly when the input is a number below 1,000,000. *)
Theorem validatePrice_SanitizePrice p :
  validatePrice (SanitizePrice p) = true
  <-> (p =? p)%float = true /\ (1000000 <=? p)%float = false.
Proof.
  unfold validatePrice, SanitizePrice. split.
  - intros Hv. apply andb_prop in Hv as [Hpos Hlt].
    destruct (p <=? 0)%float eqn:Hle.
    + split; [|apply float_nonpositive_below_million, Hle].
      destruct (p =? p)%float eqn:Hp; [reflexivity|].
      rewrite (float_nan_leb_l p 0 Hp) in Hle. discriminate.
    + destruct (1000000 <? p)%float eqn:Hbig; [vm_compute in Hlt; discriminate|].
      split; [|apply float_ltb_leb, Hlt].
      exact (float_ltb_number_l p 1000000 Hlt).
  - intros [Hp Hsmall].
    destruct (p <=? 0)%float eqn:Hle; [vm_compute; reflexivity|].
    destruct (1000000 <? p)%float eqn:Hbig.
    + apply float_ltb_leb_incl in Hbig. congruence.
    + apply andb_true_intro. split.
      * apply float_not_leb; [exact Hp | reflexivity | exact Hle].
      * apply float_not_leb; [reflexivity | exact Hp | exact Hsmall].
Qed.

(** *** SanitizeString *)

Lemma dropSpace_length s : (length (dropSpace s) <= length s)%nat.
Proof.
  induction s as [|r s IH]; simpl; [lia|].
  destruct (isSpace r); simpl; lia.
Qed.

Lemma dropSpace_head s r t : dropSpace s = r :: t -> isSpace r = false.
Proof.
  induction s as [|r' s IH]; simpl; [discriminate|].
  destruct (isSpace r') eqn:Hr'; [exact IH|].
  intros Heq. injection Heq as <- _. exact Hr'.
Qed.

Lemma dropSpace_idempotent s : dropSpace (dropSpace s) = dropSpace s.
Proof.
  destruct (dropSpace s) as [|r t] eqn:Hd; [reflexivity|].
  simpl. rewrite (dropSpace_head s r t Hd). reflexivity.
Qed.

(** A non-empty prefix of a list that [dropSpace] leaves alone is left
    alone as well. *)
Lemma dropSpace_prefix a b : a <> [] -> dropSpace (a ++ b) = a ++ b -> dropSpace a = a.
Proof.
  destruct a as [|r a]; [congruence|]. intros _. simpl.
  destruct (isSpace r); [|reflexivity].
  intros Heq. pose proof (dropSpace_length (a ++ b)) as Hlen.
  rewrite Heq in Hlen. simpl in Hlen. lia.
Qed.

Lemma dropSpace_suffix s : exists p, s = p ++ dropSpace s.
Proof.
  induction s as [|r s [p Hp]]; simpl; [exists []; reflexivity|].
  destruct (isSpace r).
  - exists (r :: p). simpl. f_equal. exact Hp.
  - exists []. reflexivity.
Qed.

Lemma TrimSpace_trimmed_id s : trimmed s -> TrimSpace s = s.
Proof.
  intros [Hl Hr]. unfold TrimSpace. rewrite Hl, Hr. apply reverse_involutive.
Qed.

Lemma TrimSpace_trimmed s : trimmed (TrimSpace s).
Proof.
  unfold trimmed, TrimSpace. split.
  - set (y := dropSpace s).
    destruct (dropSpace_suffix (reverse y)) as [p Hp].
    destruct (dropSpace (reverse y)) as [|r u] eqn:Hu; [reflexivity|].
    apply (dropSpace_prefix _ (reverse p)); [intros Hnil; apply (f_equal length) in Hnil;
      rewrite length_reverse in Hnil; discriminate|].
    rewrite <- reverse_app, <- Hp, reverse_involutive. apply dropSpace_idempotent.
  - rewrite reverse_involutive. apply dropSpace_idempotent.
Qed.

Lemma filter_all {A} (P : A -> Prop) `{forall x, Decision (P x)} (l : list A) :
  Forall P l -> filter P l = l.
Proof.
  induction 1 as [|x l Hx Hl IH]; [reflexivity|].
  rewrite filter_cons_True by exact Hx. f_equal. exact IH.
Qed.

Lemma dropSpace_Forall (P : Z -> Prop) s : Forall P s -> Forall P (dropSpace s).
Proof.
  induction 1 as [|r s Hr Hs IH]; simpl; [constructor|].
  destruct (isSpace r); [exact IH | constructor; assumption].
Qed.

Lemma TrimSpace_Forall (P : Z -> Prop) s : Forall P s -> Forall P (TrimSpace s).
Proof.
  intros Hs. unfold TrimSpace.
  apply Forall_reverse, dropSpace_Forall, Forall_reverse, dropSpace_Forall, Hs.
Qed.

Lemma SanitizeString_kept s :
  Forall (fun r => keepRune r = true) (SanitizeString s)
  /\ trimmed (SanitizeString s).
Proof.
  unfold SanitizeString. split; [|apply TrimSpace_trimmed].
  apply TrimSpace_Forall. apply Forall_forall. intros r Hr.
  apply list_elem_of_filter in Hr. apply Hr.
Qed.

Lemma keepRune_spec r :
  keepRune r = true <-> 32 <= r \/ r = 9 \/ r = 10 \/ r = 13.
Proof.
  unfold keepRune.
  rewrite negb_true_iff, !andb_false_iff, !negb_false_iff, Z.ltb_ge, !Z.eqb_eq. tauto.
Qed.

Lemma dropSpace_split s :
  exists p, s = p ++ dropSpace s /\ Forall (fun r => isSpace r = true) p.
Proof.
  induction s as [|r s (p & Hp & Hall)]; simpl; [exists []; split; [reflexivity | constructor]|].
  destruct (isSpace r) eqn:Hr.
  - exists (r :: p). split; [simpl; f_equal; exact Hp | constructor; assumption].
  - exists []. split; [reflexivity | constructor].
Qed.

Lemma TrimSpace_split s :
  exists pre suf, s = pre ++ TrimSpace s ++ suf
    /\ Forall (fun r => isSpace r = true) pre /\ Forall (fun r => isSpace r = true) suf.
Proof.
  destruct (dropSpace_split s) as (pre & Hs & Hpre).
  destruct (dropSpace_split (reverse (dropSpace s))) as (q & Hq & Hsuf).
  exists pre, (reverse q). split; [|split; [exact Hpre | apply Forall_reverse, Hsuf]].
  unfold TrimSpace. rewrite <- reverse_app, <- Hq, reverse_involutive. exact Hs.
Qed.

(** X3.  What SanitizeString returns is its argument without the
    characters below 32 other than tab (9), newline (10) and carriage
    return (13), and without the white space at either end of what is
    left: no such character is in the result, its first and its last
    character are above 32 and no white space, and nothing else was taken
    away. *)
Theorem SanitizeString_clean s :
  Forall (fun r => 32 <= r \/ r = 9 \/ r = 10 \/ r = 13) (SanitizeString s)
  /\ (forall r rest, SanitizeString s = r :: rest -> 32 < r /\ isSpace r = false)
  /\ (forall front r, SanitizeString s = front ++ [r] -> 32 < r /\ isSpace r = false)
  /\ exists pre suf,
       filter (fun r => 32 <= r \/ r = 9 \/ r = 10 \/ r = 13) s
       = pre ++ SanitizeString s ++ suf
       /\ Forall (fun r => isSpace r = true) pre
       /\ Forall (fun r => isSpace r = true) suf.
Proof.
  destruct (SanitizeString_kept s) as [Hkeep [Hl Hr]].
  assert (Hcode : Forall (fun r => 32 <= r \/ r = 9 \/ r = 10 \/ r = 13) (SanitizeString s)).
  { eapply Forall_impl; [exact Hkeep|]. intros r. apply keepRune_spec. }
  assert (Hend : forall r, r ∈ SanitizeString s -> isSpace r = false ->
                           32 < r /\ isSpace r = false).
  { intros r Hin Hsp. split; [|exact Hsp].
    rewrite Forall_forall in Hcode. specialize (Hcode r Hin).
    destruct (Z.eq_dec r 32) as [->|Hne]; [discriminate Hsp|].
    destruct Hcode as [Hge|[Hr9|[Hr10|Hr13]]]; [lia | subst r; discriminate Hsp ..]. }
  split; [exact Hcode|]. split; [|split].
  - intros r rest Heq. apply Hend; [rewrite Heq; apply list_elem_of_here|].
    rewrite Heq in Hl. exact (dropSpace_head _ _ _ Hl).
  - intros front r Heq. apply Hend.
    + rewrite Heq. apply elem_of_app. right. apply list_elem_of_here.
    + rewrite Heq, reverse_app in Hr. exact (dropSpace_head _ _ _ Hr).
  - unfold SanitizeString.
    rewrite (list_filter_iff (fun r => 32 <= r \/ r = 9 \/ r = 10 \/ r = 13)
               (fun r => keepRune r = true))
      by (intros r; symmetry; apply keepRune_spec).
    apply TrimSpace_split.
Qed.

(** X4.  Sanitizing a sanitized string changes nothing. *)
Theorem SanitizeString_idempotent s :
  SanitizeString (SanitizeString s) = SanitizeString s.
Proof.
  destruct (SanitizeString_kept s) as [Hkeep Htrim].
  unfold SanitizeString at 1. rewrite (filter_all _ _ Hkeep).
  apply TrimSpace_trimmed_id, Htrim.
Qed.

Lemma dropSpace_no_space s :
  Forall (fun r => isSpace r = false) s -> dropSpace s = s.
Proof.
  intros Hs. destruct Hs as [|r s Hr Hs]; [reflexivity|].
  simpl. rewrite Hr. reflexivity.
Qed.

(** A string without control characters and without white space is a
    fixed point. *)
Lemma SanitizeString_plain s :
  Forall (fun r => keepRune r = true /\ isSpace r = false) s -> SanitizeString s = s.
Proof.
  intros Hs. unfold SanitizeString.
  rewrite filter_all by (eapply Forall_impl; [exact Hs | intros r [Hk _]; exact Hk]).
  apply TrimSpace_trimmed_id. split; apply dropSpace_no_space.
  - eapply Forall_impl; [exact Hs | intros r [_ Hsp]; exact Hsp].
  - apply Forall_reverse. eapply Forall_impl; [exact Hs | intros r [_ Hsp]; exact Hsp].
Qed.

Lemma isWord_plain r : isWord r = true -> keepRune r = true /\ isSpace r = false.
Proof.
  unfold isWord, isLower, isUpper, isDigit. intros Hw.
  rewrite !orb_true_iff, !andb_true_iff, !Z.leb_le, !Z.eqb_eq in Hw.
  assert (Hr : 45 <= r <= 122) by lia. clear Hw.
  unfold keepRune, isSpace.
  repeat match goal with
         | |- context [(?a =? ?b)%Z] => rewrite (proj2 (Z.eqb_neq a b)) by lia
         | |- context [(?a <? ?b)%Z] => rewrite (proj2 (Z.ltb_ge a b)) by lia
         | |- context [(?a <=? ?b)%Z] =>
             first [ rewrite (proj2 (Z.leb_le a b)) by lia
                   | rewrite (proj2 (Z.leb_gt a b)) by lia ]
         end.
  split; reflexivity.
Qed.

Lemma forallb_plain (f : Z -> bool) s :
  (forall r, f r = true -> isWord r = true) -> forallb f s = true ->
  Forall (fun r => keepRune r = true /\ isSpace r = false) s.
Proof.
  intros Hf Hall. apply Forall_forall. intros r Hr.
  apply isWord_plain, Hf. rewrite forallb_forall in Hall.
  apply Hall. apply list_elem_of_In. exact Hr.
Qed.

Lemma SanitizeString_matched s :
  validateTicker s = true \/ validateSource s = true \/ validateSector s = true ->
  SanitizeString s = s.
Proof.
  unfold validateTicker, validateSource, validateSector, tickerPattern, sourcePattern,
    sectorPattern.
  intros [Hv|[Hv|Hv]]; apply andb_prop in Hv as [_ Hall]; apply SanitizeString_plain.
  - apply (forallb_plain _ s) in Hall; [exact Hall|].
    intros r Hr. unfold isWord. apply orb_prop in Hr as [-> | ->];
      rewrite ?orb_true_r; reflexivity.
  - apply (forallb_plain _ s) in Hall; [exact Hall | auto].
  - apply (forallb_plain _ s) in Hall; [exact Hall | auto].
Qed.

(** X5.  The sanitizer changes no string that one of the three patterns
    accepts: valid tickers, sources and sectors are fixed points. *)
Theorem SanitizeString_valid s :
  validateTicker s = true \/ validateSource s = true \/ validateSector s = true ->
  SanitizeString s = s.
Proof.
  unfold validateTicker, validateSource, validateSector, tickerPattern, sourcePattern,
    sectorPattern.
  intros [Hv|[Hv|Hv]]; apply andb_prop in Hv as [_ Hall]; apply SanitizeString_plain.
  - apply (forallb_plain _ s) in Hall; [exact Hall|].
    intros r Hr. unfold isWord. apply orb_prop in Hr as [-> | ->];
      rewrite ?orb_true_r; reflexivity.
  - apply (forallb_plain _ s) in Hall; [exact Hall | auto].
  - apply (forallb_plain _ s) in Hall; [exact Hall | auto].
Qed.

Lemma SanitizeString_valid_witness :
  SanitizeString (go "coinbase-pro") = go "coinbase-pro".
Proof.
  apply (SanitizeString_valid (go "coinbase-pro")). right. left. vm_compute. reflexivity.
Defined.

(** *** SanitizeTimestamp *)

Lemma outOfDay_spec now ms :
  outOfDay now ms = true
  <-> time.unixNano now < ms * 1000000
      \/ ms * 1000000 < time.unixNano now - 24 * 3600 * 1000000000.
Proof.
  unfold outOfDay, time.After, time.Before, time.Add, time.UnixMilli, time.Hour,
    time.Millisecond. cbn [time.unixNano].
  rewrite orb_true_iff, !Z.ltb_lt. lia.
Qed.

Lemma now_millis now :
  time.unixNano now - 1000000 < time.toUnixMilli now * 1000000 <= time.unixNano now.
Proof.
  unfold time.toUnixMilli, time.Millisecond.
  pose proof (Z.div_mod (time.unixNano now) 1000000 ltac:(discriminate)) as Hdm.
  pose proof (Z.mod_pos_bound (time.unixNano now) 1000000 eq_refl) as Hmod.
  lia.
Qed.

(** X6.  Read at the same clock, sanitizing a sanitized timestamp changes
    nothing. *)
Theorem SanitizeTimestamp_idempotent now ms :
  SanitizeTimestamp now (SanitizeTimestamp now ms) = SanitizeTimestamp now ms.
Proof.
  rewrite !SanitizeTimestamp_outOfDay.
  destruct (outOfDay now ms) eqn:Hout; [|rewrite Hout; reflexivity].
  destruct (outOfDay now (time.toUnixMilli now)) eqn:Hnow; [reflexivity|reflexivity].
Qed.

(** X7.  Read at the same clock, a sanitized timestamp passes [validateTimestamp]
    except in one case: a timestamp exactly 24 hours old is kept by the
    sanitizer and refused by the validator. *)
Theorem validateTimestamp_SanitizeTimestamp now ms :
  validateTimestamp now (SanitizeTimestamp now ms) = true
  <-> ms * 1000000 <> time.unixNano now - 24 * 3600 * 1000000000.
Proof.
  rewrite SanitizeTimestamp_outOfDay.
  pose proof (outOfDay_spec now ms) as Hspec.
  pose proof (now_millis now) as Hnow.
  unfold validateTimestamp, time.After, time.Add, time.UnixMilli, time.Hour,
    time.Millisecond. cbn [time.unixNano].
  rewrite andb_true_iff, negb_true_iff, Z.ltb_lt, Z.ltb_ge.
  destruct (outOfDay now ms).
  - assert (Hout : time.unixNano now < ms * 1000000
                   \/ ms * 1000000 < time.unixNano now - 24 * 3600 * 1000000000)
      by (apply Hspec; reflexivity).
    lia.
  - assert (Hin : ~ (time.unixNano now < ms * 1000000
                     \/ ms * 1000000 < time.unixNano now - 24 * 3600 * 1000000000))
      by (intros Hc; apply Hspec in Hc; discriminate).
    lia.
Qed.

(** *** ValidateMap *)

(** X8.  The schema check passes exactly when every field of the schema is
    present with a value of the expected type (and range). *)
Theorem ValidateMap_nil `{Library} now m schema :
  ValidateMap now m schema = []
  <-> forall field ty, (field, ty) ∈ schema ->
        exists v, m !! field = Some v /\ validateFieldType now field v ty = None.
Proof.
  induction schema as [|[f t] schema IH]; cbn [ValidateMap].
  - split; [intros _ field ty Hin; inversion Hin | reflexivity].
  - split.
    + intros Hnil field ty Hin.
      destruct (m !! f) as [v|] eqn:Hm; [|discriminate].
      destruct (validateFieldType now f v t) eqn:Hv; [discriminate|].
      apply elem_of_cons in Hin as [Heq|Hin].
      * injection Heq as -> ->. exists v. split; assumption.
      * apply IH; assumption.
    + intros Hall.
      destruct (Hall f t) as (v & Hm & Hv); [apply list_elem_of_here|].
      rewrite Hm, Hv. apply IH. intros field ty Hin.
      apply Hall. apply list_elem_of_further, Hin.
Qed.

(** A missing field is reported as required, whatever else is wrong. *)
Theorem ValidateMap_missing `{Library} now m schema field ty :
  (field, ty) ∈ schema -> m !! field = None ->
  {| Field := field; Message := IsRequired |} ∈ ValidateMap now m schema.
Proof.
  intros Hin Hm. induction schema as [|[f t] schema IH]; [inversion Hin|].
  cbn [ValidateMap]. apply elem_of_cons in Hin as [Heq|Hin].
  - injection Heq as <- <-. rewrite Hm. apply list_elem_of_here.
  - destruct (m !! f) as [v|]; [|apply list_elem_of_further, IH, Hin].
    destruct (validateFieldType now f v t);
      [apply list_elem_of_further, IH, Hin | apply IH, Hin].
Qed.

End Sanitizers.


(** ** strconv *)
Section Strconv.

Import strconv.

Lemma digit_range r d : digit r = Some d -> 0 <= d <= 9 /\ r = 48 + d.
Proof.
  unfold digit. destruct (Z.leb_spec 48 r); [|discriminate].
  destruct (Z.leb_spec r 57); [|discriminate]. simpl.
  intros Hd. injection Hd as <-. lia.
Qed.

Lemma digits_ge acc s n : 0 <= acc -> digits acc s = Some n -> acc <= n.
Proof.
  revert acc. induction s as [|r s IH]; intros acc Hacc; simpl.
  - intros Hn. injection Hn as <-. lia.
  - destruct (digit r) as [d|] eqn:Hd; [|discriminate]. simpl.
    destruct (digit_range r d Hd) as [Hr _]. intros Hn.
    apply IH in Hn; lia.
Qed.

(** What [ParseInt] returns fits an int64; the empty string and a sign
    alone are errors. *)
Theorem ParseInt_int64 s n :
  ParseInt s = Some n -> - 2^63 <= n < 2^63 /\ s <> [] /\ s <> [43] /\ s <> [45].
Proof.
  assert (Hu : forall s m, parseUint s = Some m -> 0 <= m).
  { intros s' m. unfold parseUint. destruct s'; [discriminate|].
    intros Hm. apply digits_ge in Hm; lia. }
  assert (Hpos : forall s, (n' ← parseUint s; if n' <? 2^63 then Some n' else None) = Some n ->
                           - 2^63 <= n < 2^63).
  { intros s' Hs. destruct (parseUint s') as [m|] eqn:Hm; [|discriminate]. simpl in Hs.
    destruct (Z.ltb_spec m (2^63)); [|discriminate]. injection Hs as <-.
    apply Hu in Hm. lia. }
  assert (Hneg : forall s, (n' ← parseUint s; if n' <=? 2^63 then Some (- n') else None) = Some n ->
                           - 2^63 <= n < 2^63).
  { intros s' Hs. destruct (parseUint s') as [m|] eqn:Hm; [|discriminate]. simpl in Hs.
    destruct (Z.leb_spec m (2^63)); [|discriminate]. injection Hs as <-.
    apply Hu in Hm. lia. }
  intros Hp. split.
  - unfold ParseInt in Hp.
    repeat match type of Hp with
           | match ?x with _ => _ end = _ => destruct x
           end; first [discriminate | apply (Hpos _ Hp) | apply (Hneg _ Hp)].
  - repeat split; intros ->; vm_compute in Hp; discriminate.
Qed.

Lemma ParseInt_int64_witness :
  let s := go "-9223372036854775808" in
  - 2^63 <= - 2^63 < 2^63 /\ s <> [] /\ s <> [43] /\ s <> [45].
Proof.
  intros s. apply (ParseInt_int64 s (- 2^63)). vm_compute. reflexivity.
Defined.

Lemma digit_of d : 0 <= d <= 9 -> digit (48 + d) = Some d.
Proof.
  intros Hd. unfold digit.
  destruct (Z.leb_spec 48 (48 + d)); [|lia].
  destruct (Z.leb_spec (48 + d) 57); [|lia]. simpl. f_equal. lia.
Qed.

Lemma formatBits_digits rounds :
  forall u acc, 0 <= u < 10 ^ Z.of_nat rounds ->
  digits 0 (formatBits rounds u acc) = digits u acc.
Proof.
  induction rounds as [|rounds IH]; intros u acc Hu.
  - simpl in *. replace u with 0 by lia. reflexivity.
  - rewrite Nat2Z.inj_succ, Z.pow_succ_r in Hu by lia.
    pose proof (Z.mod_pos_bound u 10 eq_refl) as Hmod.
    pose proof (Z.div_mod u 10 ltac:(discriminate)) as Hdm.
    cbn [formatBits]. destruct (Z.ltb_spec u 10) as [Hsmall|Hbig].
    + rewrite Z.mod_small by lia. cbn [digits]. rewrite digit_of by lia.
      simpl. reflexivity.
    + rewrite IH by (split; [apply Z.div_pos; lia | apply Z.div_lt_upper_bound; lia]).
      cbn [digits]. rewrite digit_of by lia. simpl. f_equal. lia.
Qed.

Lemma formatBits_head rounds :
  forall u acc, 0 <= u ->
  exists d rest, formatBits (S rounds) u acc = d :: rest /\ 48 <= d <= 57.
Proof.
  induction rounds as [|rounds IH]; intros u acc Hu;
    pose proof (Z.mod_pos_bound u 10 eq_refl) as Hmod.
  - simpl. destruct (u <? 10); eexists _, _; (split; [reflexivity | lia]).
  - change (formatBits (S (S rounds)) u acc)
      with (if u <? 10 then (48 + u mod 10) :: acc
            else formatBits (S rounds) (u / 10) ((48 + u mod 10) :: acc)).
    destruct (Z.ltb_spec u 10); [eexists _, _; split; [reflexivity | lia]|].
    apply IH. apply Z.div_pos; lia.
Qed.

Lemma ParseInt_unsigned d rest :
  48 <= d <= 57 ->
  ParseInt (d :: rest)
  = n ← parseUint (d :: rest); if n <? 2^63 then Some n else None.
Proof.
  intros Hd.
  assert (Hcases : d = 48 \/ d = 49 \/ d = 50 \/ d = 51 \/ d = 52 \/ d = 53
                   \/ d = 54 \/ d = 55 \/ d = 56 \/ d = 57) by lia.
  repeat (destruct Hcases as [->|Hcases]; [reflexivity|]). subst d. reflexivity.
Qed.

Lemma ParseInt_FormatInt_range n :
  - 2^63 <= n < 2^63 -> ParseInt (FormatInt n) = Some n.
Proof.
  intros Hn. unfold FormatInt.
  assert (Hpow : 2^63 < 10 ^ Z.of_nat 20) by (vm_compute; reflexivity).
  destruct (Z.ltb_spec n 0) as [Hneg|Hpos].
  - change (ParseInt (45 :: formatBits 20 (- n) []))
      with (m ← parseUint (formatBits 20 (- n) []); if m <=? 2^63 then Some (- m) else None).
    destruct (formatBits_head 19 (- n) []) as (d & rest & Hfmt & Hd); [lia|].
    unfold parseUint. rewrite Hfmt, <- Hfmt.
    rewrite formatBits_digits by lia. simpl.
    destruct (Z.leb_spec (- n) (2^63)); [f_equal; lia | lia].
  - destruct (formatBits_head 19 n []) as (d & rest & Hfmt & Hd); [lia|].
    rewrite Hfmt, (ParseInt_unsigned d rest Hd). unfold parseUint. rewrite <- Hfmt.
    rewrite formatBits_digits by lia. simpl.
    destruct (Z.ltb_spec n (2^63)); [reflexivity | lia].
Qed.

(** Round trip: an int64 written in decimal is read back as itself.  This
    is what carries ts_ms from the normalizer through the stream to the
    publisher. *)
Theorem ParseInt_FormatInt n :
  - 2^63 <= n < 2^63 -> ParseInt (FormatInt n) = Some n.
Proof. exact (ParseInt_FormatInt_range n). Qed.

Lemma ParseInt_FormatInt_witness :
  ParseInt (FormatInt 1752148800000) = Some 1752148800000
  /\ FormatInt 1752148800000 = go "1752148800000".
Proof.
  split; [apply ParseInt_FormatInt; lia | vm_compute; reflexivity].
Defined.

End Strconv.


(** ** More on the store client *)
Section Breaker.

Import redisclient.

Lemma checkCircuitBreaker_state now e c :
  let c' := checkCircuitBreaker now e c in
  state c' = state c
  \/ (state c = closed /\ state c' = open)
  \/ (state c = open /\ state c' = halfOpen).
Proof.
  cbv zeta. unfold checkCircuitBreaker, casState, closed, open, halfOpen.
  destruct e as [e|]; cbn [state failureCount].
  - destruct (5 <=? wrap64 (failureCount c + 1)); cbn [state]; [|left; reflexivity].
    destruct (Z.eqb_spec (state c) 0); cbn [state]; [right; left; split; congruence|].
    left; reflexivity.
  - destruct (Z.eqb_spec (state c) 1); cbn [state]; [right; right; split; congruence|].
    left; reflexivity.
Qed.

(** X9.  The breaker only moves forward: closed, then open, then half-open.
    Whatever is reported to it afterwards, a breaker that has left the
    closed state never closes again, and a half-open breaker stays
    half-open. *)
Theorem breaker_never_closes reports c :
  (state (afterReports reports c) = closed -> state c = closed)
  /\ (state c = halfOpen -> state (afterReports reports c) = halfOpen)
  /\ (state c = open -> state (afterReports reports c) = open
                        \/ state (afterReports reports c) = halfOpen).
Proof.
  revert c. induction reports as [|[now e] reports IH]; intros c.
  - simpl. auto.
  - change (afterReports ((now, e) :: reports) c)
      with (afterReports reports (checkCircuitBreaker now e c)).
    destruct (IH (checkCircuitBreaker now e c)) as (Hc & Hh & Ho).
    pose proof (checkCircuitBreaker_state now e c) as Hstep. cbv zeta in Hstep.
    unfold closed, open, halfOpen in *.
    split; [|split].
    + intros Hfin. apply Hc in Hfin. destruct Hstep as [Hs|[[Hs _]|[_ Hs]]]; congruence.
    + intros Hs. apply Hh. destruct Hstep as [Hs'|[[Hs' _]|[Hs' _]]]; congruence.
    + intros Hs. destruct Hstep as [Hs'|[[Hs' _]|[_ Hs']]]; [|congruence|].
      * apply Ho. congruence.
      * right. apply Hh, Hs'.
Qed.

(** X10.  An open breaker is never probed by the callers: every later append is
    refused with the circuit-open error, sends nothing to the store, and
    leaves the client as it is. *)
Theorem open_breaker_refuses env name values k c r :
  state c = open ->
  AddToStreamN env name values k (c, r)
  = ((c, r), replicate k (Some ErrCircuitBreakerOpen)).
Proof.
  intros Ho. induction k as [|k IH]; [reflexivity|].
  cbn [AddToStreamN]. unfold AddToStream at 1. change (fst (c, r)) with c.
  rewrite Ho. change (open =? 1) with true. cbv iota. rewrite IH. reflexivity.
Qed.

Lemma open_breaker_refuses_witness :
  let c := {| failureCount := 5; lastFailure := 1752148800; state := open |} in
  let env := {| fails := fun _ => false; applied := fun _ => false;
                unixAt := fun _ => 1752150000 |} in
  AddToStreamN env (go "raw:events") ∅ 3 (c, emptyRedis)
  = ((c, emptyRedis), replicate 3 (Some ErrCircuitBreakerOpen)).
Proof.
  intros c env. apply (open_breaker_refuses env (go "raw:events") ∅ 3 c emptyRedis).
  reflexivity.
Defined.

(** X11.  The threshold of 5 counts attempts, retries included, not appends: from
    a closed breaker with no failure on record, one failed append leaves it
    closed with 4 failures counted, and a second failed append right after
    it leaves it open. *)
Theorem two_failed_appends_open env name values c r s1 e1 s2 e2 :
  state c = closed -> failureCount c = 0 ->
  AddToStream env name values (c, r) = (s1, Some e1) ->
  AddToStream env name values s1 = (s2, Some e2) ->
  state (fst s1) = closed /\ failureCount (fst s1) = 4 /\ state (fst s2) = open.
Proof.
  intros Hs Hc H1 H2.
  assert (Hno : state c <> open) by (unfold closed, open in *; congruence).
  pose proof (AddToStream_failed env name values c r s1 e1 Hno H1) as Hs1.
  pose proof (afterFailures_closed (unixAt env <$> seq (requests r) 4) c (or_introl Hs)) as Hrun.
  cbv zeta in Hrun. simpl length in Hrun. rewrite <- Hs1 in Hrun.
  destruct Hrun as (Hc1 & Hst1 & _); [lia|].
  assert (Hclosed1 : state (fst s1) = closed).
  { rewrite Hs1. unfold afterFailures. cbn [fmap list_fmap seq foldl].
    unfold checkCircuitBreaker, casState. cbn [failureCount state].
    rewrite Hc. unfold closed in Hs. vm_compute wrap64. cbn [failureCount state].
    exact Hs. }
  split; [exact Hclosed1|]. split; [lia|].
  destruct s1 as [c1 r1]. cbn [fst] in *.
  destruct (failed_append_step env name values c1 r1 s2 e2 (or_introl Hclosed1))
    as (_ & _ & Hopen & _); [lia | exact H2 |].
  apply Hopen. right. lia.
Qed.

Lemma two_failed_appends_open_witness :
  let env := {| fails := fun _ => true; applied := fun _ => false;
                unixAt := fun k => 1752148800 + Z.of_nat k |} in
  let s1 := fst (AddToStream env (go "raw:events") ∅ (New, emptyRedis)) in
  let s2 := fst (AddToStream env (go "raw:events") ∅ s1) in
  state (fst s1) = closed /\ failureCount (fst s1) = 4 /\ state (fst s2) = open.
Proof.
  intros env s1 s2.
  apply (two_failed_appends_open env (go "raw:events") ∅ New emptyRedis s1 ErrStore s2
           ErrStore); vm_compute; reflexivity.
Defined.

End Breaker.


(** ** What an append does to the streams *)
Section Streams.

Import redisclient.
#[local] Open Scope nat_scope.

Variable env : Env.
Variable name : gostring.
Variable values : entry.







End Streams.

Section StreamExamples.

Import redisclient.

(** At least once, not exactly once: the first request is carried out but
    its reply misses the deadline, the retry succeeds, and the append
    returns without error with the entry on the stream twice. *)
Lemma AddToStream_duplicates :
  let env := {| fails := fun k => (k =? 0)%nat; applied := fun _ => true;
                unixAt := fun _ => 1752150000 |} in
  let values : entry := {[ go "ticker" := VString (go "BTCUSD") ]} in
  let res := AddToStream env (go "normalized:events") values (New, emptyRedis) in
  snd res = None
  /\ stream (go "normalized:events") (snd (fst res)) = [values; values].
Proof. vm_compute. split; reflexivity. Qed.

End StreamExamples.


(** ** The normalizer over a batch *)
Section NormalizerBatch.

Import validation models normalize.

Context `{Library}.
Variable symbols sectors : gmap gostring gostring.
Variable env : redisclient.Env.

Abbreviation normalized st :=
  (redisclient.stream (go "normalized:events") (redis st)).



End NormalizerBatch.


(** ** The publisher over a batch *)
Section PublisherBatch.

Import models cachepub.

Context `{Library}.

Lemma last_filter_cons ticker tick ticks :
  lastOf ticker (tick :: ticks)
  = match lastOf ticker ticks with
    | Some t => Some t
    | None => if decide (NormalizedTick.Ticker tick = ticker) then Some tick else None
    end.
Proof.
  unfold lastOf. rewrite filter_cons.
  destruct (decide (NormalizedTick.Ticker tick = ticker)) as [Heq|Hne];
    [|destruct (last (filter _ ticks)); reflexivity].
  destruct (filter _ ticks) as [|t l]; [reflexivity|].
  rewrite last_cons. destruct (last (t :: l)) eqn:Hl; [reflexivity|].
  apply last_None in Hl. discriminate.
Qed.

(** X15.  When every pipeline succeeds, the ticks are broadcast on quotes:pubsub
    in the order they were processed, and each ticker's record is that of
    the last tick processed for it (the record is untouched for a ticker
    with no tick). *)
Theorem publishAll_last_writer ticks st :
  let st' := publishAll ((fun tick => (ExecOk, tick)) <$> ticks) st in
  pubsub st' = pubsub st ++ ticks
  /\ forall ticker,
       latest st' !! hashKey ticker
       = match lastOf ticker ticks with
         | Some tick => Some (quoteOf tick)
         | None => latest st !! hashKey ticker
         end.
Proof.
  cbv zeta. revert st. induction ticks as [|tick ticks IH]; intros st.
  - simpl. rewrite app_nil_r. split; [reflexivity|]. intros ticker. reflexivity.
  - cbn [fmap list_fmap publishAll]. destruct (IH (fst (publishTick ExecOk tick st))) as [Hp Hl].
    split.
    + rewrite Hp. cbn. rewrite <- app_assoc. reflexivity.
    + intros ticker. rewrite Hl, last_filter_cons.
      destruct (lastOf ticker ticks); [reflexivity|].
      cbn [publishTick fst Publish HSet latest].
      destruct (decide (NormalizedTick.Ticker tick = ticker)) as [->|Hne].
      * rewrite lookup_insert_eq. reflexivity.
      * rewrite lookup_insert_ne; [reflexivity|].
        intros Heq. apply Hne. apply (app_inv_head _ _ _ Heq).
Qed.

(** X16.  Every message of a batch is counted once, as published or as an error,
    whatever it contains; the errors counted are the pipelines that failed;
    the cursor ends on the last message. *)
Theorem cachepub_accounting batch st :
  let st' := processBatch batch st in
  let failed := length (filter (fun b => pipelineFailed (fst b) = true) batch) in
  CachePubErrors st' = (CachePubErrors st + failed)%nat
  /\ (CachePubCounter st' + failed = CachePubCounter st + length batch)%nat
  /\ lastID st' = List.last ((fun b => normalize.ID (snd b)) <$> batch) (lastID st)
  /\ store st'
     = publishAll ((fun b => (fst b, parseTick (normalize.Values (snd b)))) <$> batch)
         (store st).
Proof.
  assert (Hlast : forall (l : list gostring) x d, List.last (x :: l) d = List.last l x).
  { induction l as [|y l IHl]; intros x d; [reflexivity|].
    change (List.last (x :: y :: l) d) with (List.last (y :: l) d).
    rewrite !IHl. reflexivity. }
  assert (Hstore : forall outcome msg st0,
            store (handleMessage outcome msg st0)
            = fst (publishTick outcome (parseTick (normalize.Values msg)) (store st0))).
  { intros [|h p] msg0 st0; reflexivity. }
  assert (Hstep : forall outcome msg st,
            CachePubErrors (handleMessage outcome msg st)
            = (CachePubErrors st + if pipelineFailed outcome then 1 else 0)%nat
            /\ (CachePubCounter (handleMessage outcome msg st)
                + (if pipelineFailed outcome then 1 else 0)
                = CachePubCounter st + 1)%nat
            /\ lastID (handleMessage outcome msg st) = normalize.ID msg).
  { intros [|h p] msg0 st0; unfold handleMessage; cbn; repeat split; lia. }
  cbv zeta. revert st. induction batch as [|[outcome msg] batch IH]; intros st.
  - cbn. repeat split; lia.
  - cbn [processBatch].
    destruct (IH (handleMessage outcome msg st)) as (He & Hc & Hl & Hs).
    destruct (Hstep outcome msg st) as (He1 & Hc1 & Hl1).
    rewrite Hl, Hl1, Hs, Hstore. rewrite filter_cons. cbn [fst fmap list_fmap snd].
    rewrite Hlast. split; [|split; [|split; reflexivity]];
      destruct (pipelineFailed outcome);
      rewrite ?decide_True by reflexivity; rewrite ?decide_False by discriminate;
      cbn [length]; lia.
Qed.

End PublisherBatch.


(** ** From the normalizer to the publisher *)
Section Pipeline.

Import validation models normalize.

Context `{Library}.

Ltac distinct_keys := let Heq := fresh in intros Heq; vm_compute in Heq; discriminate Heq.

Lemma ToMap_lookups nt :
  NormalizedTick.ToMap nt !! go "ticker" = Some (VString (NormalizedTick.Ticker nt))
  /\ NormalizedTick.ToMap nt !! go "price"
     = Some (VString (Sprintf8 (NormalizedTick.Price nt)))
  /\ NormalizedTick.ToMap nt !! go "ts_ms" = Some (VInt64 (NormalizedTick.Timestamp nt))
  /\ NormalizedTick.ToMap nt !! go "sector" = Some (VString (NormalizedTick.Sector nt)).
Proof.
  unfold NormalizedTick.ToMap. split; [|split; [|split]].
  - apply lookup_insert_eq.
  - rewrite lookup_insert_ne by distinct_keys. apply lookup_insert_eq.
  - rewrite !lookup_insert_ne by distinct_keys. apply lookup_insert_eq.
  - rewrite !lookup_insert_ne by distinct_keys. apply lookup_singleton_eq.
Qed.

(** X17.  Round trip through the stream: the entry the normalizer writes for a
    tick, as the publisher reads it back from the store and parses it,
    gives the same ticker, ts_ms and sector, and the price that the
    8-decimal string parses to. *)
Theorem publisher_reads_normalized formatFloat nt p :
  - 2^63 <= NormalizedTick.Timestamp nt < 2^63 ->
  ParseFloat (Sprintf8 (NormalizedTick.Price nt)) = Some p ->
  cachepub.parseTick (redisclient.readBack formatFloat <$> NormalizedTick.ToMap nt)
  = {| NormalizedTick.Ticker := NormalizedTick.Ticker nt;
       NormalizedTick.Price := p;
       NormalizedTick.Timestamp := NormalizedTick.Timestamp nt;
       NormalizedTick.Sector := NormalizedTick.Sector nt |}.
Proof.
  intros Hts Hp. destruct (ToMap_lookups nt) as (Ht & Hpr & Hms & Hs).
  unfold cachepub.parseTick. rewrite !lookup_fmap, Ht, Hpr, Hms, Hs.
  cbn [fmap option_fmap option_map redisclient.readBack].
  rewrite Hp, (ParseInt_FormatInt_range _ Hts). reflexivity.
Qed.

Variable symbols sectors : gmap gostring gostring.
Variable env : redisclient.Env.

(** X14.  The normal path of [normalizeOne]: a message that parses, with a known
    symbol, on a breaker that is not open and a store that answers the
    first request, adds exactly one entry at the end of normalized:events:
    the mapped ticker, the parsed price, the timestamp in milliseconds, and
    the ticker's sector, or "unknown" when the table has none (or an empty
    one).  It counts one normalized event and resets the failure counter. *)
Theorem normalizeOne_appends now msg st raw ticker :
  RawTickFromMap now (Values msg) = Ok raw ->
  symbols !! RawTick.Symbol raw = Some ticker ->
  redisclient.state (rdb st) <> redisclient.open ->
  redisclient.fails env (redisclient.requests (redis st)) = false ->
  let st' := normalizeOne symbols sectors env now msg st in
  redisclient.stream (go "normalized:events") (redis st')
  = redisclient.stream (go "normalized:events") (redis st)
    ++ [ NormalizedTick.ToMap
           {| NormalizedTick.Ticker := ticker;
              NormalizedTick.Price := RawTick.Price raw;
              NormalizedTick.Timestamp := time.unixNano (RawTick.Timestamp raw) / 1000000;
              NormalizedTick.Sector :=
                match sectors !! ticker with
                | Some (r :: s) => r :: s
                | _ => go "unknown"
                end |} ]
  /\ NormalizeCounter st' = S (NormalizeCounter st)
  /\ NormalizeErrors st' = NormalizeErrors st
  /\ redisclient.requests (redis st') = S (redisclient.requests (redis st))
  /\ redisclient.failureCount (rdb st') = 0.
Proof.
  intros Hparse Hsym Hstate Hok. cbv zeta. unfold normalizeOne.
  rewrite Hparse, Hsym. unfold redisclient.AddToStream. cbn [fst].
  destruct (Z.eqb_spec (redisclient.state (rdb st)) 1) as [Ho|_]; [contradiction|].
  rewrite Retry_unfold. unfold redisclient.addAttempt, redisclient.XAdd,
    redisclient.carriedOut.
  rewrite Hok. cbn beta iota zeta. cbn [negb orb].
  cbn [redis NormalizeCounter NormalizeErrors rdb redisclient.requests].
  unfold redisclient.stream at 1. cbn [redisclient.streams]. rewrite lookup_insert_eq.
  match goal with
  | |- context [default [] (Some ?l)] => change (default [] (Some l)) with l
  end.
  split; [|repeat split].
  - do 3 f_equal. unfold time.toUnixMilli, time.UTC, time.Millisecond. cbn [time.unixNano].
    f_equal. destruct (sectors !! ticker) as [[|r s]|]; reflexivity.
  - unfold redisclient.checkCircuitBreaker, redisclient.casState.
    cbn [redisclient.state redisclient.failureCount].
    destruct (redisclient.state (rdb st) =? 1); reflexivity.
Qed.

End Pipeline.

Section PipelineWitnesses.

Import validation models normalize.

Lemma publisher_reads_normalized_witness :
  let nt := {| NormalizedTick.Ticker := go "BTCUSD"; NormalizedTick.Price := 30000%float;
               NormalizedTick.Timestamp := 1752148800000;
               NormalizedTick.Sector := go "crypto" |} in
  let lib := {| ParseFloat := fun s => if bool_decide (s = go "30000.00000000")
                                      then Some 30000%float else None;
                ParseRFC3339Nano := fun _ => None;
                Sprintf8 := Sprintf8 (Library := exampleLibrary) |} in
  cachepub.parseTick (H := lib)
    (redisclient.readBack (fun _ => []) <$> NormalizedTick.ToMap (H := lib) nt) = nt.
Proof.
  intros nt lib.
  apply (publisher_reads_normalized (H := lib) (fun _ => []) nt 30000%float);
    [cbn; lia | vm_compute; reflexivity].
Defined.

Lemma normalizeOne_appends_witness :
  let msg := {| ID := go "1752148800000-0";
                Values := exampleMessage (VString (go "30000.00"))
                            (VString (go "2025-07-10T12:00:00Z")) |} in
  let env := {| redisclient.fails := fun _ => false; redisclient.applied := fun _ => false;
                redisclient.unixAt := fun _ => 1752150000 |} in
  let st' := normalizeOne (H := exampleLibrary) symbolMap sectorMap env exampleNow msg
               initialState in
  redisclient.stream (go "normalized:events") (redis st')
  = [ NormalizedTick.ToMap (H := exampleLibrary)
        {| NormalizedTick.Ticker := go "BTCUSD"; NormalizedTick.Price := 30000%float;
           NormalizedTick.Timestamp := 1752148800000;
           NormalizedTick.Sector := go "crypto" |} ]
  /\ NormalizeCounter st' = 1%nat /\ NormalizeErrors st' = 0%nat
  /\ redisclient.requests (redis st') = 1%nat
  /\ redisclient.failureCount (rdb st') = 0.
Proof.
  intros msg env.
  apply (normalizeOne_appends (H := exampleLibrary) symbolMap sectorMap env exampleNow msg
           initialState
           {| RawTick.Source := go "feedA"; RawTick.Symbol := go "BTCUSD";
              RawTick.Price := 30000%float; RawTick.Timestamp := instant 1752148800 |}
           (go "BTCUSD")); first [vm_compute; reflexivity | vm_compute; discriminate].
Defined.

End PipelineWitnesses.


(** ** The detector over a run *)
Section DetectorRuns.

Import models anomaly.

Context {machine : Runtime}.
Variable env : redisclient.Env.
Variable toJSON : redisclient.entry -> gostring.

Lemma runAnomalyDetector_snoc cfg msgs msg :
  forall st,
  runAnomalyDetector env toJSON cfg (msgs ++ [msg]) st
  = s ← runAnomalyDetector env toJSON cfg msgs st; onMessage env toJSON cfg msg s.
Proof.
  induction msgs as [|m msgs IH]; intros st; cbn [app runAnomalyDetector].
  - cbn [mbind option_bind]. destruct (onMessage env toJSON cfg msg st); reflexivity.
  - destruct (onMessage env toJSON cfg m st) as [st1|]; [apply IH | reflexivity].
Qed.

Lemma pricesOf_snoc ticker msgs msg :
  pricesOf ticker (msgs ++ [msg]) = pricesOf ticker msgs ++ pricesOf ticker [msg].
Proof.
  induction msgs as [|[tick|] msgs IH]; [reflexivity| |exact IH].
  cbn [app pricesOf]. destruct (decide _); [rewrite IH|exact IH]; reflexivity.
Qed.

Lemma newWindow_Some (size : Z) w :
  newWindow size = Some w -> 0 <= size <= allocatable.
Proof.
  unfold newWindow. destruct (Z.ltb_spec size 0); [discriminate|].
  destruct (Z.ltb_spec allocatable size); [discriminate|]. lia.
Qed.

Lemma windowAfter_served (size : Z) (xs : list float) :
  0 < size <= allocatable -> is_Some (windowAfter size xs).
Proof.
  intros Hpos. replace size with (Z.of_nat (Z.to_nat size)) by lia.
  destruct (windowAfter_tracks (Z.to_nat size) xs) as (w & Hw & _); [lia | lia |].
  rewrite Hw. eexists; reflexivity.
Qed.

(** What [emitAnomaly] does to the detector's state: the event is logged,
    its ZADD counts once, as an anomaly or as an error, and its XADD
    counts one more error when it fails. *)
Lemma emitAnomaly_counts a st :
  let st' := emitAnomaly env toJSON a st in
  windows st' = windows st
  /\ emitted st' = emitted st ++ [a]
  /\ (AnomalyErrors st <= AnomalyErrors st')%nat
  /\ (AnomalyCounter st <= AnomalyCounter st' <= AnomalyCounter st + 1)%nat
  /\ (AnomalyErrors st + AnomalyCounter st + 1
      <= AnomalyErrors st' + AnomalyCounter st'
      <= AnomalyErrors st + AnomalyCounter st + 2)%nat.
Proof.
  cbv zeta. unfold emitAnomaly.
  destruct (redisclient.AddToStream env _ _ _) as [[c r] e1].
  destruct (redisclient.ZAdd env _ _ _ r) as [r' e2].
  destruct e1, e2; cbn; repeat split; lia.
Qed.

(** One payload: the windows move as [onTick] says, and the event it
    returns, if any, is the one handed to [emitAnomaly]. *)
Lemma onMessage_inv cfg msg st st' :
  onMessage env toJSON cfg msg st = Some st' ->
  match msg with
  | None =>
      windows st' = windows st /\ emitted st' = emitted st
      /\ AnomalyErrors st' = S (AnomalyErrors st)
      /\ AnomalyCounter st' = AnomalyCounter st
  | Some tick =>
      exists out, onTick cfg (windows st) tick = Some (windows st', out)
        /\ emitted st' = emitted st ++ option_list out
        /\ (AnomalyErrors st <= AnomalyErrors st')%nat
        /\ (AnomalyCounter st <= AnomalyCounter st'
            <= AnomalyCounter st + length (option_list out))%nat
        /\ (AnomalyErrors st + AnomalyCounter st + length (option_list out)
            <= AnomalyErrors st' + AnomalyCounter st'
            <= AnomalyErrors st + AnomalyCounter st + 2 * length (option_list out))%nat
  end.
Proof.
  unfold onMessage. destruct msg as [tick|].
  - destruct (onTick cfg (windows st) tick) as [[ws out]|]; [|discriminate].
    cbn [mbind option_bind fst snd]. destruct out as [a|]; intros Heq; injection Heq as <-.
    + match goal with
      | |- context [emitAnomaly env toJSON a ?s] =>
          pose proof (emitAnomaly_counts a s) as Hc
      end. cbv zeta in Hc. cbn [windows emitted AnomalyErrors AnomalyCounter] in Hc.
      destruct Hc as (Hw & He & Hle & Hcnt & Hsum).
      exists (Some a). rewrite Hw, He.
      change (length (option_list (Some a))) with 1%nat.
      repeat split; lia.
    + exists None. cbn. rewrite app_nil_r. repeat split; lia.
  - intros Heq. injection Heq as <-. cbn. repeat split.
Qed.

Lemma runAnomalyDetector_total cfg msgs :
  0 < AnomalyWindowSize cfg <= allocatable ->
  forall st, windows_ok cfg (windows st) ->
  exists st', runAnomalyDetector env toJSON cfg msgs st = Some st'
              /\ windows_ok cfg (windows st').
Proof.
  intros Hpos. induction msgs as [|[tick|] msgs IH]; intros st Hok;
    cbn [runAnomalyDetector onMessage].
  - eexists; split; [reflexivity | exact Hok].
  - destruct (onTick_total cfg (windows st) tick Hpos Hok) as (ws' & out & -> & Hok').
    cbn [mbind option_bind fst snd].
    destruct out as [a|]; cbn [mbind option_bind]; apply IH.
    + match goal with
      | |- context [emitAnomaly env toJSON a ?s] =>
          pose proof (emitAnomaly_counts a s) as Hc
      end. cbv zeta in Hc. destruct Hc as (Hw & _). rewrite Hw. exact Hok'.
    + exact Hok'.
  - cbn [mbind option_bind]. apply IH. exact Hok.
Qed.

(** X18.  One independent window per ticker: after any run of the detector from
    an empty map, a ticker that received no price has no window, and the
    window of any other ticker is the window obtained from its own prices
    alone, in order of arrival; ticks of other tickers and undecodable
    payloads do not touch it. *)
Theorem windows_per_ticker cfg msgs c r st' :
  0 < AnomalyWindowSize cfg ->
  runAnomalyDetector env toJSON cfg msgs (start c r) = Some st' ->
  forall ticker,
    windows st' !! ticker
    = match pricesOf ticker msgs with
      | [] => None
      | xs => windowAfter (AnomalyWindowSize cfg) xs
      end.
Proof.
  intros Hpos. revert st'.
  induction msgs as [|msg msgs IH] using rev_ind; intros st' Hrun ticker.
  - simpl in Hrun. injection Hrun as <-. apply lookup_empty.
  - rewrite runAnomalyDetector_snoc in Hrun.
    destruct (runAnomalyDetector env toJSON cfg msgs (start c r)) as [st0|] eqn:Hrun0;
      [|discriminate].
    specialize (IH st0 eq_refl). cbn [mbind option_bind] in Hrun.
    apply onMessage_inv in Hrun.
    rewrite pricesOf_snoc. destruct msg as [tick|]; cbn [pricesOf].
    + destruct Hrun as (out & Htick & _).
      unfold onTick in Htick.
      destruct (windowOf cfg (windows st0) (NormalizedTick.Ticker tick)) as [w0|] eqn:Hw0;
        [|discriminate]. cbn [mbind option_bind] in Htick.
      destruct (add w0 (NormalizedTick.Price tick)) as [w|] eqn:Hadd; [|discriminate].
      cbn [mbind option_bind] in Htick.
      assert (Hws' : windows st' = <[NormalizedTick.Ticker tick := w]> (windows st0)).
      { destruct (stats w) as [mean std]. destruct (std =? 0)%float;
          [|destruct (AnomalyThreshold cfg <=? _)%float];
          injection Htick as <- _; reflexivity. }
      rewrite Hws'. clear Htick.
      destruct (decide (NormalizedTick.Ticker tick = ticker)) as [Heq|Hne].
      * subst ticker. rewrite lookup_insert_eq.
        specialize (IH (NormalizedTick.Ticker tick)).
        unfold windowOf in Hw0.
        destruct (pricesOf (NormalizedTick.Ticker tick) msgs) as [|x0 xs] eqn:Hxs.
        -- rewrite IH in Hw0. cbn [app]. unfold windowAfter. rewrite Hw0.
           cbn. rewrite Hadd. reflexivity.
        -- rewrite IH in Hw0.
           destruct (windowAfter (AnomalyWindowSize cfg) (x0 :: xs)) as [w1|] eqn:Hw1.
           ++ injection Hw0 as <-.
              transitivity (windowAfter (AnomalyWindowSize cfg)
                              ((x0 :: xs) ++ [NormalizedTick.Price tick])); [|reflexivity].
              rewrite windowAfter_snoc, Hw1. cbn [mbind option_bind]. rewrite Hadd.
              reflexivity.
           ++ apply newWindow_Some in Hw0.
              destruct (windowAfter_served (AnomalyWindowSize cfg) (x0 :: xs)) as [w1 Hw1'];
                [lia | congruence].
      * rewrite lookup_insert_ne by exact Hne. rewrite app_nil_r. apply IH.
    + destruct Hrun as (Hw & _). rewrite Hw, app_nil_r. apply IH.
Qed.

Lemma onTick_emitted cfg ws tick ws' a :
  onTick cfg ws tick = Some (ws', Some a) ->
  Anomaly.Ticker a = NormalizedTick.Ticker tick
  /\ Anomaly.Price a = NormalizedTick.Price tick
  /\ Anomaly.Timestamp a = NormalizedTick.Timestamp tick
  /\ (AnomalyThreshold cfg <=? Anomaly.ZScore a)%float = true.
Proof.
  unfold onTick.
  destruct (windowOf cfg ws (NormalizedTick.Ticker tick)) as [w0|]; [|discriminate].
  cbn [mbind option_bind].
  destruct (add w0 (NormalizedTick.Price tick)) as [w|]; [|discriminate].
  cbn [mbind option_bind]. destruct (stats w) as [mean std].
  destruct (std =? 0)%float; [discriminate|].
  destruct (AnomalyThreshold cfg <=? _)%float eqn:Hthr; [|discriminate].
  intros Heq. injection Heq as _ <-. cbn. repeat split. exact Hthr.
Qed.

Lemma runAnomalyDetector_emitted cfg msgs :
  forall st st',
  runAnomalyDetector env toJSON cfg msgs st = Some st' ->
  exists em1, emitted st' = emitted st ++ em1
    /\ Forall (fun a => exists tick, tick ∈ decoded msgs
                 /\ Anomaly.Ticker a = NormalizedTick.Ticker tick
                 /\ Anomaly.Price a = NormalizedTick.Price tick
                 /\ Anomaly.Timestamp a = NormalizedTick.Timestamp tick
                 /\ (AnomalyThreshold cfg <=? Anomaly.ZScore a)%float = true) em1
    /\ (length em1 <= length (decoded msgs))%nat
    /\ (AnomalyErrors st + undecoded msgs <= AnomalyErrors st')%nat
    /\ (AnomalyCounter st <= AnomalyCounter st' <= AnomalyCounter st + length em1)%nat
    /\ (AnomalyErrors st + AnomalyCounter st + undecoded msgs + length em1
        <= AnomalyErrors st' + AnomalyCounter st'
        <= AnomalyErrors st + AnomalyCounter st + undecoded msgs + 2 * length em1)%nat.
Proof.
  induction msgs as [|msg msgs IH]; intros st st' Hrun.
  - simpl in Hrun. injection Hrun as <-. exists []. rewrite app_nil_r.
    unfold undecoded. cbn. repeat split; first [constructor | lia].
  - cbn [runAnomalyDetector] in Hrun.
    destruct (onMessage env toJSON cfg msg st) as [st1|] eqn:Hmsg; [|discriminate].
    cbn [mbind option_bind] in Hrun.
    destruct (IH _ _ Hrun) as (em1 & Hem & Hall & Hlen & Herr & Hcnt & Hsum).
    apply onMessage_inv in Hmsg. destruct msg as [tick|].
    + destruct Hmsg as (out & Htick & He1 & Hle1 & Hcnt1 & Hsum1).
      exists (option_list out ++ em1). rewrite Hem, He1, app_assoc.
      split; [reflexivity|].
      change (decoded (Some tick :: msgs)) with (tick :: decoded msgs).
      assert (Hund : undecoded (Some tick :: msgs) = undecoded msgs).
      { unfold undecoded. rewrite filter_cons_False by discriminate. reflexivity. }
      rewrite Hund, length_app.
      assert (Hone : (length (option_list out) <= 1)%nat) by (destruct out; simpl; lia).
      split; [|cbn [length]; repeat split; lia].
      apply Forall_app. split.
      * destruct out as [a|]; [|constructor]. repeat constructor.
        exists tick. split; [apply list_elem_of_here | exact (onTick_emitted _ _ _ _ _ Htick)].
      * eapply Forall_impl; [exact Hall|]. intros a (tk & Hin & Hrest).
        exists tk. split; [apply list_elem_of_further, Hin | exact Hrest].
    + destruct Hmsg as (_ & He1 & Herr1 & Hcnt1).
      exists em1. rewrite Hem, He1. split; [reflexivity|]. split; [exact Hall|].
      change (decoded (None :: msgs)) with (decoded msgs).
      assert (Hund : undecoded (None :: msgs) = S (undecoded msgs)).
      { unfold undecoded. rewrite filter_cons_True by reflexivity. reflexivity. }
      rewrite Hund. repeat split; lia.
Qed.

Lemma AddToStream_served name values c r :
  redisclient.fails env (redisclient.requests r) = false ->
  redisclient.state c <> redisclient.open ->
  exists c' r',
    redisclient.AddToStream env name values (c, r) = ((c', r'), None)
    /\ redisclient.state c' <> redisclient.open.
Proof.
  intros Hok Hst. unfold redisclient.AddToStream. cbn [fst].
  unfold redisclient.open in *.
  destruct (Z.eqb_spec (redisclient.state c) 1) as [|_]; [contradiction|].
  rewrite Retry_unfold. unfold redisclient.addAttempt, redisclient.XAdd.
  rewrite Hok. cbn beta iota zeta.
  eexists _, _. split; [reflexivity|].
  unfold redisclient.checkCircuitBreaker, redisclient.casState. cbn [redisclient.state].
  destruct (Z.eqb_spec (redisclient.state c) 1); [contradiction | exact Hst].
Qed.

(** Against a store that answers every request, on a breaker that is not
    open, an emission counts one anomaly and no error. *)
Lemma emitAnomaly_served a st :
  (forall k, redisclient.fails env k = false) ->
  redisclient.state (rdb st) <> redisclient.open ->
  let st' := emitAnomaly env toJSON a st in
  AnomalyErrors st' = AnomalyErrors st
  /\ AnomalyCounter st' = S (AnomalyCounter st)
  /\ redisclient.state (rdb st') <> redisclient.open.
Proof.
  intros Hok Hst. cbv zeta. unfold emitAnomaly.
  destruct (AddToStream_served (go "anomalies:stream") (entryOf a) (rdb st) (redis st)
              (Hok _) Hst) as (c' & r' & -> & Hst').
  unfold redisclient.ZAdd. rewrite Hok.
  cbn [AnomalyErrors AnomalyCounter rdb]. repeat split. exact Hst'.
Qed.

Lemma runAnomalyDetector_served cfg msgs :
  (forall k, redisclient.fails env k = false) ->
  forall st st',
  redisclient.state (rdb st) <> redisclient.open ->
  runAnomalyDetector env toJSON cfg msgs st = Some st' ->
  (AnomalyErrors st' = AnomalyErrors st + undecoded msgs)%nat
  /\ (AnomalyCounter st' + length (emitted st)
      = AnomalyCounter st + length (emitted st'))%nat.
Proof.
  intros Hok. induction msgs as [|msg msgs IH]; intros st st' Hst Hrun.
  - simpl in Hrun. injection Hrun as <-. unfold undecoded. cbn. lia.
  - cbn [runAnomalyDetector] in Hrun.
    destruct (onMessage env toJSON cfg msg st) as [st1|] eqn:Hmsg; [|discriminate].
    cbn [mbind option_bind] in Hrun.
    unfold onMessage in Hmsg. destruct msg as [tick|].
    + destruct (onTick cfg (windows st) tick) as [[ws out]|]; [|discriminate].
      cbn [mbind option_bind fst snd] in Hmsg.
      assert (Hund : undecoded (Some tick :: msgs) = undecoded msgs).
      { unfold undecoded. rewrite filter_cons_False by discriminate. reflexivity. }
      rewrite Hund. destruct out as [a|]; injection Hmsg as <-.
      * match type of Hrun with
        | context [emitAnomaly env toJSON a ?s] =>
            pose proof (emitAnomaly_served a s Hok Hst) as Hs;
            pose proof (emitAnomaly_counts a s) as Hc
        end. cbv zeta in Hs, Hc.
        cbn [windows emitted AnomalyErrors AnomalyCounter rdb] in Hs, Hc.
        destruct Hs as (He & Hcn & Hst1). destruct Hc as (_ & Hem & _).
        destruct (IH _ _ Hst1 Hrun) as [Ha Hb].
        rewrite Hem, length_app in Hb. cbn [length] in Hb. lia.
      * match type of Hrun with
        | runAnomalyDetector _ _ _ _ ?s = _ => destruct (IH s st' Hst Hrun) as [Ha Hb]
        end. cbn in Ha, Hb. lia.
    + injection Hmsg as <-.
      assert (Hund : undecoded (None :: msgs) = S (undecoded msgs)).
      { unfold undecoded. rewrite filter_cons_True by reflexivity. reflexivity. }
      rewrite Hund.
      match type of Hrun with
      | runAnomalyDetector _ _ _ _ ?s = _ => destruct (IH s st' Hst Hrun) as [Ha Hb]
      end. cbn in Ha, Hb. lia.
Qed.

(** X19.  Whatever the detector handed to emitAnomaly over a run came from
    a tick it received: every emitted anomaly carries the ticker, price
    and timestamp of a decoded tick and a z-score at or above the
    threshold, and there are no more anomalies than decoded ticks.  The
    error count is at least the number of payloads that did not decode;
    each emission adds one to the anomaly counter or one to the error
    count (its ZADD), and at most one more error (its XADD).  Against a
    store that answers every request, on a breaker that is not open, the
    error count is the number of payloads that did not decode and the
    anomaly counter is the number of emissions. *)
Theorem emitted_anomalies_sound cfg msgs c r st' :
  runAnomalyDetector env toJSON cfg msgs (start c r) = Some st' ->
  Forall (fun a => exists tick, tick ∈ decoded msgs
            /\ Anomaly.Ticker a = NormalizedTick.Ticker tick
            /\ Anomaly.Price a = NormalizedTick.Price tick
            /\ Anomaly.Timestamp a = NormalizedTick.Timestamp tick
            /\ (AnomalyThreshold cfg <=? Anomaly.ZScore a)%float = true) (emitted st')
  /\ (length (emitted st') <= length (decoded msgs))%nat
  /\ (undecoded msgs <= AnomalyErrors st')%nat
  /\ (AnomalyCounter st' <= length (emitted st'))%nat
  /\ (undecoded msgs + length (emitted st')
      <= AnomalyErrors st' + AnomalyCounter st'
      <= undecoded msgs + 2 * length (emitted st'))%nat
  /\ ((forall k, redisclient.fails env k = false) ->
      redisclient.state c <> redisclient.open ->
      AnomalyErrors st' = undecoded msgs
      /\ AnomalyCounter st' = length (emitted st')).
Proof.
  intros Hrun.
  pose proof (fun Hok Hst => runAnomalyDetector_served cfg msgs Hok (start c r) st' Hst Hrun)
    as Hserved.
  destruct (runAnomalyDetector_emitted cfg msgs _ _ Hrun)
    as (em1 & Hem & Hall & Hlen & Herr & Hcnt & Hsum).
  cbn [start emitted AnomalyErrors AnomalyCounter rdb app length] in *. rewrite Hem in *.
  split; [exact Hall|]. split; [exact Hlen|]. split; [lia|]. split; [lia|].
  split; [lia|]. intros Hok Hst.
  destruct (Hserved Hok Hst) as [Ha Hb]. lia.
Qed.

(** X20.  On a run with a decoded tick, the detector panics on the first
    one exactly when the configured window size is zero or negative or
    larger than the machine allocates; with any other size it gets through
    the run. *)
Theorem detector_panics_iff cfg msgs c r :
  decoded msgs <> [] ->
  (runAnomalyDetector env toJSON cfg msgs (start c r) = None
   <-> AnomalyWindowSize cfg <= 0 \/ allocatable < AnomalyWindowSize cfg).
Proof.
  intros Hdec. split.
  - intros Hnone.
    destruct (Z.le_gt_cases (AnomalyWindowSize cfg) 0) as [Hle|Hpos]; [left; exact Hle|].
    destruct (Z.lt_ge_cases allocatable (AnomalyWindowSize cfg)) as [Hbig|Hfit];
      [right; exact Hbig|].
    destruct (runAnomalyDetector_total cfg msgs ltac:(lia) (start c r)) as (st' & Hr & _).
    + intros t w Hl. cbn in Hl. rewrite lookup_empty in Hl. discriminate.
    + congruence.
  - intros Hbad.
    assert (Hgen : forall st, windows st = ∅ ->
              runAnomalyDetector env toJSON cfg msgs st = None).
    { induction msgs as [|[tick|] msgs IH]; intros st Hws; [contradiction| |].
      - cbn [runAnomalyDetector onMessage]. unfold onTick, windowOf.
        rewrite Hws, lookup_empty. unfold newWindow.
        destruct (Z.ltb_spec (AnomalyWindowSize cfg) 0); [reflexivity|].
        destruct (Z.ltb_spec allocatable (AnomalyWindowSize cfg)); [reflexivity|].
        replace (AnomalyWindowSize cfg) with 0 by lia. reflexivity.
      - cbn [runAnomalyDetector onMessage mbind option_bind]. apply IH.
        + exact Hdec.
        + exact Hws. }
    apply Hgen. reflexivity.
Qed.

End DetectorRuns.

Section DetectorRunWitnesses.

Import models anomaly.

Lemma windows_per_ticker_witness :
  let msgs := [tickX 100 1; None; tickX 200 2] in
  exists st',
    runAnomalyDetector (H := exampleRuntime) exampleEnv (fun _ => []) defaultConfig msgs
      (start redisclient.New redisclient.emptyRedis) = Some st'
    /\ windows st' !! go "X" = windowAfter (H := exampleRuntime) 20 [100; 200]%float
    /\ windows st' !! go "Y" = None.
Proof.
  intros msgs.
  destruct (runAnomalyDetector (H := exampleRuntime) exampleEnv (fun _ => []) defaultConfig
              msgs (start redisclient.New redisclient.emptyRedis)) as [st'|] eqn:Hrun;
    [|vm_compute in Hrun; discriminate].
  exists st'. split; [reflexivity|].
  pose proof (windows_per_ticker (machine := exampleRuntime) exampleEnv (fun _ => [])
                defaultConfig msgs _ _ st' eq_refl Hrun) as Hw.
  split; [exact (Hw (go "X")) | exact (Hw (go "Y"))].
Defined.

Lemma emitted_anomalies_sound_witness :
  let msgs := replicate 19 (tickX 100 1752148800000) ++ [None; tickX 1000 1752148801000] in
  let env := {| redisclient.fails := fun k => (k =? 0)%nat;
                redisclient.applied := fun _ => false;
                redisclient.unixAt := fun _ => 1752150000 |} in
  exists st',
    runAnomalyDetector (H := exampleRuntime) env (fun _ => []) defaultConfig msgs
      (start redisclient.New redisclient.emptyRedis) = Some st'
    /\ length (emitted st') = 1%nat
    /\ Forall (fun a => (3 <=? Anomaly.ZScore a)%float = true) (emitted st')
    /\ (2 <= AnomalyErrors st' + AnomalyCounter st' <= 3)%nat.
Proof.
  intros msgs env.
  destruct (runAnomalyDetector (H := exampleRuntime) env (fun _ => []) defaultConfig
              msgs (start redisclient.New redisclient.emptyRedis)) as [st'|] eqn:Hrun;
    [|vm_compute in Hrun; discriminate].
  destruct (emitted_anomalies_sound (machine := exampleRuntime) env (fun _ => [])
              defaultConfig msgs _ _ st' Hrun) as (Hall & _ & _ & _ & Hsum & _).
  assert (Hlen : length (emitted st') = 1%nat).
  { vm_compute in Hrun. injection Hrun as <-. reflexivity. }
  exists st'. split; [reflexivity|]. split; [exact Hlen|]. split.
  - eapply Forall_impl; [exact Hall|]. intros a (tick & _ & _ & _ & _ & Hz). exact Hz.
  - rewrite Hlen in Hsum. change (undecoded msgs) with 1%nat in Hsum. lia.
Defined.

Lemma detector_panics_iff_witness :
  let run cfg := runAnomalyDetector (H := exampleRuntime) exampleEnv (fun _ => []) cfg
                   [None; tickX 100 1752148800000]
                   (start redisclient.New redisclient.emptyRedis) in
  run {| AnomalyWindowSize := 0; AnomalyThreshold := 3 |} = None
  /\ run {| AnomalyWindowSize := 2 ^ 45 + 1; AnomalyThreshold := 3 |} = None
  /\ run defaultConfig <> None.
Proof.
  intros run. split; [|split].
  - apply (detector_panics_iff (machine := exampleRuntime) exampleEnv (fun _ => [])
             {| AnomalyWindowSize := 0; AnomalyThreshold := 3 |}
             [None; tickX 100 1752148800000]); [discriminate | left; cbn; lia].
  - apply (detector_panics_iff (machine := exampleRuntime) exampleEnv (fun _ => [])
             {| AnomalyWindowSize := 2 ^ 45 + 1; AnomalyThreshold := 3 |}
             [None; tickX 100 1752148800000]); [discriminate | right; cbn; lia].
  - intros Hnone.
    apply (detector_panics_iff (machine := exampleRuntime) exampleEnv (fun _ => [])
             defaultConfig [None; tickX 100 1752148800000]) in Hnone;
      [cbn in Hnone; lia | discriminate].
Defined.

End DetectorRunWitnesses.


(** ** Round trips of the models *)
Section ModelRoundTrips.

Import validation models.

Context `{Library}.

Ltac distinct_keys := let Heq := fresh in intros Heq; vm_compute in Heq; discriminate Heq.

Lemma RawTick_ToMap_lookups format rt :
  RawTick.ToMap format rt !! go "source" = Some (VString (RawTick.Source rt))
  /\ RawTick.ToMap format rt !! go "symbol" = Some (VString (RawTick.Symbol rt))
  /\ RawTick.ToMap format rt !! go "price"
     = Some (VString (Sprintf8 (RawTick.Price rt)))
  /\ RawTick.ToMap format rt !! go "timestamp"
     = Some (VString (format (RawTick.Timestamp rt))).
Proof.
  unfold RawTick.ToMap. split; [|split; [|split]].
  - apply lookup_insert_eq.
  - rewrite lookup_insert_ne by distinct_keys. apply lookup_insert_eq.
  - rewrite !lookup_insert_ne by distinct_keys. apply lookup_insert_eq.
  - rewrite !lookup_insert_ne by distinct_keys. apply lookup_singleton_eq.
Qed.

Lemma SanitizePrice_valid p : validatePrice p = true -> SanitizePrice p = p.
Proof.
  unfold validatePrice, SanitizePrice. intros Hv. apply andb_prop in Hv as [Hpos Hlt].
  rewrite (float_ltb_leb _ _ Hpos), (float_ltb_asym _ _ Hlt). reflexivity.
Qed.

(** X21.  RawTick -> map -> RawTick is the identity on valid RawTicks, as far as
    the two text formats are: when the 8-decimal string of the price parses
    back to the price and the RFC3339 string of the timestamp parses back
    to the timestamp, [RawTickFromMap (ToMap rt)] returns [rt]. *)
Theorem RawTick_round_trip now format rt :
  RawTick.Validate rt = None ->
  ParseFloat (Sprintf8 (RawTick.Price rt)) = Some (RawTick.Price rt) ->
  ParseRFC3339Nano (format (RawTick.Timestamp rt)) = Some (RawTick.Timestamp rt) ->
  RawTickFromMap now (RawTick.ToMap format rt) = Ok rt.
Proof.
  intros Hval Hprice Hts.
  assert (Hnil : RawTick.ValidateStruct rt = []).
  { unfold RawTick.Validate in Hval. destruct (RawTick.ValidateStruct rt); [reflexivity|discriminate]. }
  destruct (ValidateStruct_nil rt Hnil) as (_ & Hsrc & _ & Hsym & _ & Hvp & _).
  destruct (RawTick_ToMap_lookups format rt) as (Hl1 & Hl2 & Hl3 & Hl4).
  unfold RawTickFromMap, rawTickSchema. cbn [ValidateMap].
  rewrite Hl1, Hl2, Hl3, Hl4. cbn [validateFieldType]. rewrite Hprice, Hts.
  rewrite (SanitizeString_matched _ (or_intror (or_introl Hsrc))).
  rewrite (SanitizeString_matched _ (or_introl Hsym)).
  rewrite (SanitizePrice_valid _ Hvp).
  destruct rt as [src sym price ts]. cbn [RawTick.Source RawTick.Symbol RawTick.Price
                                           RawTick.Timestamp] in *.
  rewrite Hval. reflexivity.
Qed.

End ModelRoundTrips.

Section ModelRoundTripWitnesses.

Import validation models.

Lemma RawTick_round_trip_witness :
  let rt := {| RawTick.Source := go "feedA"; RawTick.Symbol := go "BTCUSD";
               RawTick.Price := 30000%float; RawTick.Timestamp := instant 1752148800 |} in
  let lib := {| ParseFloat := fun s => if bool_decide (s = go "30000.00000000")
                                      then Some 30000%float else None;
                ParseRFC3339Nano := ParseRFC3339Nano (Library := exampleLibrary);
                Sprintf8 := Sprintf8 (Library := exampleLibrary) |} in
  let format := fun t : time.Time =>
                  if (time.unixNano t =? 1752148800000000000) && time.isUTC t
                  then go "2025-07-10T12:00:00Z" else [] in
  RawTickFromMap (H := lib) exampleNow (RawTick.ToMap (H := lib) format rt) = Ok rt.
Proof.
  intros rt lib format.
  apply (RawTick_round_trip (H := lib) exampleNow format rt); vm_compute; reflexivity.
Defined.

End ModelRoundTripWitnesses.


(** ** NormalizedTick and Anomaly from stream messages *)
Section TickParsing.

Import validation models.

Context `{Library}.

Lemma validateFieldType_Field now field v ty e :
  validateFieldType now field v ty = Some e -> Field e = field.
Proof.
  unfold validateFieldType. intros He.
  destruct ty, v; repeat case_match; try discriminate;
    injection He as <-; reflexivity.
Qed.

(** A field of the schema that is missing or of the wrong type is among
    the errors of the schema check. *)
Lemma ValidateMap_reports now m schema field ty :
  (field, ty) ∈ schema ->
  match m !! field with
  | None => True
  | Some v => validateFieldType now field v ty <> None
  end ->
  exists e, e ∈ ValidateMap now m schema /\ Field e = field.
Proof.
  intros Hin Hbad. induction schema as [|[f t] schema IH]; [inversion Hin|].
  cbn [ValidateMap]. apply elem_of_cons in Hin as [Heq|Hin].
  - injection Heq as <- <-. destruct (m !! field) as [v|].
    + destruct (validateFieldType now field v ty) as [e|] eqn:He; [|congruence].
      exists e. split; [apply list_elem_of_here | exact (validateFieldType_Field _ _ _ _ _ He)].
    + eexists. split; [apply list_elem_of_here | reflexivity].
  - destruct (IH Hin) as (e & He & Hf).
    exists e. split; [|exact Hf].
    destruct (m !! f) as [v'|]; [|apply list_elem_of_further, He].
    destruct (validateFieldType now f v' t); [apply list_elem_of_further, He | exact He].
Qed.

Lemma NormalizedTick_ValidateStruct_nil now nt :
  NormalizedTick_ValidateStruct now nt = []
  <-> requiredString (NormalizedTick.Ticker nt) = true
      /\ validateTicker (NormalizedTick.Ticker nt) = true
      /\ requiredFloat (NormalizedTick.Price nt) = true
      /\ validatePrice (NormalizedTick.Price nt) = true
      /\ requiredInt (NormalizedTick.Timestamp nt) = true
      /\ validateTimestamp now (NormalizedTick.Timestamp nt) = true
      /\ requiredString (NormalizedTick.Sector nt) = true
      /\ validateSector (NormalizedTick.Sector nt) = true.
Proof.
  unfold NormalizedTick_ValidateStruct. split.
  - destruct (requiredString (NormalizedTick.Ticker nt)); [|discriminate].
    destruct (validateTicker (NormalizedTick.Ticker nt)); [|discriminate].
    destruct (requiredFloat (NormalizedTick.Price nt)); [|discriminate].
    destruct (validatePrice (NormalizedTick.Price nt)); [|discriminate].
    destruct (requiredInt (NormalizedTick.Timestamp nt)); [|discriminate].
    destruct (validateTimestamp now (NormalizedTick.Timestamp nt)); [|discriminate].
    destruct (requiredString (NormalizedTick.Sector nt)); [|discriminate].
    destruct (validateSector (NormalizedTick.Sector nt)); [|discriminate].
    intros _. repeat split.
  - intros (-> & -> & -> & -> & -> & -> & -> & ->). reflexivity.
Qed.

Lemma NormalizedTick_Validate_nil now nt :
  NormalizedTick_Validate now nt = None <-> NormalizedTick_ValidateStruct now nt = [].
Proof.
  unfold NormalizedTick_Validate.
  destruct (NormalizedTick_ValidateStruct now nt); split; intros; try reflexivity; discriminate.
Qed.

(** X22.  The sector is not optional: the "unknown" default of the parser is
    never reached.  A message whose sector is missing or is not a string
    is refused by the schema check, with an error on that field. *)
Theorem NormalizedTickFromMap_sector_required now1 now2 now3 m :
  (forall s, m !! go "sector" <> Some (VString s)) ->
  exists errs, NormalizedTickFromMap now1 now2 now3 m = Err (SchemaErrors errs)
    /\ exists e, e ∈ errs /\ Field e = go "sector".
Proof.
  intros Hs.
  destruct (ValidateMap_reports now1 m normalizedTickSchema (go "sector") TString)
    as (e & He & Hf).
  - unfold normalizedTickSchema. do 3 apply list_elem_of_further. apply list_elem_of_here.
  - destruct (m !! go "sector") as [v|] eqn:Hm; [|exact I].
    destruct v; cbn [validateFieldType]; try discriminate.
    exfalso. exact (Hs _ eq_refl).
  - unfold NormalizedTickFromMap.
    destruct (ValidateMap now1 m normalizedTickSchema) as [|err errs]; [inversion He|].
    exists (err :: errs). split; [reflexivity|]. exists e. split; assumption.
Qed.

Ltac distinct_keys := let Heq := fresh in intros Heq; vm_compute in Heq; discriminate Heq.

Lemma NormalizedTick_ToMap_lookups nt :
  NormalizedTick.ToMap nt !! go "ticker" = Some (VString (NormalizedTick.Ticker nt))
  /\ NormalizedTick.ToMap nt !! go "price"
     = Some (VString (Sprintf8 (NormalizedTick.Price nt)))
  /\ NormalizedTick.ToMap nt !! go "ts_ms" = Some (VInt64 (NormalizedTick.Timestamp nt))
  /\ NormalizedTick.ToMap nt !! go "sector" = Some (VString (NormalizedTick.Sector nt)).
Proof.
  unfold NormalizedTick.ToMap. split; [|split; [|split]].
  - apply lookup_insert_eq.
  - rewrite lookup_insert_ne by distinct_keys. apply lookup_insert_eq.
  - rewrite !lookup_insert_ne by distinct_keys. apply lookup_insert_eq.
  - rewrite !lookup_insert_ne by distinct_keys. apply lookup_singleton_eq.
Qed.

(** X23.  NormalizedTick -> map -> NormalizedTick is the identity on valid
    ticks, as far as the price format is: when the 8-decimal string of the
    price parses back to the price, and the timestamp is within the last
    day at the two earlier clock readings as well,
    [NormalizedTickFromMap (ToMap nt)] returns [nt]. *)
Theorem NormalizedTick_round_trip now1 now2 now3 nt :
  NormalizedTick_Validate now3 nt = None ->
  outOfDay now1 (NormalizedTick.Timestamp nt) = false ->
  outOfDay now2 (NormalizedTick.Timestamp nt) = false ->
  ParseFloat (Sprintf8 (NormalizedTick.Price nt)) = Some (NormalizedTick.Price nt) ->
  NormalizedTickFromMap now1 now2 now3 (NormalizedTick.ToMap nt) = Ok nt.
Proof.
  intros Hval Hday1 Hday2 Hprice.
  pose proof (proj1 (NormalizedTick_Validate_nil now3 nt) Hval) as Hnil.
  apply NormalizedTick_ValidateStruct_nil in Hnil
    as (_ & Htk & _ & Hvp & _ & _ & _ & Hsec).
  destruct (NormalizedTick_ToMap_lookups nt) as (Hl1 & Hl2 & Hl3 & Hl4).
  unfold NormalizedTickFromMap, normalizedTickSchema, priceOf, tsMsOf.
  cbn [ValidateMap]. rewrite Hl1, Hl2, Hl3, Hl4.
  cbn [validateFieldType]. rewrite Hprice, Hday1.
  replace (isTimestampField (go "ts_ms")) with true by (vm_compute; reflexivity).
  cbn [andb].
  rewrite (SanitizeString_matched _ (or_introl Htk)).
  rewrite (SanitizeString_matched _ (or_intror (or_intror Hsec))).
  rewrite (SanitizePrice_valid _ Hvp).
  rewrite SanitizeTimestamp_outOfDay, Hday2.
  destruct nt as [ticker price ts sector].
  cbn [NormalizedTick.Ticker NormalizedTick.Price NormalizedTick.Timestamp
       NormalizedTick.Sector] in *.
  rewrite Hval. reflexivity.
Qed.

(** X24.  The same through the stream, where the store hands ts_ms back as a
    decimal string: the schema check then does not look at its age, and a
    valid tick whose price string parses back to its price is read back
    unchanged. *)
Theorem NormalizedTick_stream_round_trip formatFloat now1 now2 now3 nt :
  - 2^63 <= NormalizedTick.Timestamp nt < 2^63 ->
  NormalizedTick_Validate now3 nt = None ->
  outOfDay now2 (NormalizedTick.Timestamp nt) = false ->
  ParseFloat (Sprintf8 (NormalizedTick.Price nt)) = Some (NormalizedTick.Price nt) ->
  NormalizedTickFromMap now1 now2 now3
    (redisclient.readBack formatFloat <$> NormalizedTick.ToMap nt) = Ok nt.
Proof.
  intros Hrange Hval Hday Hprice.
  pose proof (proj1 (NormalizedTick_Validate_nil now3 nt) Hval) as Hnil.
  apply NormalizedTick_ValidateStruct_nil in Hnil
    as (_ & Htk & _ & Hvp & _ & _ & _ & Hsec).
  destruct (NormalizedTick_ToMap_lookups nt) as (Hl1 & Hl2 & Hl3 & Hl4).
  unfold NormalizedTickFromMap, normalizedTickSchema, priceOf, tsMsOf.
  cbn [ValidateMap]. rewrite !lookup_fmap, Hl1, Hl2, Hl3, Hl4.
  cbn [fmap option_fmap option_map redisclient.readBack validateFieldType].
  rewrite Hprice, (ParseInt_FormatInt_range _ Hrange).
  rewrite (SanitizeString_matched _ (or_introl Htk)).
  rewrite (SanitizeString_matched _ (or_intror (or_intror Hsec))).
  rewrite (SanitizePrice_valid _ Hvp).
  rewrite SanitizeTimestamp_outOfDay, Hday.
  destruct nt as [ticker price ts sector].
  cbn [NormalizedTick.Ticker NormalizedTick.Price NormalizedTick.Timestamp
       NormalizedTick.Sector] in *.
  rewrite Hval. reflexivity.
Qed.

(** *** Anomaly *)

(** A clamped z-score that passes both tags of the field was not clamped
    at all, and is a number from 0 up to, not including, 100. *)
Lemma clampZScore_accepted z :
  requiredFloat (clampZScore z) = true -> validateZScore (clampZScore z) = true ->
  clampZScore z = z /\ (0 <=? z)%float = true /\ (z <? 100)%float = true.
Proof.
  unfold clampZScore, validateZScore. cbv zeta.
  destruct (z <? 0)%float eqn:Hneg.
  - vm_compute. discriminate.
  - destruct (100 <? z)%float eqn:Hbig; [vm_compute; discriminate|].
    intros _ Hv. apply andb_prop in Hv as [Hlo Hhi]. repeat split; assumption.
Qed.

Lemma Anomaly_ValidateStruct_zscore now a :
  Anomaly_ValidateStruct now a = [] ->
  requiredFloat (Anomaly.ZScore a) = true /\ validateZScore (Anomaly.ZScore a) = true.
Proof.
  unfold Anomaly_ValidateStruct.
  destruct (requiredString (Anomaly.Ticker a)); [|discriminate].
  destruct (validateTicker (Anomaly.Ticker a)); [|discriminate].
  destruct (requiredFloat (Anomaly.Price a)); [|discriminate].
  destruct (validatePrice (Anomaly.Price a)); [|discriminate].
  destruct (requiredFloat (Anomaly.ZScore a)); [|discriminate].
  destruct (validateZScore (Anomaly.ZScore a)); [|discriminate].
  intros _. split; reflexivity.
Qed.

Lemma Anomaly_Validate_nil now a :
  Anomaly_Validate now a = None <-> Anomaly_ValidateStruct now a = [].
Proof.
  unfold Anomaly_Validate.
  destruct (Anomaly_ValidateStruct now a); split; intros; try reflexivity; discriminate.
Qed.

(** X25.  The clamping of the z-score never shows in an accepted anomaly.  The
    z of the message is a float64 or a string that parses to one; the
    anomaly is accepted only if that number is at least 0 and below 100,
    and then it is stored as it is: a negative z is set to 0, which the
    required tag refuses, and a z of 100 or more ends at 100, which the
    zscore tag refuses. *)
Theorem AnomalyFromMap_zscore now1 now2 now3 m a :
  AnomalyFromMap now1 now2 now3 m = AnomalyOk a ->
  exists z : float,
    (m !! go "z" = Some (VFloat64 z)
     \/ exists v, m !! go "z" = Some (VString v) /\ ParseFloat v = Some z)
    /\ Anomaly.ZScore a = z
    /\ (0 <=? z)%float = true /\ (z <? 100)%float = true.
Proof.
  unfold AnomalyFromMap.
  destruct (ValidateMap now1 m anomalySchema); [|discriminate].
  destruct (m !! go "ticker") as [[s| | |]|]; try discriminate.
  destruct (priceOf m) as [p|]; [|discriminate].
  assert (Hshape : forall z0,
    match tsMsOf now2 m with
    | Ok timestamp =>
        match Anomaly_Validate now3
                {| Anomaly.Ticker := SanitizeString s; Anomaly.Price := p;
                   Anomaly.ZScore := clampZScore z0; Anomaly.Timestamp := timestamp |} with
        | Some e => AnomalyErr (TickError e)
        | None => AnomalyOk
                {| Anomaly.Ticker := SanitizeString s; Anomaly.Price := p;
                   Anomaly.ZScore := clampZScore z0; Anomaly.Timestamp := timestamp |}
        end
    | Err e => AnomalyErr (TickError e)
    end = AnomalyOk a ->
    Anomaly.ZScore a = z0 /\ (0 <=? z0)%float = true /\ (z0 <? 100)%float = true).
  { intros z0. destruct (tsMsOf now2 m) as [ts|]; [|discriminate].
    destruct (Anomaly_Validate now3 _) eqn:Hv; [discriminate|].
    intros Hok. injection Hok as <-. cbn [Anomaly.ZScore].
    apply Anomaly_Validate_nil, Anomaly_ValidateStruct_zscore in Hv as [Hreq Hz].
    cbn [Anomaly.ZScore] in Hreq, Hz.
    destruct (clampZScore_accepted z0 Hreq Hz) as (-> & Hlo & Hhi). repeat split; assumption. }
  destruct (m !! go "z") as [[v|z| |]|] eqn:Hz; try discriminate.
  - destruct (ParseFloat v) as [z|] eqn:Hp; [|discriminate].
    intros Hok. exists z. split; [right; eauto|]. apply Hshape, Hok.
  - intros Hok. exists z. split; [left; reflexivity|]. apply Hshape, Hok.
Qed.

(** X26.  [Sanitize] does not repair a z-score: a sanitized anomaly passes
    [Validate] only if its z-score was at least 0 and below 100 before,
    and then the z-score is unchanged. *)
Theorem Anomaly_Sanitize_zscore now now' a :
  Anomaly_Validate now' (Anomaly_Sanitize now a) = None ->
  Anomaly.ZScore (Anomaly_Sanitize now a) = Anomaly.ZScore a
  /\ validateZScore (Anomaly.ZScore a) = true.
Proof.
  intros Hv. apply Anomaly_Validate_nil, Anomaly_ValidateStruct_zscore in Hv as [Hreq Hz].
  unfold Anomaly_Sanitize in *. cbn [Anomaly.ZScore] in *.
  destruct (clampZScore_accepted _ Hreq Hz) as (Heq & Hlo & Hhi).
  split; [exact Heq|]. unfold validateZScore. rewrite Hlo, Hhi. reflexivity.
Qed.

End TickParsing.

Section TickParsingWitnesses.

Import validation models.

Lemma NormalizedTickFromMap_sector_required_witness :
  let m : gmap gostring Value :=
    {[ go "ticker" := VString (go "BTCUSD"); go "price" := VString (go "30000.00");
       go "ts_ms" := VInt64 1752148800000 ]} in
  exists errs,
    NormalizedTickFromMap (H := exampleLibrary) exampleNow exampleNow exampleNow m
    = Err (SchemaErrors errs)
    /\ exists e, e ∈ errs /\ Field e = go "sector".
Proof.
  intros m.
  apply (NormalizedTickFromMap_sector_required (H := exampleLibrary)
           exampleNow exampleNow exampleNow m).
  intros s. vm_compute. discriminate.
Defined.

Lemma NormalizedTick_stream_round_trip_witness :
  let nt := {| NormalizedTick.Ticker := go "BTCUSD"; NormalizedTick.Price := 30000%float;
               NormalizedTick.Timestamp := 1752148800000;
               NormalizedTick.Sector := go "crypto" |} in
  let lib := {| ParseFloat := fun s => if bool_decide (s = go "30000.00000000")
                                      then Some 30000%float else None;
                ParseRFC3339Nano := fun _ => None;
                Sprintf8 := Sprintf8 (Library := exampleLibrary) |} in
  NormalizedTickFromMap (H := lib) exampleNow exampleNow exampleNow
    (redisclient.readBack (fun _ => []) <$> NormalizedTick.ToMap (H := lib) nt) = Ok nt.
Proof.
  intros nt lib.
  apply (NormalizedTick_stream_round_trip (H := lib) (fun _ => []) exampleNow exampleNow
           exampleNow nt); [cbn; lia | vm_compute; reflexivity ..].
Defined.

Lemma NormalizedTick_round_trip_witness :
  let nt := {| NormalizedTick.Ticker := go "BTCUSD"; NormalizedTick.Price := 30000%float;
               NormalizedTick.Timestamp := 1752148800000;
               NormalizedTick.Sector := go "crypto" |} in
  let lib := {| ParseFloat := fun s => if bool_decide (s = go "30000.00000000")
                                      then Some 30000%float else None;
                ParseRFC3339Nano := fun _ => None;
                Sprintf8 := Sprintf8 (Library := exampleLibrary) |} in
  NormalizedTickFromMap (H := lib) exampleNow exampleNow exampleNow
    (NormalizedTick.ToMap (H := lib) nt) = Ok nt.
Proof.
  intros nt lib.
  apply (NormalizedTick_round_trip (H := lib) exampleNow exampleNow exampleNow nt);
    vm_compute; reflexivity.
Defined.

Lemma AnomalyFromMap_zscore_witness :
  let m : gmap gostring Value :=
    {[ go "ticker" := VString (go "BTCUSD"); go "price" := VString (go "30000.00");
       go "z" := VFloat64 3.5%float; go "ts_ms" := VString (go "1752148800000") ]} in
  let a := {| Anomaly.Ticker := go "BTCUSD"; Anomaly.Price := 30000%float;
              Anomaly.ZScore := 3.5%float; Anomaly.Timestamp := 1752148800000 |} in
  exists z : float,
    (m !! go "z" = Some (VFloat64 z)
     \/ exists v, m !! go "z" = Some (VString v)
                  /\ ParseFloat (Library := exampleLibrary) v = Some z)
    /\ Anomaly.ZScore a = z
    /\ (0 <=? z)%float = true /\ (z <? 100)%float = true.
Proof.
  intros m a.
  apply (AnomalyFromMap_zscore (H := exampleLibrary) exampleNow exampleNow exampleNow m a).
  vm_compute. reflexivity.
Defined.

Lemma Anomaly_Sanitize_zscore_witness :
  let a := {| Anomaly.Ticker := go " BTCUSD "; Anomaly.Price := 30000%float;
              Anomaly.ZScore := 3.5%float; Anomaly.Timestamp := 1752148800000 |} in
  Anomaly.ZScore (Anomaly_Sanitize exampleNow a) = Anomaly.ZScore a
  /\ validateZScore (Anomaly.ZScore a) = true.
Proof.
  intros a. apply (Anomaly_Sanitize_zscore exampleNow exampleNow a).
  vm_compute. reflexivity.
Defined.

End TickParsingWitnesses.
